(** * dbus-systemcalc delegates: a shallow embedding of [delegates.py]

    The delegates of the system calculator are embedded as pure state
    transformers.  Each delegate lives in a module named after its Python
    class; a method becomes a function from the delegate's attributes (and
    the part of the bus it reads) to the new attributes, the bus writes it
    performs and the way the call ends (a normal return or a raised
    exception).

    Numbers read from the bus are Python ints or floats.  Integer items are
    modelled in [Z].  A voltage, a current or a power is carried as the
    rational [Q] that the reading denotes: 50.0 is [50 # 1], 46.8 is
    [468 # 10].  Readings are compared with each other, and the battery
    current with the literal [0.01], as rationals.  Float arithmetic is
    binary64 arithmetic: the products [0.9 * battery_voltage] and
    [1.1 * battery_voltage] of [LgCircuitBreakerDetect.update_values] are
    taken on the binary64 values of the literals and of the reading and
    rounded to the nearest float, ties to even, as Python computes them
    (module [Float], over the [SpecFloat] of the standard library). *)

From Stdlib Require Import Ascii String QArith Qabs.
From Stdlib Require SpecFloat.
From stdpp Require Import gmap strings list pretty.

Local Open Scope string_scope.
Local Open Scope list_scope.
Local Open Scope Z_scope.

#[local] Set Warnings "-clear-no-such-hyp".

(** ** Python values and primitives *)

Module Py.

(** A value found in the snapshot dictionary of a tick. *)
Inductive pyval :=
| PNone
| PInt (z : Z)
| PFloat (q : Q)
| PStr (s : string).

(** [v != None] *)
Definition not_none (v : pyval) : bool :=
  match v with PNone => false | _ => true end.

(** [d.get(k)]: the value stored under [k], or [None]. *)
Definition dict_get (d : gmap string pyval) (k : string) : pyval :=
  default PNone (d !! k).

(** The exceptions that the modelled code can raise or catch. *)
Inductive exn :=
| IndexError
| TypeError
| ValueError
| OSError
| DBusException.

(** How a call ends. *)
Inductive outcome :=
| Returned
| Raised (e : exn).

(** [s.split('.')]: the pieces between the dots; never the empty list. *)
Fixpoint split_dot (s : string) : list string :=
  match s with
  | EmptyString => [EmptyString]
  | String c rest =>
      if Ascii.eqb c "."%char then EmptyString :: split_dot rest
      else match split_dot rest with
           | piece :: pieces => String c piece :: pieces
           | [] => [String c EmptyString]
           end
  end.

(** [service.split('.')[2]]; [None] stands for the [IndexError]. *)
Definition service_type (service : string) : option string :=
  split_dot service !! 2%nat.

(** [x < y] on numbers. *)
Definition Qltb (x y : Q) : bool :=
  (Qnum x * Zpos (Qden y) <? Qnum y * Zpos (Qden x)).

(** [min(l)]: the first item that no later item is [<] than.  The list is
    never empty where the code calls it. *)
Definition py_min (l : list Q) : option Q :=
  match l with
  | [] => None
  | x :: rest => Some (fold_left (fun m y => if Qltb y m then y else m) rest x)
  end.

(** [max(l)], with [>] in place of [<]. *)
Definition py_max (l : list Q) : option Q :=
  match l with
  | [] => None
  | x :: rest => Some (fold_left (fun m y => if Qltb m y then y else m) rest x)
  end.

(** [l[-n:]]: the last [n] items, the whole list when it is shorter. *)
Definition last_n {A} (n : nat) (l : list A) : list A :=
  drop (length l - n) l.

(** [l.remove(x)]: drops the first item equal to [x]. *)
Fixpoint list_remove (x : string) (l : list string) : list string :=
  match l with
  | [] => []
  | y :: rest => if bool_decide (y = x) then rest else y :: list_remove x rest
  end.

End Py.

(** ** Python floats

    A Python float is an IEEE 754 binary64 number.  [SpecFloat] holds the
    operations of binary64 as the standard library specifies them; they are
    taken at 53 bits of precision and exponents below 1024. *)

Module Float.

Definition prec : Z := 53.
Definition emax : Z := 1024.

Definition t : Type := SpecFloat.spec_float.

(** The float nearest to the rational [q], ties to the even mantissa: the
    numerator divided by the denominator and rounded once.  This is the
    float that a decimal literal denotes, and the float that a reading
    is. *)
Definition of_Q (q : Q) : t :=
  match Qnum q with
  | Z0 => SpecFloat.S754_zero false
  | Zpos n =>
      SpecFloat.SFdiv prec emax
        (SpecFloat.S754_finite false n 0) (SpecFloat.S754_finite false (Qden q) 0)
  | Zneg n =>
      SpecFloat.SFdiv prec emax
        (SpecFloat.S754_finite true n 0) (SpecFloat.S754_finite false (Qden q) 0)
  end.

(** [x * y] *)
Definition mul (x y : t) : t := SpecFloat.SFmul prec emax x y.

(** [x < y] *)
Definition ltb (x y : t) : bool := SpecFloat.SFltb x y.

Definition lt (x y : t) : Prop := ltb x y = true.

End Float.

(** ** The bus monitor

    [DbusMonitor] (velib_python) caches the items of every service on the
    bus.  [get_value] answers [None] for an unknown service, an unknown path
    or an invalid item. *)

Module Monitor.

Record t := {
  ints : gmap (string * string) Z;   (* integer items: /ProductId, /State, ... *)
  nums : gmap (string * string) Q    (* numeric items: voltages, currents, power *)
}.

Definition empty : t := {| ints := ∅; nums := ∅ |}.

(** [get_value(service, path)] on an integer item; [service] may be [None]. *)
Definition get_int (m : t) (service : option string) (path : string) : option Z :=
  match service with
  | None => None
  | Some s => ints m !! (s, path)
  end.

(** [get_value(service, path)] on a numeric item. *)
Definition get_num (m : t) (service : option string) (path : string) : option Q :=
  match service with
  | None => None
  | Some s => nums m !! (s, path)
  end.

End Monitor.

(** [newvalues.get('/VebusService')]: a service name or [None]. *)
Definition snapshot_vebus (newvalues : gmap string Py.pyval) : option string :=
  match Py.dict_get newvalues "/VebusService" with
  | Py.PStr s => Some s
  | _ => None
  end.

(** ** HubTypeSelect *)

Module HubTypeSelect.

Definition update_values (mon : Monitor.t) (newvalues : gmap string Py.pyval)
  : gmap string Py.pyval :=
  let vebus_path := snapshot_vebus newvalues in
  let hub :=
    if bool_decide (is_Some (Monitor.get_num mon vebus_path "/Hub4/AcPowerSetpoint"))
    then Py.PInt 4
    else if bool_decide (is_Some (Monitor.get_num mon vebus_path "/Hub1/ChargeVoltage"))
            || Py.not_none (Py.dict_get newvalues "/Dc/Pv/Power")
    then Py.PInt 1
    else if Py.not_none (Py.dict_get newvalues "/Ac/PvOnOutput/Total/Power")
    then Py.PInt 2
    else if Py.not_none (Py.dict_get newvalues "/Ac/PvOnGrid/Total/Power")
            || Py.not_none (Py.dict_get newvalues "/Ac/PvOnGenset/Total/Power")
    then Py.PInt 3
    else Py.PNone in
  <["/Hub" := hub]> newvalues.

End HubTypeSelect.

(** *** The rules of the classifier, as conditions on a snapshot *)

Section hub_type_select.
Variables (mon : Monitor.t) (newvalues : gmap string Py.pyval).

Let vebus := snapshot_vebus newvalues.
Let present (path : string) : Prop := Py.dict_get newvalues path ≠ Py.PNone.

(** The four conditions of the classifier, in the order it tries them. *)
Definition hub4_setpoint : Prop :=
  is_Some (Monitor.get_num mon vebus "/Hub4/AcPowerSetpoint").
Definition hub1_or_dc_pv : Prop :=
  is_Some (Monitor.get_num mon vebus "/Hub1/ChargeVoltage") ∨ present "/Dc/Pv/Power".
Definition pv_on_output : Prop := present "/Ac/PvOnOutput/Total/Power".
Definition pv_on_grid_or_genset : Prop :=
  present "/Ac/PvOnGrid/Total/Power" ∨ present "/Ac/PvOnGenset/Total/Power".

(** What the tick publishes under [/Hub]. *)
Definition published_hub : option Py.pyval :=
  HubTypeSelect.update_values mon newvalues !! "/Hub".
End hub_type_select.

(** ** The GLib main loop

    [gobject.timeout_add] registers a repeating source and returns its id;
    [gobject.source_remove] drops it.  Ids are handed out in increasing
    order and never reused. *)

Module MainLoop.

Inductive callback :=
| Hub1OnTimer            (* Hub1Bridge._on_timer *)
| BuzzerOnTimer          (* BuzzerControl._on_timer *)
| ProcessSupervised      (* ServiceSupervisor._process_supervised *)
| OtherCallback.         (* a source of another component *)

#[global] Instance callback_eq_dec : EqDecision callback.
Proof. solve_decision. Defined.

Record t := {
  next_id : nat;
  sources : gmap nat (Z * callback)    (* id -> (interval in ms, callback) *)
}.

Definition empty : t := {| next_id := 1; sources := ∅ |}.

Definition timeout_add (interval : Z) (cb : callback) (l : t) : nat * t :=
  (next_id l,
   {| next_id := S (next_id l);
      sources := <[next_id l := (interval, cb)]> (sources l) |}).

Definition source_remove (id : nat) (l : t) : t :=
  {| next_id := next_id l; sources := delete id (sources l) |}.

(** The ids of the active sources that run [cb]. *)
Definition active (cb : callback) (l : t) : gset nat :=
  dom (filter (fun kv => snd (snd kv) = cb) (sources l)).

(** No id that is still to be handed out is in use. *)
Definition wf (l : t) : Prop :=
  ∀ id, is_Some (sources l !! id) → (id < next_id l)%nat.

(** The delegate that keeps the id of its timer in [timer] owns exactly
    that source among those that run [cb]. *)
Definition owns (cb : callback) (timer : option nat) (l : t) : Prop :=
  active cb l = match timer with Some id => {[id]} | None => ∅ end.

End MainLoop.

(** ** ServiceSupervisor *)

Module ServiceSupervisor.

Record t := {
  supervised : gset string;
  busy : gset string
}.

(** [__init__]; the 60 s timer that runs [_process_supervised] is added to
    the main loop. *)
Definition init (l : MainLoop.t) : t * MainLoop.t :=
  ({| supervised := ∅; busy := ∅ |},
   snd (MainLoop.timeout_add 60000 MainLoop.ProcessSupervised l)).

Definition device_added (service : string) (st : t) : t * Py.outcome :=
  match Py.service_type service with
  | None => (st, Py.Raised Py.IndexError)
  | Some service_type =>
      if bool_decide (service_type = "battery")
         || bool_decide (service_type = "solarcharger")
      then ({| supervised := {[service]} ∪ supervised st; busy := busy st |},
            Py.Returned)
      else (st, Py.Returned)
  end.

Definition device_removed (service : string) (st : t) : t :=
  {| supervised := supervised st ∖ {[service]};
     busy := busy st ∖ {[service]} |}.

Definition is_busy (st : t) (service : string) : bool :=
  bool_decide (service ∈ busy st).

(** What one pass of [_process_supervised] does, in order. *)
Inductive effect :=
| BusyAdd (service : string)       (* self._busy.add(service) *)
| CallAsync (service : string).    (* dbusConn.call_async(service, '/ProductId', ...) *)

(** The body of the [for] loop, for one service. *)
Definition probe (service : string) (st : t) : t * list effect :=
  ({| supervised := supervised st; busy := {[service]} ∪ busy st |},
   [BusyAdd service; CallAsync service]).

Fixpoint process_loop (services : list string) (st : t) : t * list effect :=
  match services with
  | [] => (st, [])
  | service :: rest =>
      let '(st1, e1) := probe service st in
      let '(st2, e2) := process_loop rest st1 in
      (st2, e1 ++ e2)
  end.

(** [_process_supervised]; the loop visits the supervised set in the order
    of [elements].  The method returns [True], which keeps the timer. *)
Definition process_supervised (st : t) : t * list effect :=
  process_loop (elements (supervised st)) st.

(** The busy set after a prefix of the effects of a pass. *)
Definition replay (es : list effect) (b : gset string) : gset string :=
  foldl (fun b e => match e with BusyAdd s => {[s]} ∪ b | CallAsync _ => b end) b es.

(** The services that a pass calls, in order. *)
Definition calls (es : list effect) : list string :=
  omap (fun e => match e with CallAsync s => Some s | BusyAdd _ => None end) es.

Definition supervise_success (service : string) (st : t) : t :=
  {| supervised := supervised st; busy := busy st ∖ {[service]} |}.

(** The answer of the blocking [GetConnectionUnixProcessID] call. *)
Inductive pid_lookup :=
| LookupRaises                    (* dbus.exceptions.DBusException *)
| LookupReturns (pid : option Z).

Inductive action :=
| LogIgnoring (service : string)
| LogNotResponding (service : string)
| GetProcessID (service : string)
| LogKilling (service : string) (pid : Z)
| Kill (pid : Z)                  (* os.kill(pid, signal.SIGKILL) *)
| PrintExc.                       (* traceback.print_exc() *)

Definition NoReply : string := "org.freedesktop.DBus.Error.NoReply".

(** [_supervise_failed(service, error)]: [dbus_name] is
    [error.get_dbus_name()], [lookup] the answer of the bus to the process
    id request and [kill_raises] tells whether [os.kill] raises [OSError]. *)
Definition supervise_failed (service dbus_name : string) (lookup : pid_lookup)
    (kill_raises : bool) (st : t) : t * list action :=
  let st1 := {| supervised := supervised st; busy := busy st ∖ {[service]} |} in
  if negb (bool_decide (dbus_name = NoReply))
  then (st1, [LogIgnoring service])
  else
    (st1,
     LogNotResponding service :: GetProcessID service ::
     match lookup with
     | LookupRaises => [PrintExc]
     | LookupReturns None => []
     | LookupReturns (Some pid) =>
         if 1 <? pid
         then LogKilling service pid :: Kill pid ::
              (if kill_raises then [PrintExc] else [])
         else []
     end).

(** *** The supervisor on the bus

    [call_async] hands a request to the connection; its reply or its error
    comes back later, as one call of [_supervise_success] or of
    [_supervise_failed].  [pending] lists the requests that are still to be
    answered. *)

Record sys := {
  sup : t;
  pending : list string
}.

Definition start : sys :=
  {| sup := {| supervised := ∅; busy := ∅ |}; pending := [] |}.

Inductive event :=
| DeviceAdded (service : string)
| DeviceRemoved (service : string)
| TimerFired                                  (* _process_supervised *)
| Success (service : string)                  (* _supervise_success *)
| Failed (service dbus_name : string) (lookup : pid_lookup) (kill_raises : bool).

(** One event.  A reply removes its request from [pending]. *)
Definition step (w : sys) (e : event) : sys :=
  match e with
  | DeviceAdded service =>
      {| sup := fst (device_added service (sup w)); pending := pending w |}
  | DeviceRemoved service =>
      {| sup := device_removed service (sup w); pending := pending w |}
  | TimerFired =>
      let '(st, es) := process_supervised (sup w) in
      {| sup := st; pending := pending w ++ calls es |}
  | Success service =>
      {| sup := supervise_success service (sup w);
         pending := Py.list_remove service (pending w) |}
  | Failed service dbus_name lookup kill_raises =>
      {| sup := fst (supervise_failed service dbus_name lookup kill_raises (sup w));
         pending := Py.list_remove service (pending w) |}
  end.

Definition run (es : list event) (w : sys) : sys := foldl step w es.

(** [e] is the completion callback of a request to [service]. *)
Definition completes (service : string) (e : event) : bool :=
  match e with
  | Success s | Failed s _ _ _ => bool_decide (s = service)
  | _ => false
  end.

(** [e] is [device_removed(service, _)]. *)
Definition removes (service : string) (e : event) : bool :=
  match e with
  | DeviceRemoved s => bool_decide (s = service)
  | _ => false
  end.

(** The effects of a pass over [services]: each is marked busy, then called. *)
Definition probe_effects (services : list string) : list effect :=
  flat_map (fun s => [BusyAdd s; CallAsync s]) services.

(** The invariant of the busy set. *)
Definition busy_supervised (w : sys) : Prop :=
  busy (sup w) ⊆ supervised (sup w).

End ServiceSupervisor.

(** ** Writes to items of other services *)

Module Bus.

(** [get_item(service, path).set_value(v)] *)
Inductive write :=
| SetValue (service path : string) (v : Py.pyval).

(** The writes of one [try] block: they are made in order until one raises
    [DBusException], which ends the block. *)
Fixpoint perform (raises : string → string → bool) (ws : list write) : list write :=
  match ws with
  | [] => []
  | SetValue service path v :: rest =>
      if raises service path then []
      else SetValue service path v :: perform raises rest
  end.

(** [self._dbusservice['/VebusService']], [None] when the path is missing
    or holds [None]. *)
Definition vebus_service (dbusservice : gmap string Py.pyval) : option string :=
  snapshot_vebus dbusservice.

End Bus.

(** ** Hub1Bridge *)

Module Hub1Bridge.

Record t := {
  solarchargers : list string;
  timer : option nat
}.

Definition init : t := {| solarchargers := []; timer := None |}.

(** What the bridge sees of the rest of the system during one call.  The
    monitor holds an item for every path of [get_input] of every known
    service, so [get_item] on a charger answers an item, whose value may be
    [None]. *)
Record bus := {
  dbusservice : gmap string Py.pyval;
  monitor : Monitor.t;
  supervisor : ServiceSupervisor.t;
  set_value_raises : string → string → bool
}.

(** The [try] block of [_update_solarchargers] for one charger. *)
Definition charger_writes (b : bus) (charge_voltage : Q) (state : option Z)
    (service : string) : list Bus.write :=
  match Monitor.get_int (monitor b) (Some service) "/Link/NetworkMode" with
  | None => []
  | Some _ =>
      Bus.perform (set_value_raises b)
        (Bus.SetValue service "/Link/NetworkMode" (Py.PInt 5) ::
         Bus.SetValue service "/Link/ChargeVoltage" (Py.PFloat charge_voltage) ::
         match state, Monitor.get_int (monitor b) (Some service) "/FirmwareVersion" with
         | Some st, Some firmware_version =>
             if Z.land firmware_version 0x0FFF =? 0x0117
             then [Bus.SetValue service "/State" (Py.PInt st)]
             else []
         | _, _ => []
         end)
  end.

Definition update_solarchargers (b : bus) (st : t) : list Bus.write :=
  match Bus.vebus_service (dbusservice b) with
  | None => []
  | Some vebus_path =>
      match Monitor.get_num (monitor b) (Some vebus_path) "/Hub1/ChargeVoltage" with
      | None => []
      | Some charge_voltage =>
          let state := Monitor.get_int (monitor b) (Some vebus_path) "/State" in
          flat_map
            (fun service =>
               if ServiceSupervisor.is_busy (supervisor b) service then []
               else charger_writes b charge_voltage state service)
            (solarchargers st)
      end
  end.

Record result := {
  state : t;
  loop : MainLoop.t;
  writes : list Bus.write;
  ended : Py.outcome
}.

Definition device_added (service : string) (b : bus) (st : t) (l : MainLoop.t)
  : result :=
  match Py.service_type service with
  | None => {| state := st; loop := l; writes := []; ended := Py.Raised Py.IndexError |}
  | Some service_type =>
      if negb (bool_decide (service_type = "solarcharger"))
      then {| state := st; loop := l; writes := []; ended := Py.Returned |}
      else
        let st1 := {| solarchargers := solarchargers st ++ [service];
                      timer := timer st |} in
        let ws := update_solarchargers b st1 in
        match timer st1 with
        | None =>
            let '(id, l1) := MainLoop.timeout_add 10000 MainLoop.Hub1OnTimer l in
            {| state := {| solarchargers := solarchargers st1; timer := Some id |};
               loop := l1; writes := ws; ended := Py.Returned |}
        | Some _ =>
            {| state := st1; loop := l; writes := ws; ended := Py.Returned |}
        end
  end.

Definition device_removed (service : string) (st : t) (l : MainLoop.t)
  : t * MainLoop.t :=
  if bool_decide (service ∈ solarchargers st)
  then
    let chargers := Py.list_remove service (solarchargers st) in
    match (length chargers =? 0)%nat, timer st with
    | true, Some id =>
        ({| solarchargers := chargers; timer := None |},
         MainLoop.source_remove id l)
    | _, _ => ({| solarchargers := chargers; timer := timer st |}, l)
    end
  else (st, l).

(** [_on_timer]: returns [True], so the source stays. *)
Definition on_timer (b : bus) (st : t) : list Bus.write :=
  update_solarchargers b st.

(** What can happen to the bridge. *)
Inductive event :=
| DeviceAdded (service : string) (b : bus)
| DeviceRemoved (service : string)
| TimerFired (b : bus).

Definition step (w : t * MainLoop.t) (e : event) : t * MainLoop.t :=
  match e with
  | DeviceAdded service b =>
      let r := device_added service b (fst w) (snd w) in (state r, loop r)
  | DeviceRemoved service => device_removed service (fst w) (snd w)
  | TimerFired _ => w
  end.

Definition run (es : list event) (w : t * MainLoop.t) : t * MainLoop.t :=
  foldl step w es.

(** The timer is there exactly when a charger is known, and it is the one
    source of the main loop that runs [_on_timer]. *)
Definition timer_invariant (w : t * MainLoop.t) : Prop :=
  MainLoop.wf (snd w)
  ∧ MainLoop.owns MainLoop.Hub1OnTimer (timer (fst w)) (snd w)
  ∧ (∀ id, timer (fst w) = Some id →
       MainLoop.sources (snd w) !! id = Some (10000, MainLoop.Hub1OnTimer))
  ∧ (is_Some (timer (fst w)) ↔ solarchargers (fst w) ≠ []).

(** A bus on which nothing is published, nothing is busy and no write fails. *)
Definition quiet_bus : bus :=
  {| dbusservice := ∅; monitor := Monitor.empty;
     supervisor := ServiceSupervisor.sup ServiceSupervisor.start;
     set_value_raises := fun _ _ => false |}.

End Hub1Bridge.

(** ** BuzzerControl *)

Module BuzzerControl.

(** How the write to the GPIO file goes: [open] may fail, which leaves the
    file as it is, or the write itself may, after [open] has emptied it. *)
Inductive io :=
| IoOk
| IoOpenFails
| IoWriteFails.

Record t := {
  buzzer_on : bool;
  timer : option nat;
  file : string;                 (* the content of the file at [self._path] *)
  requested : list string        (* what [_set_buzzer] set out to write, oldest first *)
}.

(** After [set_sources] has found the buzzer. *)
Definition init (content : string) : t :=
  {| buzzer_on := false; timer := None; file := content; requested := [] |}.

Definition token (on : bool) : string := if on then "1" else "0".

(** [_set_buzzer(on)] and the [True] or [False] it returns. *)
Definition set_buzzer (on : bool) (o : io) (st : t) : t * bool :=
  let rq := requested st ++ [token on] in
  match o with
  | IoOk =>
      ({| buzzer_on := on; timer := timer st; file := token on;
          requested := rq |}, true)
  | IoOpenFails =>
      ({| buzzer_on := buzzer_on st; timer := timer st; file := file st;
          requested := rq |}, false)
  | IoWriteFails =>
      ({| buzzer_on := buzzer_on st; timer := timer st; file := EmptyString;
          requested := rq |}, false)
  end.

Definition set_timer (tm : option nat) (st : t) : t :=
  {| buzzer_on := buzzer_on st; timer := tm; file := file st;
     requested := requested st |}.

(** [_on_buzzer_state_changed(value)]; it always returns [True]. *)
Definition on_buzzer_state_changed (value : Z) (o : io) (st : t) (l : MainLoop.t)
  : t * MainLoop.t :=
  if value =? 1 then
    match timer st with
    | None =>
        let '(id, l1) := MainLoop.timeout_add 500 MainLoop.BuzzerOnTimer l in
        (fst (set_buzzer true o (set_timer (Some id) st)), l1)
    | Some _ => (st, l)
    end
  else
    match timer st with
    | Some id =>
        (fst (set_buzzer false o (set_timer None st)), MainLoop.source_remove id l)
    | None => (st, l)
    end.

(** [_on_timer]; it returns [True], so the source stays. *)
Definition on_timer (o : io) (st : t) : t :=
  fst (set_buzzer (negb (buzzer_on st)) o st).

Inductive event :=
| StateWritten (value : Z) (o : io)     (* a write to /Buzzer/State *)
| TimerFired (id : nat) (o : io).       (* the main loop runs source [id] *)

Definition step (w : t * MainLoop.t) (e : event) : t * MainLoop.t :=
  match e with
  | StateWritten value o => on_buzzer_state_changed value o (fst w) (snd w)
  | TimerFired id o =>
      match MainLoop.sources (snd w) !! id with
      | Some (_, MainLoop.BuzzerOnTimer) => (on_timer o (fst w), snd w)
      | _ => w
      end
  end.

Definition run (es : list event) (w : t * MainLoop.t) : t * MainLoop.t :=
  foldl step w es.

(** The blink timer that [_timer] names is the one source of the main loop
    that runs [_on_timer]; there is none when [_timer] is [None]. *)
Definition timer_invariant (w : t * MainLoop.t) : Prop :=
  MainLoop.wf (snd w) ∧ MainLoop.owns MainLoop.BuzzerOnTimer (timer (fst w)) (snd w).

End BuzzerControl.

(** ** LgCircuitBreakerDetect *)

Module LgCircuitBreakerDetect.

Definition alarm_path : string := "/Dc/Battery/Alarms/CircuitBreakerTripped".

(** [_lg_voltage_buffer] does not exist before the first LG battery has
    appeared and is [None] after it has gone: both are [None] here. *)
Record t := {
  lg_battery : option string;
  lg_voltage_buffer : option (list Q);
  dbusservice : gmap string Py.pyval
}.

(** [__init__] followed by [set_sources]. *)
Definition init (dbusservice : gmap string Py.pyval) : t :=
  {| lg_battery := None; lg_voltage_buffer := None;
     dbusservice := <[alarm_path := Py.PNone]> dbusservice |}.

Definition device_added (service : string) (mon : Monitor.t) (st : t)
  : t * Py.outcome :=
  match Py.service_type service with
  | None => (st, Py.Raised Py.IndexError)
  | Some service_type =>
      if bool_decide (service_type = "battery")
         && bool_decide (Monitor.get_int mon (Some service) "/ProductId" = Some 0xB004)
      then ({| lg_battery := Some service; lg_voltage_buffer := Some [];
               dbusservice := <[alarm_path := Py.PInt 0]> (dbusservice st) |},
            Py.Returned)
      else (st, Py.Returned)
  end.

Definition device_removed (service : string) (st : t) : t :=
  if bool_decide (Some service = lg_battery st)
  then {| lg_battery := None; lg_voltage_buffer := None;
          dbusservice := <[alarm_path := Py.PNone]> (dbusservice st) |}
  else st.

(** What a tick sees of the bus: the monitor, the items that [get_item]
    finds and whether [set_value] on the inverter's mode raises
    [DBusException]. *)
Record bus := {
  monitor : Monitor.t;
  items : gset (string * string);
  set_value_raises : bool
}.

Record result := {
  state : t;
  writes : list Bus.write;
  ended : Py.outcome
}.

Definition set_buffer (buf : list Q) (st : t) : t :=
  {| lg_battery := lg_battery st; lg_voltage_buffer := Some buf;
     dbusservice := dbusservice st |}.

Definition returns (st : t) : result :=
  {| state := st; writes := []; ended := Py.Returned |}.

Definition raises (e : Py.exn) (st : t) : result :=
  {| state := st; writes := []; ended := Py.Raised e |}.

(** The window that is evaluated once [sample] has been appended, [None]
    when the method returns before it looks at the window. *)
Definition window (buf : list Q) (sample : Q) : list Q * bool :=
  let buf1 := buf ++ [sample] in
  if (40 <? length buf1)%nat then (Py.last_n 40 buf1, true)
  else if (length buf1 <? 20)%nat then (buf1, false)
  else (buf1, true).

(** [min_voltage < 0.9 * battery_voltage or max_voltage > 1.1 * battery_voltage]:
    two float products and two float comparisons. *)
Definition out_of_band (min_voltage max_voltage battery_voltage : Q) : bool :=
  Float.ltb (Float.of_Q min_voltage)
    (Float.mul (Float.of_Q (9 # 10)) (Float.of_Q battery_voltage))
  || Float.ltb (Float.mul (Float.of_Q (11 # 10)) (Float.of_Q battery_voltage))
       (Float.of_Q max_voltage).

Definition update_values (newvalues : gmap string Py.pyval) (b : bus) (st : t)
  : result :=
  match lg_battery st, snapshot_vebus newvalues with
  | Some battery, Some vebus_path =>
      match lg_voltage_buffer st with
      | None => raises Py.TypeError st
      | Some buf =>
          let battery_current :=
            Monitor.get_num (monitor b) (Some battery) "/Dc/0/Current" in
          match battery_current with
          | Some i =>
              if Py.Qltb (1 # 100) (Qabs i) then returns (set_buffer [] st)
              else
                match Monitor.get_num (monitor b) (Some vebus_path) "/Dc/0/Voltage" with
                | None => returns st
                | Some vebus_voltage =>
                    let '(buf1, evaluate) := window buf vebus_voltage in
                    let st1 := set_buffer buf1 st in
                    if negb evaluate then returns st1
                    else
                      match Py.py_min buf1, Py.py_max buf1,
                            Monitor.get_num (monitor b) (Some battery) "/Dc/0/Voltage" with
                      | Some min_voltage, Some max_voltage, Some battery_voltage =>
                          if out_of_band min_voltage max_voltage battery_voltage
                          then
                            if bool_decide ((vebus_path, "/Mode") ∈ items b)
                            then
                              let st2 :=
                                {| lg_battery := lg_battery st1;
                                   lg_voltage_buffer := lg_voltage_buffer st1;
                                   dbusservice :=
                                     <[alarm_path := Py.PInt 2]> (dbusservice st1) |} in
                              if set_value_raises b
                              then raises Py.DBusException st2
                              else
                                {| state := set_buffer [] st2;
                                   writes := [Bus.SetValue vebus_path "/Mode" (Py.PInt 4)];
                                   ended := Py.Returned |}
                            else returns st1
                          else returns st1
                      | None, _, _ | _, None, _ => raises Py.ValueError st1
                      | _, _, None => raises Py.TypeError st1
                      end
                end
          | None => returns (set_buffer [] st)
          end
      end
  | _, _ => returns st
  end.

(** What can happen to the detector. *)
Inductive event :=
| DeviceAdded (service : string) (mon : Monitor.t)
| DeviceRemoved (service : string)
| Tick (newvalues : gmap string Py.pyval) (b : bus).

Definition step (st : t) (e : event) : t :=
  match e with
  | DeviceAdded service mon => fst (device_added service mon st)
  | DeviceRemoved service => device_removed service st
  | Tick newvalues b => state (update_values newvalues b st)
  end.

Definition run (es : list event) (st : t) : t := foldl step st es.

(** The value published under the alarm path. *)
Definition alarm (st : t) : option Py.pyval := dbusservice st !! alarm_path.

(** The alarm fires in a tick: 2 is published, the inverter on [vebus_path]
    is switched to mode 4 and the window is cleared. *)
Definition alarm_fired (vebus_path : string) (r : result) : Prop :=
  alarm (state r) = Some (Py.PInt 2)
  ∧ writes r = [Bus.SetValue vebus_path "/Mode" (Py.PInt 4)]
  ∧ lg_voltage_buffer (state r) = Some [].

(** What holds between the calls: the window exists exactly while a battery
    is tracked and holds at most 40 samples, and the alarm is 0 or 2 while a
    battery is tracked and [None] otherwise. *)
Definition invariant (st : t) : Prop :=
  match lg_battery st with
  | Some _ =>
      (∃ buf, lg_voltage_buffer st = Some buf ∧ (length buf ≤ 40)%nat)
      ∧ (alarm st = Some (Py.PInt 0) ∨ alarm st = Some (Py.PInt 2))
  | None => lg_voltage_buffer st = None ∧ alarm st = Some Py.PNone
  end.

End LgCircuitBreakerDetect.

(** ** A small installation, for the examples

    One LG battery and one inverter.  The battery reports 50 V; a tick at
    rest reads a current of 0 A, a tick under load 5 A. *)

Module Scenario.

Definition battery : string := "com.victronenergy.battery.ttyO1".
Definition vebus : string := "com.victronenergy.vebus.ttyO2".

(** The monitor when the battery appears. *)
Definition appeared : Monitor.t :=
  {| Monitor.ints := {[ (battery, "/ProductId") := 0xB004 ]}; Monitor.nums := ∅ |}.

(** The snapshot of a tick with the inverter, and of one without. *)
Definition with_inverter : gmap string Py.pyval :=
  {[ "/VebusService" := Py.PStr vebus ]}.
Definition without_inverter : gmap string Py.pyval := ∅.

Definition readings (current inverter_voltage : Q) : Monitor.t :=
  {| Monitor.ints := {[ (battery, "/ProductId") := 0xB004 ]};
     Monitor.nums :=
       {[ (battery, "/Dc/0/Current") := current;
          (battery, "/Dc/0/Voltage") := 50 # 1;
          (vebus, "/Dc/0/Voltage") := inverter_voltage ]} |}.

(** The bus at rest with the inverter at [inverter_voltage]; the inverter
    has a /Mode item when [mode_item] is set. *)
Definition at_rest (inverter_voltage : Q) (mode_item : bool)
  : LgCircuitBreakerDetect.bus :=
  {| LgCircuitBreakerDetect.monitor := readings (0 # 1) inverter_voltage;
     LgCircuitBreakerDetect.items :=
       if mode_item then {[ (vebus, "/Mode") ]} else ∅;
     LgCircuitBreakerDetect.set_value_raises := false |}.

Definition under_load : LgCircuitBreakerDetect.bus :=
  {| LgCircuitBreakerDetect.monitor := readings (5 # 1) (50 # 1);
     LgCircuitBreakerDetect.items := {[ (vebus, "/Mode") ]};
     LgCircuitBreakerDetect.set_value_raises := false |}.

(** The battery appears and [n] ticks at rest follow, the inverter at 50 V. *)
Definition rested (n : nat) : LgCircuitBreakerDetect.t :=
  LgCircuitBreakerDetect.run
    (LgCircuitBreakerDetect.DeviceAdded battery appeared
     :: replicate n (LgCircuitBreakerDetect.Tick with_inverter (at_rest (50 # 1) true)))
    (LgCircuitBreakerDetect.init ∅).

Definition charger : string := "com.victronenergy.solarcharger.ttyO3".

(** A Hub-1 system: the inverter asks for 57 V and is in state 3; the
    charger has a /Link/NetworkMode value and firmware 1.17. *)
Definition hub1_bus (busy : gset string) : Hub1Bridge.bus :=
  {| Hub1Bridge.dbusservice := with_inverter;
     Hub1Bridge.monitor :=
       {| Monitor.ints := {[ (vebus, "/State") := 3;
                             (charger, "/Link/NetworkMode") := 1;
                             (charger, "/FirmwareVersion") := 0x0117 ]};
          Monitor.nums := {[ (vebus, "/Hub1/ChargeVoltage") := 57 # 1 ]} |};
     Hub1Bridge.supervisor :=
       {| ServiceSupervisor.supervised := busy; ServiceSupervisor.busy := busy |};
     Hub1Bridge.set_value_raises := fun _ _ => false |}.

Definition charger2 : string := "com.victronenergy.solarcharger.ttyO4".

(** The same system with a second charger of the same kind; [raises] tells
    which writes fail. *)
Definition hub1_two_chargers (raises : string → string → bool) : Hub1Bridge.bus :=
  {| Hub1Bridge.dbusservice := with_inverter;
     Hub1Bridge.monitor :=
       {| Monitor.ints := {[ (vebus, "/State") := 3;
                             (charger, "/Link/NetworkMode") := 1;
                             (charger, "/FirmwareVersion") := 0x0117;
                             (charger2, "/Link/NetworkMode") := 1;
                             (charger2, "/FirmwareVersion") := 0x0117 ]};
          Monitor.nums := {[ (vebus, "/Hub1/ChargeVoltage") := 57 # 1 ]} |};
     Hub1Bridge.supervisor := ServiceSupervisor.sup ServiceSupervisor.start;
     Hub1Bridge.set_value_raises := raises |}.

(** The bridge after both chargers have appeared. *)
Definition two_chargers_known : Hub1Bridge.t :=
  fst (Hub1Bridge.run
         [Hub1Bridge.DeviceAdded charger (hub1_two_chargers (fun _ _ => false));
          Hub1Bridge.DeviceAdded charger2 (hub1_two_chargers (fun _ _ => false))]
         (Hub1Bridge.init, MainLoop.empty)).

End Scenario.

(** ** Further notions used by the properties of the whole file *)

Module More.

(** The number of dots in a service name. *)
Fixpoint count_dots (s : string) : nat :=
  match s with
  | EmptyString => 0
  | String c rest =>
      if Ascii.eqb c "."%char then S (count_dots rest) else count_dots rest
  end.

(** The service that a write goes to. *)
Definition target (w : Bus.write) : string :=
  match w with Bus.SetValue service _ _ => service end.

(** How often [service] is in the list of chargers. *)
Definition occurrences (service : string) (l : list string) : nat :=
  length (filter (fun x => x = service) l).

End More.

Module SupervisorMore.

(** The service types that the supervisor watches. *)
Definition watched (service : string) : Prop :=
  Py.service_type service = Some "battery"
  ∨ Py.service_type service = Some "solarcharger".

End SupervisorMore.

Module BuzzerMore.
Import BuzzerControl.

(** Only the two tokens are asked for, and the file holds its first
    content, nothing, or a token. *)
Definition tokens_ok (content : string) (st : t) : Prop :=
  Forall (fun tk => tk = "0" ∨ tk = "1") (requested st)
  ∧ file st ∈ [content; EmptyString; "0"; "1"].

(** A buzzer without timer has asked for nothing yet or for silence last. *)
Definition silent_when_stopped (w : t * MainLoop.t) : Prop :=
  timer (fst w) = None → requested (fst w) = [] ∨ last (requested (fst w)) = Some "0".

End BuzzerMore.

Module LgMore.
Import LgCircuitBreakerDetect.

(** The writes of a run of ticks, each given by its snapshot and its bus. *)
Fixpoint all_writes (ticks : list (gmap string Py.pyval * bus)) (st : t)
  : list Bus.write :=
  match ticks with
  | [] => []
  | tick :: rest =>
      let r := update_values (fst tick) (snd tick) st in
      writes r ++ all_writes rest (state r)
  end.

(** The same ticks as events. *)
Definition as_events (ticks : list (gmap string Py.pyval * bus)) : list event :=
  map (fun tick => Tick (fst tick) (snd tick)) ticks.

(** On this tick the battery is at rest and the inverter reads [v]. *)
Definition rest_sample (battery : string) (tick : gmap string Py.pyval * bus)
    (v : Q) : Prop :=
  ∃ vebus_path i,
    snapshot_vebus (fst tick) = Some vebus_path
    ∧ Monitor.get_num (monitor (snd tick)) (Some battery) "/Dc/0/Current" = Some i
    ∧ (Qabs i <= 1 # 100)%Q
    ∧ Monitor.get_num (monitor (snd tick)) (Some vebus_path) "/Dc/0/Voltage" = Some v.

(** [service] is a battery whose product id is that of the LG battery. *)
Definition is_lg (mon : Monitor.t) (service : string) : Prop :=
  Py.service_type service = Some "battery"
  ∧ Monitor.get_int mon (Some service) "/ProductId" = Some 0xB004.

End LgMore.

(** ** RelayState *)

Module RelayState.

(** [s.endswith('/')] *)
Fixpoint ends_with_slash (s : string) : bool :=
  match s with
  | EmptyString => false
  | String c EmptyString => Ascii.eqb c "/"%char
  | String _ rest => ends_with_slash rest
  end.

(** [os.path.join(r, 'value')] *)
Definition join_value (r : string) : string :=
  if bool_decide (r = EmptyString) || ends_with_slash r
  then r +:+ "value" else r +:+ "/value".

(** ['/Relay/{}/State'.format(i)] *)
Definition relay_path (i : nat) : string :=
  "/Relay/" +:+ pretty i +:+ "/State".

(** [_relays]: the file of every relay path. *)
Record t := { relays : gmap string string }.

(** The [for] loop of [set_sources], from the relay with number [i] on. *)
Fixpoint add_relays (dirs : list string) (i : nat) (st : t)
    (dbusservice : gmap string Py.pyval) : t * gmap string Py.pyval :=
  match dirs with
  | [] => (st, dbusservice)
  | r :: rest =>
      add_relays rest (S i)
        {| relays := <[relay_path i := join_value r]> (relays st) |}
        (<[relay_path i := Py.PNone]> dbusservice)
  end.

(** [set_sources]; [dirs] is what [sc_utils.gpio_paths('/etc/venus/relays')]
    answers.  Without relays nothing is set up; otherwise the relay state
    is refreshed once when the main loop is idle and every 5 s from then
    on, by [_update_relay_state]. *)
Definition set_sources (dirs : list string) (dbusservice : gmap string Py.pyval)
  : t * gmap string Py.pyval :=
  add_relays dirs 0 {| relays := ∅ |} dbusservice.

Section files.
(** [int(s.strip())] of Python, [None] for the [ValueError]. *)
Variable py_int : string → option Z.

(** The body of the loop of [_update_relay_state] for one relay: a file that
    cannot be read ([IOError]) or parsed ([ValueError]) is skipped. *)
Definition refresh (files : gmap string string) (dbus_path file_path : string)
    (dbusservice : gmap string Py.pyval) : gmap string Py.pyval :=
  match files !! file_path with
  | Some content =>
      match py_int content with
      | Some state => <[dbus_path := Py.PInt state]> dbusservice
      | None => dbusservice
      end
  | None => dbusservice
  end.

(** [_update_relay_state]; it returns [True]. *)
Definition update_relay_state (files : gmap string string) (st : t)
    (dbusservice : gmap string Py.pyval) : gmap string Py.pyval :=
  map_fold (refresh files) dbusservice (relays st).
End files.

(** How [_on_relay_state_changed] ends. *)
Inductive result :=
| ReturnedTrue
| ReturnedFalse
| RaisedKeyError.

(** [_on_relay_state_changed(dbus_path, value)] *)
Definition on_relay_state_changed (dbus_path : string) (value : Z)
    (o : BuzzerControl.io) (st : t) (files : gmap string string)
  : gmap string string * result :=
  match relays st !! dbus_path with
  | None => (files, RaisedKeyError)
  | Some path =>
      match o with
      | BuzzerControl.IoOk =>
          (<[path := if value =? 1 then "1" else "0"]> files, ReturnedTrue)
      | BuzzerControl.IoOpenFails => (files, ReturnedFalse)
      | BuzzerControl.IoWriteFails => (<[path := EmptyString]> files, ReturnedFalse)
      end
  end.

End RelayState.

(** ** ServiceMapper *)

Module ServiceMapper.

(** [s.replace(old, new)] for strings of one character. *)
Fixpoint replace_char (old new : ascii) (s : string) : string :=
  match s with
  | EmptyString => EmptyString
  | String c rest =>
      String (if Ascii.eqb c old then new else c) (replace_char old new rest)
  end.

(** [c in s] *)
Fixpoint occurs (c : ascii) (s : string) : bool :=
  match s with
  | EmptyString => false
  | String x rest => Ascii.eqb x c || occurs c rest
  end.

Section names.
(** [sc_utils.service_instance_name], which names a service and its device
    instance, is defined outside the files at hand. *)
Variable service_instance_name : string → Z → string.

Definition get_service_mapping_path (service : string) (instance : Z) : string :=
  "/ServiceMapping/"
  +:+ replace_char "/" "_" (replace_char "." "_" (service_instance_name service instance)).

(** [device_added]: the path is set when it exists and added when not. *)
Definition device_added (service : string) (instance : Z)
    (dbusservice : gmap string Py.pyval) : gmap string Py.pyval :=
  let path := get_service_mapping_path service instance in
  if bool_decide (is_Some (dbusservice !! path))
  then <[path := Py.PStr service]> dbusservice
  else <[path := Py.PStr service]> dbusservice.

Definition device_removed (service : string) (instance : Z)
    (dbusservice : gmap string Py.pyval) : gmap string Py.pyval :=
  let path := get_service_mapping_path service instance in
  if bool_decide (is_Some (dbusservice !! path))
  then delete path dbusservice
  else dbusservice.
End names.

End ServiceMapper.

(** ** VebusSocWriter *)

Module VebusSocWriter.

(** What the system service publishes under /VebusService,
    /Dc/Battery/Soc and /ActiveBatteryService; each may be [None]. *)
Record published := {
  vebus_service : option string;
  battery_soc : option Q;
  active_battery_service : option string
}.

(** [_write_vebus_soc]: the value that keeps or drops the timer, and the
    write made.  [writevebussoc] is the setting and [set_value_raises] tells
    whether the write to the inverter raises [DBusException]. *)
Definition write_vebus_soc (writevebussoc : Z) (p : published)
    (set_value_raises : bool) : bool * list Bus.write :=
  if writevebussoc =? 0 then (true, [])
  else
    match vebus_service p with
    | None => (true, [])
    | Some vebus =>
        match battery_soc p with
        | None => (true, [])
        | Some soc =>
            match active_battery_service p with
            | None => (true, [])
            | Some active =>
                if String.prefix "com.victronenergy.vebus" active then (true, [])
                else if set_value_raises then (true, [])
                else (true, [Bus.SetValue vebus "/Soc" (Py.PFloat soc)])
            end
        end
    end.

End VebusSocWriter.

(** * Properties *)

(** ** Python primitives *)

Example split_dot_battery :
  Py.split_dot "com.victronenergy.battery.ttyO1"
  = ["com"; "victronenergy"; "battery"; "ttyO1"].
Proof. reflexivity. Qed.

Example split_dot_empty_pieces :
  Py.split_dot "a..b." = ["a"; EmptyString; "b"; EmptyString].
Proof. reflexivity. Qed.

Example service_type_short : Py.service_type "com.victronenergy" = None.
Proof. reflexivity. Qed.

Example py_min_first : Py.py_min [3#1; 1#2; 7#1]%Q = Some (1#2)%Q.
Proof. reflexivity. Qed.

Example py_max_first : Py.py_max [3#1; 1#2; 7#1; 7#1]%Q = Some (7#1)%Q.
Proof. reflexivity. Qed.

Example last_n_long : Py.last_n 2 [1; 2; 3] = [2; 3].
Proof. reflexivity. Qed.

Example last_n_short : Py.last_n 5 [1; 2; 3] = [1; 2; 3].
Proof. reflexivity. Qed.

Lemma Qltb_lt (x y : Q) : Py.Qltb x y = true ↔ (x < y)%Q.
Proof. unfold Py.Qltb, Qlt. apply Z.ltb_lt. Qed.

Lemma Qltb_ge (x y : Q) : Py.Qltb x y = false ↔ (y <= x)%Q.
Proof. unfold Py.Qltb, Qle. apply Z.ltb_ge. Qed.

Lemma not_none_ne (v : Py.pyval) : Py.not_none v = true ↔ v ≠ Py.PNone.
Proof. destruct v; simpl; split; congruence. Qed.

(** ** HubTypeSelect *)


(** A Hub-4 setpoint wins over Hub-1, DC PV power and PV on the grid. *)
Example hub4_wins :
  published_hub
    {| Monitor.ints := ∅;
       Monitor.nums := {[ (Scenario.vebus, "/Hub4/AcPowerSetpoint") := 0 # 1;
                          (Scenario.vebus, "/Hub1/ChargeVoltage") := 57 # 1 ]} |}
    (<["/Dc/Pv/Power" := Py.PInt 120]>
       (<["/Ac/PvOnGrid/Total/Power" := Py.PInt 300]> Scenario.with_inverter))
  = Some (Py.PInt 4).
Proof. by vm_compute. Qed.

(** Without an inverter, PV on the output goes before PV on the grid. *)
Example pv_on_output_before_grid :
  published_hub Monitor.empty
    (<["/Ac/PvOnOutput/Total/Power" := Py.PInt 200]>
       (<["/Ac/PvOnGrid/Total/Power" := Py.PInt 300]> Scenario.without_inverter))
  = Some (Py.PInt 2).
Proof. by vm_compute. Qed.

Example no_hub : published_hub Monitor.empty Scenario.with_inverter = Some Py.PNone.
Proof. by vm_compute. Qed.

(** C3: for every snapshot the classifier publishes one value under /Hub,
    which is 4, 1, 2, 3 or None, chosen by the first rule that matches in
    the order Hub-4 setpoint, Hub-1 charge voltage or DC PV power, PV on
    output, PV on grid or genset; a rule is only reached when all rules
    before it fail, and no other entry of the snapshot changes. *)
Theorem hub_classifier_first_match (mon : Monitor.t) (newvalues : gmap string Py.pyval) :
  let A := hub4_setpoint mon newvalues in
  let B := hub1_or_dc_pv mon newvalues in
  let C := pv_on_output newvalues in
  let D := pv_on_grid_or_genset newvalues in
  let hub := published_hub mon newvalues in
  (A → hub = Some (Py.PInt 4))
  ∧ (¬ A → B → hub = Some (Py.PInt 1))
  ∧ (¬ A → ¬ B → C → hub = Some (Py.PInt 2))
  ∧ (¬ A → ¬ B → ¬ C → D → hub = Some (Py.PInt 3))
  ∧ (¬ A → ¬ B → ¬ C → ¬ D → hub = Some Py.PNone)
  ∧ (∃ v, hub = Some v
          ∧ v ∈ [Py.PNone; Py.PInt 1; Py.PInt 2; Py.PInt 3; Py.PInt 4])
  ∧ (∀ k, k ≠ "/Hub" →
       HubTypeSelect.update_values mon newvalues !! k = newvalues !! k).
Proof.
  cbv zeta.
  unfold published_hub, hub4_setpoint, hub1_or_dc_pv, pv_on_output,
    pv_on_grid_or_genset, HubTypeSelect.update_values.
  rewrite lookup_insert_eq.
  repeat match goal with
         | |- context [bool_decide ?P] => destruct (bool_decide_reflect P)
         | |- context [Py.not_none ?v] =>
             let E := fresh "E" in
             destruct (Py.not_none v) eqn:E;
             [apply not_none_ne in E
             | assert (v = Py.PNone) by (destruct v; simpl in E; congruence)]
         end; simpl.
  all: repeat split; intros;
    try match goal with
        | |- ∃ _, _ => eexists; split; [reflexivity | set_solver]
        | |- <[_ := _]> _ !! _ = _ => rewrite lookup_insert_ne; [done | auto]
        end;
    try done; try tauto; try naive_solver.
Qed.

(** ** ServiceSupervisor: the failure handler *)

Example no_reply_kills :
  snd (ServiceSupervisor.supervise_failed Scenario.battery ServiceSupervisor.NoReply
         (ServiceSupervisor.LookupReturns (Some 812)) false
         (ServiceSupervisor.sup ServiceSupervisor.start))
  = [ServiceSupervisor.LogNotResponding Scenario.battery;
     ServiceSupervisor.GetProcessID Scenario.battery;
     ServiceSupervisor.LogKilling Scenario.battery 812;
     ServiceSupervisor.Kill 812].
Proof. reflexivity. Qed.

Example no_reply_of_init_spares :
  snd (ServiceSupervisor.supervise_failed Scenario.battery ServiceSupervisor.NoReply
         (ServiceSupervisor.LookupReturns (Some 1)) false
         (ServiceSupervisor.sup ServiceSupervisor.start))
  = [ServiceSupervisor.LogNotResponding Scenario.battery;
     ServiceSupervisor.GetProcessID Scenario.battery].
Proof. reflexivity. Qed.

Example other_error_ignored :
  snd (ServiceSupervisor.supervise_failed Scenario.battery
         "org.freedesktop.DBus.Error.ServiceUnknown"
         (ServiceSupervisor.LookupReturns (Some 812)) false
         (ServiceSupervisor.sup ServiceSupervisor.start))
  = [ServiceSupervisor.LogIgnoring Scenario.battery].
Proof. reflexivity. Qed.

(** C2: the failure handler calls [os.kill] on a process id exactly when
    the error is a no-reply timeout, the bus answered the process id
    request and that id is greater than 1; for every other error name the
    handler only logs that it ignores the error; a no-reply failure whose
    process id is at most 1 kills nothing. *)
Theorem supervise_failed_kills_only_on_no_reply
    (service dbus_name : string) (lookup : ServiceSupervisor.pid_lookup)
    (kill_raises : bool) (st : ServiceSupervisor.t) :
  let actions :=
    snd (ServiceSupervisor.supervise_failed service dbus_name lookup kill_raises st) in
  (∀ pid, ServiceSupervisor.Kill pid ∈ actions ↔
          dbus_name = ServiceSupervisor.NoReply
          ∧ lookup = ServiceSupervisor.LookupReturns (Some pid)
          ∧ 1 < pid)
  ∧ (dbus_name ≠ ServiceSupervisor.NoReply →
     actions = [ServiceSupervisor.LogIgnoring service])
  ∧ (∀ pid, lookup = ServiceSupervisor.LookupReturns (Some pid) → pid ≤ 1 →
            ∀ p, ServiceSupervisor.Kill p ∉ actions).
Proof.
  cbv zeta. unfold ServiceSupervisor.supervise_failed.
  destruct (bool_decide_reflect (dbus_name = ServiceSupervisor.NoReply)) as [Hn|Hn];
    simpl.
  - destruct lookup as [|[pid0|]]; simpl.
    + repeat split; try done; intros; set_solver.
    + destruct (Z.ltb_spec 1 pid0) as [Hp|Hp].
      * split; [|split]; [| done | intros pid [= ->]; lia].
        intros pid. split.
        -- intros Hin. assert (pid = pid0) as ->.
           { destruct kill_raises; set_solver. }
           done.
        -- intros (_ & [= ->] & _). set_solver.
      * split; [|split]; [| done | intros; set_solver].
        intros pid. split; [set_solver|]. intros (_ & [= ->] & ?). lia.
    + repeat split; try done; intros; set_solver.
  - split; [|split]; [| done | intros; set_solver].
    intros pid. split; [set_solver | tauto].
Qed.

(** ** ServiceSupervisor: the busy set *)

Section supervisor.
Import ServiceSupervisor.

Lemma process_loop_spec (services : list string) (st : t) :
  supervised (fst (process_loop services st)) = supervised st
  ∧ busy (fst (process_loop services st)) = list_to_set services ∪ busy st
  ∧ snd (process_loop services st) = probe_effects services.
Proof.
  revert st. induction services as [|s rest IH]; intros st; simpl.
  - split; [done|]. split; [set_solver | done].
  - specialize (IH {| supervised := supervised st; busy := {[s]} ∪ busy st |}).
    destruct (process_loop rest _) as [st2 e2]; simpl in *.
    destruct IH as (-> & -> & ->). split; [done|]. split; [set_solver | done].
Qed.

Lemma process_supervised_spec (st : t) :
  supervised (fst (process_supervised st)) = supervised st
  ∧ busy (fst (process_supervised st)) = supervised st ∪ busy st
  ∧ snd (process_supervised st) = probe_effects (elements (supervised st)).
Proof.
  unfold process_supervised.
  destruct (process_loop_spec (elements (supervised st)) st) as (H1 & H2 & H3).
  split; [done|]. split; [|done].
  rewrite H2. f_equal. apply set_eq. intros x.
  rewrite elem_of_list_to_set. apply elem_of_elements.
Qed.

Lemma calls_probe_effects (services : list string) :
  calls (probe_effects services) = services.
Proof. induction services as [|s rest IH]; simpl; [done | by f_equal]. Qed.

Lemma replay_mono (es : list effect) (b : gset string) (s : string) :
  s ∈ b → s ∈ replay es b.
Proof.
  revert b. induction es as [|e es IH]; intros b Hs; simpl; [done|].
  apply IH. destruct e; set_solver.
Qed.

(** Whenever a pass calls [s], it has put [s] into the busy set before. *)
Lemma busy_before_call (services : list string) (pre post : list effect)
    (s : string) (b : gset string) :
  probe_effects services = pre ++ CallAsync s :: post → s ∈ replay pre b.
Proof.
  revert pre b. induction services as [|x rest IH]; intros pre b; simpl.
  - destruct pre; discriminate.
  - destruct pre as [|e1 [|e2 pre]]; simpl; intros [= ? ?]; subst.
    + set_solver.
    + eapply IH. eassumption.
Qed.

Lemma replay_all (services : list string) (b : gset string) :
  replay (probe_effects services) b = list_to_set services ∪ b.
Proof.
  revert b. induction services as [|x rest IH]; intros b; simpl.
  - set_solver.
  - rewrite IH. set_solver.
Qed.

Lemma device_added_supervised (service : string) (st : t) :
  supervised st ⊆ supervised (fst (device_added service st))
  ∧ supervised (fst (device_added service st)) ⊆ {[service]} ∪ supervised st
  ∧ busy (fst (device_added service st)) = busy st.
Proof.
  unfold device_added. destruct (Py.service_type service); simpl.
  - destruct (_ || _); simpl; set_solver.
  - set_solver.
Qed.

Lemma supervise_failed_state (service dbus_name : string) (lookup : pid_lookup)
    (kill_raises : bool) (st : t) :
  fst (supervise_failed service dbus_name lookup kill_raises st)
  = supervise_success service st.
Proof. unfold supervise_failed. by destruct (negb _). Qed.

Lemma step_busy_supervised (w : sys) (e : event) :
  busy_supervised w → busy_supervised (step w e).
Proof.
  unfold busy_supervised. intros Hw. destruct e as [s|s| |s|s n lk kr]; simpl.
  - destruct (device_added_supervised s (sup w)) as (H1 & _ & ->). set_solver.
  - set_solver.
  - destruct (process_supervised_spec (sup w)) as (H1 & H2 & _).
    destruct (process_supervised (sup w)) as [st es]; simpl in *.
    rewrite H1, H2. set_solver.
  - set_solver.
  - rewrite supervise_failed_state; simpl. set_solver.
Qed.

Lemma run_busy_supervised (es : list event) (w : sys) :
  busy_supervised w → busy_supervised (run es w).
Proof.
  revert w. induction es as [|e es IH]; intros w Hw; simpl; [done|].
  apply IH. by apply step_busy_supervised.
Qed.

(** A service that is not supervised stays so until it is added. *)
Lemma run_not_supervised (es : list event) (w : sys) (s : string) :
  Forall (fun e => e ≠ DeviceAdded s) es →
  s ∉ supervised (sup w) → s ∉ supervised (sup (run es w)).
Proof.
  revert w. induction es as [|e es IH]; intros w Hes Hs; simpl; [done|].
  inversion Hes as [|? ? He Hes']; subst.
  apply IH; [done|]. clear IH Hes Hes'.
  destruct e as [x|x| |x|x n lk kr]; simpl.
  - destruct (device_added_supervised x (sup w)) as (_ & H2 & _).
    assert (x ≠ s) by congruence. set_solver.
  - set_solver.
  - destruct (process_supervised_spec (sup w)) as (H1 & _).
    destruct (process_supervised (sup w)) as [st es']; simpl in *.
    by rewrite H1.
  - done.
  - by rewrite supervise_failed_state.
Qed.

(** A busy service stays busy until it is removed or a reply for it comes. *)
Lemma run_stays_busy (es : list event) (w : sys) (s : string) :
  Forall (fun e => completes s e = false ∧ removes s e = false) es →
  s ∈ busy (sup w) → s ∈ busy (sup (run es w)).
Proof.
  revert w. induction es as [|e es IH]; intros w Hes Hs; simpl; [done|].
  inversion Hes as [|? ? [Hc Hr] Hes']; subst.
  apply IH; [done|]. clear IH Hes Hes'.
  destruct e as [x|x| |x|x n lk kr]; simpl in *.
  - by destruct (device_added_supervised x (sup w)) as (_ & _ & ->).
  - case_bool_decide; [done|]. set_solver.
  - destruct (process_supervised_spec (sup w)) as (_ & H2 & _).
    destruct (process_supervised (sup w)) as [st es']; simpl in *.
    rewrite H2. set_solver.
  - case_bool_decide; [done|]. set_solver.
  - rewrite supervise_failed_state; simpl.
    case_bool_decide; [done|]. set_solver.
Qed.

Lemma list_remove_other (x y : string) (l : list string) :
  x ≠ y → y ∈ l → y ∈ Py.list_remove x l.
Proof.
  intros Hne. induction l as [|z l IH]; simpl; [done|].
  case_bool_decide; subst; rewrite !elem_of_cons; naive_solver.
Qed.

(** An unanswered request stays so until a reply for it comes. *)
Lemma run_stays_pending (es : list event) (w : sys) (s : string) :
  Forall (fun e => completes s e = false ∧ removes s e = false) es →
  s ∈ pending w → s ∈ pending (run es w).
Proof.
  revert w. induction es as [|e es IH]; intros w Hes Hs; simpl; [done|].
  inversion Hes as [|? ? [Hc Hr] Hes']; subst.
  apply IH; [done|]. clear IH Hes Hes'.
  destruct e as [x|x| |x|x n lk kr]; simpl in *; try done.
  - destruct (process_supervised (sup w)) as [st es']; simpl.
    apply elem_of_app. by left.
  - case_bool_decide; [done|]. by apply list_remove_other.
  - case_bool_decide; [done|]. by apply list_remove_other.
Qed.
End supervisor.

(** C9: the busy set is a subset of the supervised set in every state the
    supervisor can reach; [device_added] only grows the supervised set and
    leaves the busy set alone, [device_removed] takes the service out of
    both sets, a pass adds to the busy set exactly the supervised services,
    and the completion callbacks only take their service out of the busy
    set; so, from [device_removed(s)] until [s] is added again,
    [is_busy(s)] is false. *)
Theorem busy_subset_of_supervised :
  (∀ es, ServiceSupervisor.busy_supervised (ServiceSupervisor.run es ServiceSupervisor.start))
  ∧ (∀ service st,
       ServiceSupervisor.supervised st
         ⊆ ServiceSupervisor.supervised (fst (ServiceSupervisor.device_added service st))
       ∧ ServiceSupervisor.busy (fst (ServiceSupervisor.device_added service st))
         = ServiceSupervisor.busy st)
  ∧ (∀ service st,
       (service ∉ ServiceSupervisor.supervised (ServiceSupervisor.device_removed service st))
       ∧ (service ∉ ServiceSupervisor.busy (ServiceSupervisor.device_removed service st))
       ∧ ServiceSupervisor.supervised (ServiceSupervisor.device_removed service st)
         ⊆ ServiceSupervisor.supervised st
       ∧ ServiceSupervisor.busy (ServiceSupervisor.device_removed service st)
         ⊆ ServiceSupervisor.busy st)
  ∧ (∀ st,
       ServiceSupervisor.supervised (fst (ServiceSupervisor.process_supervised st))
         = ServiceSupervisor.supervised st
       ∧ ServiceSupervisor.busy (fst (ServiceSupervisor.process_supervised st))
         = ServiceSupervisor.supervised st ∪ ServiceSupervisor.busy st)
  ∧ (∀ service st,
       ServiceSupervisor.supervised (ServiceSupervisor.supervise_success service st)
         = ServiceSupervisor.supervised st
       ∧ ServiceSupervisor.busy (ServiceSupervisor.supervise_success service st)
         ⊆ ServiceSupervisor.busy st)
  ∧ (∀ service dbus_name lookup kill_raises st,
       let st' := fst (ServiceSupervisor.supervise_failed
                         service dbus_name lookup kill_raises st) in
       ServiceSupervisor.supervised st' = ServiceSupervisor.supervised st
       ∧ ServiceSupervisor.busy st' ⊆ ServiceSupervisor.busy st)
  ∧ (∀ es s es',
       Forall (fun e => e ≠ ServiceSupervisor.DeviceAdded s) es' →
       ServiceSupervisor.is_busy
         (ServiceSupervisor.sup
            (ServiceSupervisor.run (es ++ ServiceSupervisor.DeviceRemoved s :: es')
               ServiceSupervisor.start)) s = false).
Proof.
  split; [|split; [|split; [|split; [|split; [|split]]]]].
  - intros es. apply run_busy_supervised.
    unfold ServiceSupervisor.busy_supervised. simpl. set_solver.
  - intros service st.
    destruct (device_added_supervised service st) as (H1 & _ & H3). done.
  - intros service st. simpl. set_solver.
  - intros st. destruct (process_supervised_spec st) as (H1 & H2 & _). done.
  - intros service st. simpl. set_solver.
  - intros service dbus_name lookup kill_raises st. cbv zeta.
    rewrite supervise_failed_state. simpl. set_solver.
  - intros es s es' Hes'. unfold ServiceSupervisor.run.
    rewrite foldl_app. simpl.
    set (w := foldl ServiceSupervisor.step ServiceSupervisor.start es).
    set (w1 := {| ServiceSupervisor.sup := _; ServiceSupervisor.pending := _ |}).
    assert (s ∉ ServiceSupervisor.supervised (ServiceSupervisor.sup w1)) as Hs
      by (simpl; set_solver).
    pose proof (run_not_supervised es' w1 s Hes' Hs) as Hnot.
    assert (ServiceSupervisor.busy_supervised (ServiceSupervisor.run es' w1)) as Hinv.
    { apply run_busy_supervised.
      apply (step_busy_supervised w (ServiceSupervisor.DeviceRemoved s)).
      apply run_busy_supervised.
      unfold ServiceSupervisor.busy_supervised. simpl. set_solver. }
    unfold ServiceSupervisor.is_busy. apply bool_decide_eq_false.
    unfold ServiceSupervisor.busy_supervised, ServiceSupervisor.run in *.
    set_solver.
Qed.

(** C4, as the code has it: when a pass probes a supervised service [s] it
    puts [s] into the busy set before it makes the asynchronous call;
    [is_busy(s)] is then true, and stays true through every later event
    that is neither a completion callback for [s] nor [device_removed(s)],
    while the request is unanswered; a completion callback for [s], and
    [device_removed(s)], each take [s] out of the busy set. *)
Theorem busy_from_probe_until_reply_or_removal
    (w : ServiceSupervisor.sys) (s : string) :
  s ∈ ServiceSupervisor.supervised (ServiceSupervisor.sup w) →
  let effects :=
    snd (ServiceSupervisor.process_supervised (ServiceSupervisor.sup w)) in
  let w1 := ServiceSupervisor.step w ServiceSupervisor.TimerFired in
  ServiceSupervisor.CallAsync s ∈ effects
  ∧ (∀ pre post, effects = pre ++ ServiceSupervisor.CallAsync s :: post →
       s ∈ ServiceSupervisor.replay pre
             (ServiceSupervisor.busy (ServiceSupervisor.sup w)))
  ∧ (∀ es,
       Forall (fun e => ServiceSupervisor.completes s e = false
                        ∧ ServiceSupervisor.removes s e = false) es →
       ServiceSupervisor.is_busy
         (ServiceSupervisor.sup (ServiceSupervisor.run es w1)) s = true
       ∧ s ∈ ServiceSupervisor.pending (ServiceSupervisor.run es w1))
  ∧ (∀ w2 e,
       ServiceSupervisor.completes s e = true
       ∨ ServiceSupervisor.removes s e = true →
       ServiceSupervisor.is_busy
         (ServiceSupervisor.sup (ServiceSupervisor.step w2 e)) s = false).
Proof.
  intros Hs. cbv zeta.
  destruct (process_supervised_spec (ServiceSupervisor.sup w)) as (H1 & H2 & H3).
  assert (ServiceSupervisor.CallAsync s
          ∈ ServiceSupervisor.probe_effects
              (elements (ServiceSupervisor.supervised (ServiceSupervisor.sup w))))
    as Hcall.
  { apply elem_of_elements in Hs. revert Hs.
    generalize (elements (ServiceSupervisor.supervised (ServiceSupervisor.sup w))).
    intros l. induction l as [|x l IH]; simpl; intros Hin; [set_solver|].
    apply elem_of_cons in Hin as [->|Hin].
    - set_solver.
    - do 2 right. auto. }
  split; [by rewrite H3|]. split.
  - intros pre post E. rewrite H3 in E. by eapply busy_before_call.
  - split.
    + intros es Hes. simpl.
      destruct (ServiceSupervisor.process_supervised (ServiceSupervisor.sup w))
        as [st effs] eqn:E; simpl in *.
      split.
      * unfold ServiceSupervisor.is_busy. apply bool_decide_eq_true.
        apply run_stays_busy; [done|]. simpl. rewrite H2. set_solver.
      * apply run_stays_pending; [done|]. simpl.
        apply elem_of_app. right. rewrite H3, calls_probe_effects.
        by apply elem_of_elements.
    + intros w2 e He. unfold ServiceSupervisor.is_busy.
      apply bool_decide_eq_false.
      destruct e as [x|x| |x|x n lk kr]; simpl in *;
        destruct He as [He|He]; try discriminate;
        apply bool_decide_eq_true in He; subst;
        rewrite ?supervise_failed_state; simpl; set_solver.
Qed.

(** The theorem at work: a battery appears, a pass probes it, and it is busy. *)
Lemma busy_from_probe_until_reply_or_removal_witness :
  Scenario.battery ∈ ServiceSupervisor.supervised
    (ServiceSupervisor.sup
       (ServiceSupervisor.step ServiceSupervisor.start
          (ServiceSupervisor.DeviceAdded Scenario.battery)))
  ∧ ServiceSupervisor.is_busy
      (ServiceSupervisor.sup
         (ServiceSupervisor.run []
            (ServiceSupervisor.step
               (ServiceSupervisor.step ServiceSupervisor.start
                  (ServiceSupervisor.DeviceAdded Scenario.battery))
               ServiceSupervisor.TimerFired))) Scenario.battery = true.
Proof.
  assert (Scenario.battery ∈ ServiceSupervisor.supervised
            (ServiceSupervisor.sup
               (ServiceSupervisor.step ServiceSupervisor.start
                  (ServiceSupervisor.DeviceAdded Scenario.battery)))) as Hs.
  { apply (bool_decide_unpack _). vm_compute. exact I. }
  split; [exact Hs|].
  apply (busy_from_probe_until_reply_or_removal _ _ Hs). constructor.
Defined.

(** C4 as it is worded fails.  A battery is probed and disappears before
    the reply: its request is unanswered, yet [is_busy] is false; it stays
    false when the battery appears again and is supervised anew.  And when
    two passes probe a battery before any reply, the first reply clears the
    busy mark although the second request is still unanswered. *)
Lemma busy_cleared_with_probe_in_flight :
  let s := Scenario.battery in
  let removed :=
    ServiceSupervisor.run
      [ServiceSupervisor.DeviceAdded s; ServiceSupervisor.TimerFired;
       ServiceSupervisor.DeviceRemoved s] ServiceSupervisor.start in
  let back := ServiceSupervisor.step removed (ServiceSupervisor.DeviceAdded s) in
  let twice :=
    ServiceSupervisor.run
      [ServiceSupervisor.DeviceAdded s; ServiceSupervisor.TimerFired;
       ServiceSupervisor.TimerFired; ServiceSupervisor.Success s]
      ServiceSupervisor.start in
  (s ∈ ServiceSupervisor.pending removed
   ∧ ServiceSupervisor.is_busy (ServiceSupervisor.sup removed) s = false)
  ∧ (s ∈ ServiceSupervisor.supervised (ServiceSupervisor.sup back)
     ∧ s ∈ ServiceSupervisor.pending back
     ∧ ServiceSupervisor.is_busy (ServiceSupervisor.sup back) s = false)
  ∧ (s ∈ ServiceSupervisor.supervised (ServiceSupervisor.sup twice)
     ∧ s ∈ ServiceSupervisor.pending twice
     ∧ ServiceSupervisor.is_busy (ServiceSupervisor.sup twice) s = false).
Proof.
  cbv zeta.
  repeat split; first [by vm_compute | apply (bool_decide_unpack _); by vm_compute].
Qed.

(** ** The main loop *)

Section main_loop.
Import MainLoop.

Lemma wf_empty : wf empty.
Proof. intros id [x Hx]. simpl in Hx. by rewrite lookup_empty in Hx. Qed.

Lemma active_empty (cb : callback) : active cb empty = ∅.
Proof. unfold active. simpl. by rewrite map_filter_empty, dom_empty_L. Qed.

Lemma wf_timeout_add (interval : Z) (cb : callback) (l : t) :
  wf l → wf (snd (timeout_add interval cb l)).
Proof.
  intros Hl id. simpl. destruct (decide (next_id l = id)) as [<-|Hne].
  - lia.
  - rewrite lookup_insert_ne by done. intros H. apply Hl in H. lia.
Qed.

Lemma wf_source_remove (id : nat) (l : t) : wf l → wf (source_remove id l).
Proof.
  intros Hl i. simpl. destruct (decide (id = i)) as [<-|Hne].
  - rewrite lookup_delete_eq. by intros [? ?].
  - rewrite lookup_delete_ne by done. apply Hl.
Qed.

Lemma active_timeout_add (interval : Z) (cb : callback) (l : t) :
  active cb (snd (timeout_add interval cb l)) = {[next_id l]} ∪ active cb l.
Proof.
  unfold active. simpl.
  rewrite map_filter_insert_True by done. apply dom_insert_L.
Qed.

Lemma active_source_remove (cb : callback) (id : nat) (l : t) :
  active cb (source_remove id l) = active cb l ∖ {[id]}.
Proof. unfold active. simpl. rewrite map_filter_delete. apply dom_delete_L. Qed.

Lemma active_lookup (cb : callback) (id : nat) (l : t) :
  id ∈ active cb l ↔ ∃ interval, sources l !! id = Some (interval, cb).
Proof.
  unfold active. rewrite elem_of_dom. split.
  - intros [[i c] H]. apply map_lookup_filter_Some in H as [H Hc].
    simpl in Hc. subst. eauto.
  - intros [i H]. exists (i, cb). by apply map_lookup_filter_Some.
Qed.
End main_loop.

(** ** Hub1Bridge: the timer *)

Section hub1_bridge.
Import Hub1Bridge.

Lemma list_remove_length (x : string) (l : list string) :
  x ∈ l → length l = S (length (Py.list_remove x l)).
Proof.
  induction l as [|y l IH]; simpl; [by intros ?%elem_of_nil|].
  case_bool_decide; [done|]. intros [?|Hin]%elem_of_cons; [congruence|].
  simpl. by rewrite <- IH.
Qed.

Lemma device_added_invariant (service : string) (b : bus) (w : t * MainLoop.t) :
  timer_invariant w →
  timer_invariant (step w (DeviceAdded service b)).
Proof.
  destruct w as [st l]. unfold timer_invariant, MainLoop.owns. simpl.
  intros (Hwf & Hown & Hsrc & Hiff). unfold device_added.
  destruct (Py.service_type service) as [ty|]; simpl; [|done].
  destruct (negb _); simpl; [done|].
  destruct (timer st) as [id|] eqn:Ht; simpl.
  - split; [done|]. split; [done|]. split; [done|]. split; [|eauto].
    intros _. by destruct (solarchargers st).
  - split; [by apply wf_timeout_add|]. split; [|split].
    + pose proof (active_timeout_add 10000 MainLoop.Hub1OnTimer l) as Ha.
      simpl in Ha. rewrite Ha, Hown. set_solver.
    + intros id [= <-]. apply lookup_insert_eq.
    + split; [|eauto]. intros _. by destruct (solarchargers st).
Qed.

Lemma device_removed_invariant (service : string) (w : t * MainLoop.t) :
  timer_invariant w →
  timer_invariant (step w (DeviceRemoved service)).
Proof.
  destruct w as [st l]. unfold timer_invariant, MainLoop.owns. simpl.
  intros (Hwf & Hown & Hsrc & Hiff). unfold device_removed.
  case_bool_decide as Hin; [|done].
  destruct (timer st) as [id|] eqn:Ht.
  - destruct (length (Py.list_remove service (solarchargers st)) =? 0)%nat eqn:El;
      simpl.
    + split; [by apply wf_source_remove|]. split; [|split].
      * rewrite active_source_remove, Hown. set_solver.
      * done.
      * apply Nat.eqb_eq in El. apply nil_length_inv in El. rewrite El.
        split; [by intros [? ?] | done].
    + split; [done|]. split; [done|]. split; [done|]. split; [|eauto].
      intros _ E. rewrite E in El. discriminate.
  - assert (solarchargers st = []) as E.
    { destruct (solarchargers st); [done|].
      destruct Hiff as [_ Hiff]. by destruct Hiff. }
    rewrite E in Hin. by apply elem_of_nil in Hin.
Qed.

Lemma run_timer_invariant (es : list event) (w : t * MainLoop.t) :
  timer_invariant w → timer_invariant (run es w).
Proof.
  revert w. induction es as [|e es IH]; intros w Hw; simpl; [done|].
  apply IH. destruct e.
  - by apply device_added_invariant.
  - by apply device_removed_invariant.
  - done.
Qed.
End hub1_bridge.

(** A charger that appears in a Hub-1 system is written to at once. *)
Example charger_synchronised_when_added :
  Hub1Bridge.writes
    (Hub1Bridge.device_added Scenario.charger (Scenario.hub1_bus ∅)
       Hub1Bridge.init MainLoop.empty)
  = [Bus.SetValue Scenario.charger "/Link/NetworkMode" (Py.PInt 5);
     Bus.SetValue Scenario.charger "/Link/ChargeVoltage" (Py.PFloat (57 # 1));
     Bus.SetValue Scenario.charger "/State" (Py.PInt 3)].
Proof. by vm_compute. Qed.

(** A charger that the supervisor is probing is skipped. *)
Example busy_charger_skipped :
  Hub1Bridge.writes
    (Hub1Bridge.device_added Scenario.charger
       (Scenario.hub1_bus {[ Scenario.charger ]}) Hub1Bridge.init MainLoop.empty)
  = [].
Proof. by vm_compute. Qed.

Lemma list_remove_nil_iff (x : string) (l : list string) :
  x ∈ l ∧ Py.list_remove x l = [] ↔ l = [x].
Proof.
  split.
  - intros [Hin E]. destruct l as [|y l]; [by apply elem_of_nil in Hin|].
    simpl in E. case_bool_decide; [by subst | discriminate].
  - intros ->. simpl. rewrite bool_decide_eq_true_2 by done. set_solver.
Qed.

(** C7: in every state that the bridge reaches, its 10 s timer is in the
    main loop exactly when a solar charger is known, and it is then the
    only source that runs [_on_timer]; adding the first charger creates
    the timer, and [device_removed] cancels it exactly when it removes the
    last known charger. *)
Theorem hub1_timer_iff_charger_known (l0 : MainLoop.t) (es : list Hub1Bridge.event) :
  MainLoop.wf l0 →
  MainLoop.active MainLoop.Hub1OnTimer l0 = ∅ →
  let w := Hub1Bridge.run es (Hub1Bridge.init, l0) in
  let chargers := Hub1Bridge.solarchargers (fst w) in
  let timers := MainLoop.active MainLoop.Hub1OnTimer (snd w) in
  ((∃ id, Hub1Bridge.timer (fst w) = Some id
          ∧ MainLoop.sources (snd w) !! id = Some (10000, MainLoop.Hub1OnTimer)
          ∧ timers = {[id]})
   ↔ chargers ≠ [])
  ∧ (Hub1Bridge.timer (fst w) = None ∧ timers = ∅ ↔ chargers = [])
  ∧ (∀ service b,
       chargers = [] → Py.service_type service = Some "solarcharger" →
       let w1 := Hub1Bridge.step w (Hub1Bridge.DeviceAdded service b) in
       Hub1Bridge.solarchargers (fst w1) = [service]
       ∧ Hub1Bridge.timer (fst w1) = Some (MainLoop.next_id (snd w))
       ∧ MainLoop.active MainLoop.Hub1OnTimer (snd w1)
         = {[MainLoop.next_id (snd w)]})
  ∧ (∀ service,
       let w1 := Hub1Bridge.step w (Hub1Bridge.DeviceRemoved service) in
       (is_Some (Hub1Bridge.timer (fst w)) ∧ Hub1Bridge.timer (fst w1) = None
        ↔ chargers = [service])
       ∧ (chargers ≠ [service] → snd w1 = snd w)).
Proof.
  intros Hwf Hact. cbv zeta.
  assert (Hub1Bridge.timer_invariant (Hub1Bridge.run es (Hub1Bridge.init, l0)))
    as Hinv.
  { apply run_timer_invariant. unfold Hub1Bridge.timer_invariant; simpl.
    split; [done|]. split; [done|]. split; [done|].
    split; [by intros [? ?] | done]. }
  pose proof (device_added_invariant) as Hadd.
  pose proof (device_removed_invariant) as Hrem.
  destruct (Hub1Bridge.run es (Hub1Bridge.init, l0)) as [st l].
  destruct Hinv as (Hwf' & Hown & Hsrc & Hiff). simpl in *.
  unfold MainLoop.owns in Hown.
  split; [|split; [|split]].
  - split.
    + intros (id & Ht & _). apply Hiff. eauto.
    + intros Hne. apply Hiff in Hne as [id Ht]. exists id.
      rewrite Ht in Hown. auto.
  - split.
    + intros [Ht _]. destruct (Hub1Bridge.solarchargers st); [done|].
      destruct Hiff as [_ Hiff]. destruct Hiff as [? ?]; [done | congruence].
    + intros E. destruct (Hub1Bridge.timer st) as [id|] eqn:Ht.
      * destruct Hiff as [Hiff _]. by destruct Hiff.
      * done.
  - intros service b E Hty.
    assert (Hub1Bridge.timer st = None) as Ht.
    { destruct (Hub1Bridge.timer st); [|done].
      destruct Hiff as [Hiff _]. by destruct Hiff. }
    unfold Hub1Bridge.device_added. rewrite Hty, Ht, E. simpl.
    split; [done|]. split; [done|].
    rewrite Ht in Hown.
    pose proof (active_timeout_add 10000 MainLoop.Hub1OnTimer l) as Ha.
    simpl in Ha. rewrite Ha, Hown. set_solver.
  - intros service. unfold Hub1Bridge.device_removed.
    rewrite <- (list_remove_nil_iff service (Hub1Bridge.solarchargers st)).
    case_bool_decide as Hin.
    + destruct (Hub1Bridge.timer st) as [id|] eqn:Ht.
      * destruct (length (Py.list_remove service (Hub1Bridge.solarchargers st)) =? 0)%nat
          eqn:El; simpl.
        -- apply Nat.eqb_eq in El. apply nil_length_inv in El.
           split; [|tauto]. split; [done|]. eauto.
        -- split; [|done]. split; [by intros [_ ?]|].
           intros [_ E]. rewrite E in El. discriminate.
      * simpl. destruct (_ =? _)%nat; simpl; (split; [|done]);
          (split; [by intros [[? ?] _]|]); intros [_ E];
          destruct Hiff as [_ Hiff]; destruct Hiff as [? ?]; try done;
          intros E'; rewrite E' in Hin; by apply elem_of_nil in Hin.
    + simpl. split; [|done]. split; [|tauto].
      intros [[id Hid] Hn]. congruence.
Qed.

(** The theorem at work on an empty main loop: a charger appears and goes,
    and no timer is left. *)
Lemma hub1_timer_iff_charger_known_witness :
  MainLoop.wf MainLoop.empty
  ∧ MainLoop.active MainLoop.Hub1OnTimer MainLoop.empty = ∅
  ∧ (Hub1Bridge.timer
       (fst (Hub1Bridge.run
               [Hub1Bridge.DeviceAdded "com.victronenergy.solarcharger.ttyO2"
                  Hub1Bridge.quiet_bus;
                Hub1Bridge.DeviceRemoved "com.victronenergy.solarcharger.ttyO2"]
               (Hub1Bridge.init, MainLoop.empty))) = None
     ∧ MainLoop.active MainLoop.Hub1OnTimer
         (snd (Hub1Bridge.run
                 [Hub1Bridge.DeviceAdded "com.victronenergy.solarcharger.ttyO2"
                    Hub1Bridge.quiet_bus;
                  Hub1Bridge.DeviceRemoved "com.victronenergy.solarcharger.ttyO2"]
                 (Hub1Bridge.init, MainLoop.empty))) = ∅).
Proof.
  split; [apply wf_empty|]. split; [apply active_empty|].
  apply (hub1_timer_iff_charger_known MainLoop.empty _ wf_empty
           (active_empty MainLoop.Hub1OnTimer)).
  reflexivity.
Defined.

(** ** BuzzerControl *)

Section buzzer.
Import BuzzerControl.

Lemma set_buzzer_timer (on : bool) (o : io) (st : t) :
  timer (fst (set_buzzer on o st)) = timer st.
Proof. by destruct o. Qed.

Lemma set_buzzer_requested (on : bool) (o : io) (st : t) :
  requested (fst (set_buzzer on o st)) = requested st ++ [token on].
Proof. by destruct o. Qed.

Lemma buzzer_step_invariant (w : t * MainLoop.t) (e : event) :
  timer_invariant w → timer_invariant (step w e).
Proof.
  destruct w as [st l]. unfold timer_invariant, MainLoop.owns. simpl.
  intros [Hwf Hown]. destruct e as [value o|id o]; simpl.
  - unfold on_buzzer_state_changed.
    destruct (value =? 1); destruct (timer st) as [id|] eqn:Ht; simpl;
      rewrite ?set_buzzer_timer; simpl; rewrite ?Ht; try done.
    + split; [by apply (wf_timeout_add 500 MainLoop.BuzzerOnTimer)|].
      pose proof (active_timeout_add 500 MainLoop.BuzzerOnTimer l) as Ha.
      simpl in Ha. rewrite Ha, Hown. set_solver.
    + split; [by apply wf_source_remove|].
      rewrite active_source_remove, Hown. set_solver.
  - destruct (MainLoop.sources l !! id) as [[i cb]|]; [|done].
    destruct cb; simpl; try done.
    unfold on_timer. by rewrite set_buzzer_timer.
Qed.

Lemma buzzer_run_invariant (es : list event) (w : t * MainLoop.t) :
  timer_invariant w → timer_invariant (run es w).
Proof.
  revert w. induction es as [|e es IH]; intros w Hw; simpl; [done|].
  apply IH. by apply buzzer_step_invariant.
Qed.
End buzzer.

(** C8, as the code has it: from every state that the buzzer reaches,
    writing 1 and then 0 to /Buzzer/State leaves no timer ([_timer] is
    [None] and the main loop runs no buzzer source), and the last thing the
    buzzer set out to write to its file is the token 0.  The file holds 0,
    and [_buzzer_on] is [False], when that write succeeds.  When it fails
    with the [IOError] that [_set_buzzer] catches, the timer is gone all
    the same and [_buzzer_on] is what it was; the file then holds what it
    held when it could not be opened, and nothing when it was opened and
    the write failed.  Writing 1 while the timer exists leaves the timer
    and the main loop as they are, and after a write of 1 exactly one
    buzzer source is active. *)
Theorem buzzer_on_then_off_leaves_no_timer
    (l0 : MainLoop.t) (content : string) (es : list BuzzerControl.event)
    (o1 o2 : BuzzerControl.io) :
  MainLoop.wf l0 →
  MainLoop.active MainLoop.BuzzerOnTimer l0 = ∅ →
  let w := BuzzerControl.run es (BuzzerControl.init content, l0) in
  let w1 := BuzzerControl.step w (BuzzerControl.StateWritten 1 o1) in
  let w2 := BuzzerControl.step w1 (BuzzerControl.StateWritten 0 o2) in
  BuzzerControl.timer (fst w2) = None
  ∧ MainLoop.active MainLoop.BuzzerOnTimer (snd w2) = ∅
  ∧ last (BuzzerControl.requested (fst w2)) = Some "0"
  ∧ (o2 = BuzzerControl.IoOk →
     BuzzerControl.file (fst w2) = "0" ∧ BuzzerControl.buzzer_on (fst w2) = false)
  ∧ (o2 = BuzzerControl.IoOpenFails →
     BuzzerControl.file (fst w2) = BuzzerControl.file (fst w1)
     ∧ BuzzerControl.buzzer_on (fst w2) = BuzzerControl.buzzer_on (fst w1))
  ∧ (o2 = BuzzerControl.IoWriteFails →
     BuzzerControl.file (fst w2) = EmptyString
     ∧ BuzzerControl.buzzer_on (fst w2) = BuzzerControl.buzzer_on (fst w1))
  ∧ (∀ id, BuzzerControl.timer (fst w) = Some id → w1 = w)
  ∧ (∃ id, BuzzerControl.timer (fst w1) = Some id
           ∧ MainLoop.active MainLoop.BuzzerOnTimer (snd w1) = {[id]}).
Proof.
  intros Hwf Hact. cbv zeta.
  assert (BuzzerControl.timer_invariant
            (BuzzerControl.run es (BuzzerControl.init content, l0))) as Hinv.
  { apply buzzer_run_invariant. by split. }
  set (w := BuzzerControl.run es (BuzzerControl.init content, l0)) in *.
  pose proof (buzzer_step_invariant w (BuzzerControl.StateWritten 1 o1) Hinv)
    as Hinv1.
  pose proof (buzzer_step_invariant _ (BuzzerControl.StateWritten 0 o2) Hinv1)
    as Hinv2.
  assert (∃ id, BuzzerControl.timer
                  (fst (BuzzerControl.step w (BuzzerControl.StateWritten 1 o1)))
                = Some id) as [id1 Hid1].
  { destruct w as [st l]. simpl. unfold BuzzerControl.on_buzzer_state_changed.
    simpl. destruct (BuzzerControl.timer st) as [id|] eqn:Ht; simpl.
    - eauto.
    - rewrite set_buzzer_timer. simpl. eauto. }
  set (w1 := BuzzerControl.step w (BuzzerControl.StateWritten 1 o1)) in *.
  assert (BuzzerControl.step w1 (BuzzerControl.StateWritten 0 o2)
          = (fst (BuzzerControl.set_buzzer false o2
                    (BuzzerControl.set_timer None (fst w1))),
             MainLoop.source_remove id1 (snd w1))) as E2.
  { destruct w1 as [st1 l1]. simpl in *.
    unfold BuzzerControl.on_buzzer_state_changed. simpl. by rewrite Hid1. }
  destruct Hinv2 as [_ Hown2]. rewrite E2 in *. simpl in *.
  rewrite set_buzzer_timer in *. simpl in Hown2.
  split; [done|]. split; [done|]. split; [|split; [|split; [|split; [|split]]]].
  - rewrite set_buzzer_requested. apply last_snoc.
  - by intros ->.
  - by intros ->.
  - by intros ->.
  - intros id Ht. subst w1. destruct w as [st l]. simpl in *.
    unfold BuzzerControl.on_buzzer_state_changed. simpl. by rewrite Ht.
  - exists id1. split; [done|]. destruct Hinv1 as [_ Hown1].
    unfold MainLoop.owns in Hown1. by rewrite Hid1 in Hown1.
Qed.

(** The theorem at work on an empty main loop and a buzzer that is on. *)
Lemma buzzer_on_then_off_leaves_no_timer_witness :
  MainLoop.wf MainLoop.empty
  ∧ MainLoop.active MainLoop.BuzzerOnTimer MainLoop.empty = ∅
  ∧ BuzzerControl.timer
      (fst (BuzzerControl.run
              [BuzzerControl.StateWritten 1 BuzzerControl.IoOk;
               BuzzerControl.StateWritten 0 BuzzerControl.IoOk]
              (BuzzerControl.init "1", MainLoop.empty))) = None.
Proof.
  split; [apply wf_empty|]. split; [apply active_empty|].
  apply (buzzer_on_then_off_leaves_no_timer MainLoop.empty "1" []
           BuzzerControl.IoOk BuzzerControl.IoOk wf_empty
           (active_empty MainLoop.BuzzerOnTimer)).
Defined.

(** C8 as it is worded fails: the buzzer is off and its file holds 0; 1 is
    written and the file takes 1; 0 is written at once, but the file cannot
    be opened.  [_set_buzzer] catches the [IOError]: the timer is removed,
    and the file still holds 1 with [_buzzer_on] still [True]. *)
Lemma buzzer_left_on_when_write_fails :
  let w2 :=
    BuzzerControl.run
      [BuzzerControl.StateWritten 1 BuzzerControl.IoOk;
       BuzzerControl.StateWritten 0 BuzzerControl.IoOpenFails]
      (BuzzerControl.init "0", MainLoop.empty) in
  BuzzerControl.timer (fst w2) = None
  ∧ MainLoop.active MainLoop.BuzzerOnTimer (snd w2) = ∅
  ∧ BuzzerControl.file (fst w2) = "1"
  ∧ BuzzerControl.buzzer_on (fst w2) = true
  ∧ BuzzerControl.requested (fst w2) = ["1"; "0"].
Proof. cbv zeta. repeat split; by vm_compute. Qed.

(** ** LgCircuitBreakerDetect *)

Section lg_detect.
Import LgCircuitBreakerDetect.

Lemma last_n_length {A} (n : nat) (l : list A) :
  length (Py.last_n n l) = Nat.min n (length l).
Proof. unfold Py.last_n. rewrite length_drop. lia. Qed.

Lemma last_n_all {A} (n : nat) (l : list A) :
  (length l ≤ n)%nat → Py.last_n n l = l.
Proof.
  intros H. unfold Py.last_n.
  replace (length l - n)%nat with 0%nat by lia. done.
Qed.

(** The window is what the slice [[-40:]] gives, and it is evaluated
    exactly when it holds 20 samples or more. *)
Lemma window_spec (buf : list Q) (sample : Q) :
  fst (window buf sample) = Py.last_n 40 (buf ++ [sample])
  ∧ (snd (window buf sample) = true ↔ (20 ≤ length (buf ++ [sample]))%nat)
  ∧ (length (fst (window buf sample)) ≤ 40)%nat.
Proof.
  unfold window.
  destruct (Nat.ltb_spec 40 (length (buf ++ [sample]))) as [H|H]; simpl.
  - split; [done|]. split; [split; [lia | done]|]. rewrite last_n_length. lia.
  - rewrite last_n_all by done.
    destruct (Nat.ltb_spec (length (buf ++ [sample])) 20) as [H'|H']; simpl.
    + split; [done|]. split; [split; [done | lia] | done].
    + split; [done|]. split; [split; [lia | done] | done].
Qed.

Lemma alarm_insert (v : Py.pyval) (d : gmap string Py.pyval) :
  (<[alarm_path := v]> d : gmap string Py.pyval) !! alarm_path = Some v.
Proof. apply lookup_insert_eq. Qed.

Lemma init_invariant (d : gmap string Py.pyval) : invariant (init d).
Proof. unfold invariant, alarm. simpl. split; [done | apply alarm_insert]. Qed.

Lemma device_added_lg_invariant (service : string) (mon : Monitor.t) (st : t) :
  invariant st → invariant (fst (device_added service mon st)).
Proof.
  intros Hst. unfold device_added.
  destruct (Py.service_type service) as [ty|]; simpl; [|done].
  destruct (_ && _); simpl; [|done].
  unfold invariant, alarm. simpl. split.
  - exists []. split; [done | simpl; lia].
  - left. apply alarm_insert.
Qed.

Lemma device_removed_lg_invariant (service : string) (st : t) :
  invariant st → invariant (device_removed service st).
Proof.
  intros Hst. unfold device_removed. case_bool_decide; [|done].
  unfold invariant, alarm. simpl. split; [done | apply alarm_insert].
Qed.

Lemma set_buffer_invariant (buf : list Q) (st : t) :
  invariant st → is_Some (lg_battery st) → (length buf ≤ 40)%nat →
  invariant (set_buffer buf st).
Proof.
  unfold invariant, alarm. simpl. intros Hst [b Hb] Hlen.
  rewrite Hb in *. destruct Hst as [_ Ha]. split; [eauto | done].
Qed.

Lemma update_values_invariant (newvalues : gmap string Py.pyval) (b : bus) (st : t) :
  invariant st → invariant (state (update_values newvalues b st)).
Proof.
  intros Hst. unfold update_values.
  destruct (lg_battery st) as [battery|] eqn:Hb; [|done].
  destruct (snapshot_vebus newvalues) as [vebus_path|]; [|done].
  destruct (lg_voltage_buffer st) as [buf|] eqn:Hbuf; [|done].
  assert (is_Some (lg_battery st)) as Hsome by (rewrite Hb; eauto).
  assert (invariant (set_buffer [] st)) as Hclear.
  { apply set_buffer_invariant; [done | done | simpl; lia]. }
  destruct (Monitor.get_num (monitor b) (Some battery) "/Dc/0/Current") as [i|];
    [|done].
  destruct (Py.Qltb (1 # 100) (Qabs i)); [done|].
  destruct (Monitor.get_num (monitor b) (Some vebus_path) "/Dc/0/Voltage")
    as [v|]; [|done].
  destruct (window_spec buf v) as (_ & _ & Hlen).
  destruct (window buf v) as [buf1 evaluate]. simpl in Hlen.
  assert (invariant (set_buffer buf1 st)) as H1.
  { by apply set_buffer_invariant. }
  destruct evaluate; cbn [negb]; [|done].
  destruct (Py.py_min buf1) as [mn|]; [|done].
  destruct (Py.py_max buf1) as [mx|]; [|done].
  destruct (Monitor.get_num (monitor b) (Some battery) "/Dc/0/Voltage") as [bv|];
    [|done].
  destruct (out_of_band mn mx bv); [|done].
  case_bool_decide; [|done].
  destruct (set_value_raises b); simpl.
  - unfold invariant, alarm. simpl. rewrite Hb. split; [eauto|].
    right. apply alarm_insert.
  - unfold invariant, alarm. simpl. rewrite Hb. split.
    + exists []. split; [done | simpl; lia].
    + right. apply alarm_insert.
Qed.

Lemma run_invariant (es : list event) (st : t) :
  invariant st → invariant (run es st).
Proof.
  revert st. induction es as [|e es IH]; intros st Hst; simpl; [done|].
  apply IH. destruct e; simpl.
  - by apply device_added_lg_invariant.
  - by apply device_removed_lg_invariant.
  - by apply update_values_invariant.
Qed.
End lg_detect.

Lemma fold_min_spec (rest : list Q) (x : Q) :
  let m := fold_left (fun m y => if Py.Qltb y m then y else m) rest x in
  (m = x ∨ m ∈ rest) ∧ (m <= x)%Q ∧ ∀ y, y ∈ rest → (m <= y)%Q.
Proof.
  revert x. induction rest as [|y rest IH]; intros x; simpl.
  - split; [by left|]. split; [apply Qle_refl|]. by intros y ?%elem_of_nil.
  - destruct (IH (if Py.Qltb y x then y else x)) as (Hin & Hle & Hall).
    destruct (Py.Qltb y x) eqn:E.
    + apply Qltb_lt in E. split; [|split].
      * destruct Hin as [->|Hin]; right; [by left | by right].
      * eapply Qle_trans; [exact Hle | by apply Qlt_le_weak].
      * intros z [->|Hz]%elem_of_cons; auto.
    + apply Qltb_ge in E. split; [|split].
      * destruct Hin as [->|Hin]; [by left | right; by right].
      * done.
      * intros z [->|Hz]%elem_of_cons; [|auto]. by eapply Qle_trans.
Qed.

Lemma fold_max_spec (rest : list Q) (x : Q) :
  let m := fold_left (fun m y => if Py.Qltb m y then y else m) rest x in
  (m = x ∨ m ∈ rest) ∧ (x <= m)%Q ∧ ∀ y, y ∈ rest → (y <= m)%Q.
Proof.
  revert x. induction rest as [|y rest IH]; intros x; simpl.
  - split; [by left|]. split; [apply Qle_refl|]. by intros y ?%elem_of_nil.
  - destruct (IH (if Py.Qltb x y then y else x)) as (Hin & Hle & Hall).
    destruct (Py.Qltb x y) eqn:E.
    + apply Qltb_lt in E. split; [|split].
      * destruct Hin as [->|Hin]; right; [by left | by right].
      * eapply Qle_trans; [by apply Qlt_le_weak | exact Hle].
      * intros z [->|Hz]%elem_of_cons; auto.
    + apply Qltb_ge in E. split; [|split].
      * destruct Hin as [->|Hin]; [by left | right; by right].
      * done.
      * intros z [->|Hz]%elem_of_cons; [|auto]. by eapply Qle_trans.
Qed.

(** [min(l)] is an item of [l] and no item is below it. *)
Lemma py_min_least (l : list Q) (m : Q) :
  Py.py_min l = Some m → m ∈ l ∧ ∀ y, y ∈ l → (m <= y)%Q.
Proof.
  destruct l as [|x rest]; simpl; [done|]. intros [= <-].
  destruct (fold_min_spec rest x) as (Hin & Hle & Hall). split.
  - destruct Hin as [->|Hin]; [by left | by right].
  - intros y [->|Hy]%elem_of_cons; auto.
Qed.

(** [max(l)] is an item of [l] and no item is above it. *)
Lemma py_max_greatest (l : list Q) (m : Q) :
  Py.py_max l = Some m → m ∈ l ∧ ∀ y, y ∈ l → (y <= m)%Q.
Proof.
  destruct l as [|x rest]; simpl; [done|]. intros [= <-].
  destruct (fold_max_spec rest x) as (Hin & Hle & Hall). split.
  - destruct Hin as [->|Hin]; [by left | by right].
  - intros y [->|Hy]%elem_of_cons; auto.
Qed.

Lemma out_of_band_spec (mn mx bv : Q) :
  LgCircuitBreakerDetect.out_of_band mn mx bv = true
  ↔ Float.lt (Float.of_Q mn) (Float.mul (Float.of_Q (9 # 10)) (Float.of_Q bv))
    ∨ Float.lt (Float.mul (Float.of_Q (11 # 10)) (Float.of_Q bv)) (Float.of_Q mx).
Proof.
  unfold LgCircuitBreakerDetect.out_of_band, Float.lt.
  by rewrite orb_true_iff.
Qed.

(** The literals of the detector are the binary64 numbers that Python reads
    them as: 0.9 is 0x1.ccccccccccccdp-1 and 1.1 is 0x1.199999999999ap+0. *)
Example float_literals :
  Float.of_Q (9 # 10) = SpecFloat.S754_finite false 0x1ccccccccccccd (-53)
  ∧ Float.of_Q (11 # 10) = SpecFloat.S754_finite false 0x1199999999999a (-52)
  ∧ Float.of_Q (50 # 1) = SpecFloat.S754_finite false 0x19000000000000 (-47).
Proof. repeat split; by vm_compute. Qed.

(** [1.1 * 50.0] is 55.00000000000001, the float next above 55, and
    [0.9 * 52.0] is 46.800000000000004, the float next above 46.8. *)
Example float_products :
  Float.mul (Float.of_Q (11 # 10)) (Float.of_Q (50 # 1))
  = Float.of_Q (5500000000000001 # 100000000000000)
  ∧ Float.lt (Float.of_Q (55 # 1))
      (Float.mul (Float.of_Q (11 # 10)) (Float.of_Q (50 # 1)))
  ∧ Float.mul (Float.of_Q (9 # 10)) (Float.of_Q (52 # 1))
    = Float.of_Q (46800000000000004 # 1000000000000000)
  ∧ Float.lt (Float.of_Q (468 # 10))
      (Float.mul (Float.of_Q (9 # 10)) (Float.of_Q (52 # 1))).
Proof. repeat split; by vm_compute. Qed.

(** At rest, 25 samples of 50 V against a battery at 50 V raise no alarm. *)
Example steady_window_no_alarm :
  LgCircuitBreakerDetect.alarm (Scenario.rested 25) = Some (Py.PInt 0)
  ∧ option_map length (LgCircuitBreakerDetect.lg_voltage_buffer (Scenario.rested 25))
    = Some 25%nat.
Proof. split; by vm_compute. Qed.

(** One sample of 58 V among them is more than 10 % off: alarm 2, mode 4. *)
Example sample_out_of_band_fires :
  let r := LgCircuitBreakerDetect.update_values Scenario.with_inverter
             (Scenario.at_rest (58 # 1) true) (Scenario.rested 24) in
  LgCircuitBreakerDetect.alarm (LgCircuitBreakerDetect.state r) = Some (Py.PInt 2)
  ∧ LgCircuitBreakerDetect.writes r
    = [Bus.SetValue Scenario.vebus "/Mode" (Py.PInt 4)]
  ∧ LgCircuitBreakerDetect.lg_voltage_buffer (LgCircuitBreakerDetect.state r)
    = Some [].
Proof. cbv zeta. repeat split; by vm_compute. Qed.

(** A twentieth sample of 55.00000000000001 V against the battery at 50 V
    raises no alarm: it is not above [1.1 * 50.0], which is that float. *)
Example sample_on_the_rounded_border :
  let r := LgCircuitBreakerDetect.update_values Scenario.with_inverter
             (Scenario.at_rest (5500000000000001 # 100000000000000) true)
             (Scenario.rested 19) in
  LgCircuitBreakerDetect.alarm (LgCircuitBreakerDetect.state r) = Some (Py.PInt 0)
  ∧ LgCircuitBreakerDetect.writes r = []
  ∧ option_map length
      (LgCircuitBreakerDetect.lg_voltage_buffer (LgCircuitBreakerDetect.state r))
    = Some 20%nat.
Proof. cbv zeta. repeat split; by vm_compute. Qed.

(** A battery at 52.0 V and 19 samples of 52.0 V: a twentieth sample of
    46.8 V raises the alarm, since [0.9 * 52.0] is 46.800000000000004. *)
Example sample_at_ninety_percent_fires :
  let b :=
    {| LgCircuitBreakerDetect.monitor :=
         {| Monitor.ints := ∅;
            Monitor.nums :=
              {[ (Scenario.battery, "/Dc/0/Current") := 0 # 1;
                 (Scenario.battery, "/Dc/0/Voltage") := 52 # 1;
                 (Scenario.vebus, "/Dc/0/Voltage") := 468 # 10 ]} |};
       LgCircuitBreakerDetect.items := {[ (Scenario.vebus, "/Mode") ]};
       LgCircuitBreakerDetect.set_value_raises := false |} in
  let st :=
    {| LgCircuitBreakerDetect.lg_battery := Some Scenario.battery;
       LgCircuitBreakerDetect.lg_voltage_buffer := Some (replicate 19 (52 # 1)%Q);
       LgCircuitBreakerDetect.dbusservice :=
         {[ LgCircuitBreakerDetect.alarm_path := Py.PInt 0 ]} |} in
  let r := LgCircuitBreakerDetect.update_values Scenario.with_inverter b st in
  LgCircuitBreakerDetect.alarm (LgCircuitBreakerDetect.state r) = Some (Py.PInt 2)
  ∧ LgCircuitBreakerDetect.writes r
    = [Bus.SetValue Scenario.vebus "/Mode" (Py.PInt 4)]
  ∧ LgCircuitBreakerDetect.lg_voltage_buffer (LgCircuitBreakerDetect.state r)
    = Some [].
Proof. cbv zeta. repeat split; by vm_compute. Qed.

(** The window stops at 40 samples. *)
Example window_stops_at_40 :
  option_map length (LgCircuitBreakerDetect.lg_voltage_buffer (Scenario.rested 45))
  = Some 40%nat.
Proof. by vm_compute. Qed.

(** C10: the alarm path is created with [None]; in every state that the
    detector reaches its value is not [None] exactly while an LG battery is
    tracked; a battery with product id 0xB004 that appears is tracked and
    sets the value to 0, whatever it was; any other device leaves the
    detector as it is; the tracked battery going away sets the value back
    to [None], any other device going away changes nothing; and a tick
    never changes which battery is tracked. *)
Theorem alarm_published_while_battery_tracked
    (d : gmap string Py.pyval) (es : list LgCircuitBreakerDetect.event) :
  let st := LgCircuitBreakerDetect.run es (LgCircuitBreakerDetect.init d) in
  LgCircuitBreakerDetect.alarm (LgCircuitBreakerDetect.init d) = Some Py.PNone
  ∧ (∃ v, LgCircuitBreakerDetect.alarm st = Some v
          ∧ (v ≠ Py.PNone ↔ is_Some (LgCircuitBreakerDetect.lg_battery st)))
  ∧ (∀ service mon,
       Py.service_type service = Some "battery" →
       Monitor.get_int mon (Some service) "/ProductId" = Some 0xB004 →
       let st1 := fst (LgCircuitBreakerDetect.device_added service mon st) in
       LgCircuitBreakerDetect.lg_battery st1 = Some service
       ∧ LgCircuitBreakerDetect.alarm st1 = Some (Py.PInt 0))
  ∧ (∀ service mon,
       Py.service_type service ≠ Some "battery"
       ∨ Monitor.get_int mon (Some service) "/ProductId" ≠ Some 0xB004 →
       fst (LgCircuitBreakerDetect.device_added service mon st) = st)
  ∧ (∀ service,
       LgCircuitBreakerDetect.lg_battery st = Some service →
       let st1 := LgCircuitBreakerDetect.device_removed service st in
       LgCircuitBreakerDetect.lg_battery st1 = None
       ∧ LgCircuitBreakerDetect.alarm st1 = Some Py.PNone)
  ∧ (∀ service,
       LgCircuitBreakerDetect.lg_battery st ≠ Some service →
       LgCircuitBreakerDetect.device_removed service st = st)
  ∧ (∀ newvalues b,
       LgCircuitBreakerDetect.lg_battery
         (LgCircuitBreakerDetect.state
            (LgCircuitBreakerDetect.update_values newvalues b st))
       = LgCircuitBreakerDetect.lg_battery st).
Proof.
  cbv zeta.
  pose proof (run_invariant es _ (init_invariant d)) as Hinv.
  set (st := LgCircuitBreakerDetect.run es (LgCircuitBreakerDetect.init d)) in *.
  split; [apply alarm_insert|]. split; [|split; [|split; [|split; [|split]]]].
  - unfold LgCircuitBreakerDetect.invariant in Hinv.
    destruct (LgCircuitBreakerDetect.lg_battery st) as [b|].
    + destruct Hinv as [_ [Ha|Ha]]; rewrite Ha; eexists; (split; [done|]);
        (split; [eauto | done]).
    + destruct Hinv as [_ Ha]. rewrite Ha. exists Py.PNone. split; [done|].
      split; [done | by intros [? ?]].
  - intros service mon Hty Hid. unfold LgCircuitBreakerDetect.device_added.
    rewrite Hty, Hid. simpl. split; [done | apply alarm_insert].
  - intros service mon Hne. unfold LgCircuitBreakerDetect.device_added.
    destruct (Py.service_type service) as [ty|]; [|done].
    do 2 case_bool_decide; simpl; try done. subst. tauto.
  - intros service Hb. unfold LgCircuitBreakerDetect.device_removed.
    rewrite Hb, bool_decide_eq_true_2 by done. simpl.
    split; [done | apply alarm_insert].
  - intros service Hb. unfold LgCircuitBreakerDetect.device_removed.
    by rewrite bool_decide_eq_false_2.
  - intros newvalues b. unfold LgCircuitBreakerDetect.update_values.
    destruct (LgCircuitBreakerDetect.lg_battery st) as [battery|] eqn:Hb;
      [|done].
    destruct (snapshot_vebus newvalues) as [vebus_path|]; [|done].
    destruct (LgCircuitBreakerDetect.lg_voltage_buffer st) as [buf|]; [|done].
    destruct (Monitor.get_num _ (Some battery) "/Dc/0/Current") as [i|]; [|done].
    destruct (Py.Qltb _ _); [done|].
    destruct (Monitor.get_num _ (Some vebus_path) "/Dc/0/Voltage") as [v|];
      [|done].
    destruct (LgCircuitBreakerDetect.window buf v) as [buf1 evaluate].
    destruct evaluate; cbn [negb]; [|done].
    destruct (Py.py_min _); [|done].
    destruct (Py.py_max _); [|done].
    destruct (Monitor.get_num _ (Some battery) "/Dc/0/Voltage"); [|done].
    destruct (LgCircuitBreakerDetect.out_of_band _ _ _); [|done].
    case_bool_decide; [|done].
    by destruct (LgCircuitBreakerDetect.set_value_raises b).
Qed.


(** C6, as the code has it: on a tick on which an LG battery is tracked and
    the snapshot names an inverter service, a battery current that is
    unavailable or above 0.01 A in magnitude leaves the window empty; no
    sample is appended, no bus write is made and the alarm keeps its
    value.  When the snapshot names no inverter service the tick returns at
    once and changes nothing, the window included. *)
Theorem window_cleared_off_rest
    (d : gmap string Py.pyval) (es : list LgCircuitBreakerDetect.event)
    (newvalues : gmap string Py.pyval) (b : LgCircuitBreakerDetect.bus)
    (battery : string) :
  let st := LgCircuitBreakerDetect.run es (LgCircuitBreakerDetect.init d) in
  let current :=
    Monitor.get_num (LgCircuitBreakerDetect.monitor b) (Some battery) "/Dc/0/Current" in
  LgCircuitBreakerDetect.lg_battery st = Some battery →
  current = None ∨ (∃ i, current = Some i ∧ (1 # 100 < Qabs i)%Q) →
  let r := LgCircuitBreakerDetect.update_values newvalues b st in
  (is_Some (snapshot_vebus newvalues) →
   LgCircuitBreakerDetect.lg_voltage_buffer (LgCircuitBreakerDetect.state r) = Some []
   ∧ LgCircuitBreakerDetect.writes r = []
   ∧ LgCircuitBreakerDetect.ended r = Py.Returned
   ∧ LgCircuitBreakerDetect.alarm (LgCircuitBreakerDetect.state r)
     = LgCircuitBreakerDetect.alarm st
   ∧ LgCircuitBreakerDetect.lg_battery (LgCircuitBreakerDetect.state r) = Some battery)
  ∧ (snapshot_vebus newvalues = None → r = LgCircuitBreakerDetect.returns st).
Proof.
  cbv zeta. intros Hb Hcur.
  pose proof (run_invariant es _ (init_invariant d)) as Hinv.
  set (st := LgCircuitBreakerDetect.run es (LgCircuitBreakerDetect.init d)) in *.
  unfold LgCircuitBreakerDetect.invariant in Hinv. rewrite Hb in Hinv.
  destruct Hinv as [(buf & Hbuf & _) _].
  unfold LgCircuitBreakerDetect.update_values. rewrite Hb. split.
  - intros [vebus_path ->]. rewrite Hbuf.
    destruct Hcur as [->|(i & -> & Hi)].
    + by simpl.
    + apply Qltb_lt in Hi. rewrite Hi. by simpl.
  - by intros ->.
Qed.

(** The theorem at work: two samples at rest, then a tick at 5 A. *)
Lemma window_cleared_off_rest_witness :
  LgCircuitBreakerDetect.lg_battery (Scenario.rested 2) = Some Scenario.battery
  ∧ snapshot_vebus Scenario.with_inverter = Some Scenario.vebus
  ∧ (1 # 100 < Qabs (5 # 1))%Q
  ∧ LgCircuitBreakerDetect.lg_voltage_buffer (Scenario.rested 2)
    = Some [50 # 1; 50 # 1]%Q
  ∧ LgCircuitBreakerDetect.lg_voltage_buffer
      (LgCircuitBreakerDetect.state
         (LgCircuitBreakerDetect.update_values Scenario.with_inverter
            Scenario.under_load (Scenario.rested 2))) = Some [].
Proof.
  assert (1 # 100 < Qabs (5 # 1))%Q as Hi by reflexivity.
  split; [reflexivity|]. split; [reflexivity|]. split; [exact Hi|].
  split; [reflexivity|].
  apply (window_cleared_off_rest ∅
           (LgCircuitBreakerDetect.DeviceAdded Scenario.battery Scenario.appeared
            :: replicate 2
                 (LgCircuitBreakerDetect.Tick Scenario.with_inverter
                    (Scenario.at_rest (50 # 1) true)))
           Scenario.with_inverter Scenario.under_load Scenario.battery).
  - reflexivity.
  - right. exists (5 # 1)%Q. split; [reflexivity | exact Hi].
  - by exists Scenario.vebus.
Defined.

(** C6 as it is worded fails: the battery is tracked and its window holds
    two samples, the battery current is 5 A, but the snapshot names no
    inverter service; the tick returns at once and the window keeps its
    two samples. *)
Lemma window_kept_when_inverter_absent :
  let st := Scenario.rested 2 in
  let r := LgCircuitBreakerDetect.update_values Scenario.without_inverter
             Scenario.under_load st in
  LgCircuitBreakerDetect.lg_battery st = Some Scenario.battery
  ∧ Monitor.get_num (LgCircuitBreakerDetect.monitor Scenario.under_load)
      (Some Scenario.battery) "/Dc/0/Current" = Some (5 # 1)%Q
  ∧ (1 # 100 < Qabs (5 # 1))%Q
  ∧ LgCircuitBreakerDetect.lg_voltage_buffer st = Some [50 # 1; 50 # 1]%Q
  ∧ LgCircuitBreakerDetect.lg_voltage_buffer (LgCircuitBreakerDetect.state r)
    = Some [50 # 1; 50 # 1]%Q.
Proof. cbv zeta. repeat split; by vm_compute. Qed.

Lemma last_n_at_least_20 {A} (l : list A) :
  (20 ≤ length (Py.last_n 40 l))%nat ↔ (20 ≤ length l)%nat.
Proof. rewrite last_n_length. lia. Qed.

(** C1, as the code has it: on a tick on which an LG battery is tracked,
    the snapshot names an inverter service, the battery current is at most
    0.01 A in magnitude and the write to the inverter's mode does not fail,
    the alarm fires (2 is published, the inverter's /Mode is set to 4 and
    the window is cleared) if and only if the inverter's DC voltage and the
    battery's DC voltage are available, the window of the last 40 samples
    holds at least 20 samples once the inverter's voltage is appended, its
    minimum is below the float product [0.9 * battery_voltage] or its
    maximum above the float product [1.1 * battery_voltage], and the
    monitor has a /Mode item for the inverter.  The two products are
    binary64 products, each rounded to the nearest float.  When the alarm
    does not fire, nothing is written to the bus and the alarm keeps its
    value. *)
Theorem alarm_fires_iff_out_of_band_and_mode_item
    (d : gmap string Py.pyval) (es : list LgCircuitBreakerDetect.event)
    (newvalues : gmap string Py.pyval) (b : LgCircuitBreakerDetect.bus)
    (battery vebus_path : string) (i : Q) :
  let st := LgCircuitBreakerDetect.run es (LgCircuitBreakerDetect.init d) in
  let mon := LgCircuitBreakerDetect.monitor b in
  LgCircuitBreakerDetect.lg_battery st = Some battery →
  snapshot_vebus newvalues = Some vebus_path →
  Monitor.get_num mon (Some battery) "/Dc/0/Current" = Some i →
  (Qabs i <= 1 # 100)%Q →
  LgCircuitBreakerDetect.set_value_raises b = false →
  let r := LgCircuitBreakerDetect.update_values newvalues b st in
  (LgCircuitBreakerDetect.alarm_fired vebus_path r
   ↔ ∃ buf v bv mn mx,
       LgCircuitBreakerDetect.lg_voltage_buffer st = Some buf
       ∧ Monitor.get_num mon (Some vebus_path) "/Dc/0/Voltage" = Some v
       ∧ Monitor.get_num mon (Some battery) "/Dc/0/Voltage" = Some bv
       ∧ (20 ≤ length (Py.last_n 40 (buf ++ [v])))%nat
       ∧ Py.py_min (Py.last_n 40 (buf ++ [v])) = Some mn
       ∧ Py.py_max (Py.last_n 40 (buf ++ [v])) = Some mx
       ∧ (Float.lt (Float.of_Q mn)
            (Float.mul (Float.of_Q (9 # 10)) (Float.of_Q bv))
          ∨ Float.lt (Float.mul (Float.of_Q (11 # 10)) (Float.of_Q bv))
              (Float.of_Q mx))
       ∧ (vebus_path, "/Mode") ∈ LgCircuitBreakerDetect.items b)
  ∧ (¬ LgCircuitBreakerDetect.alarm_fired vebus_path r →
     LgCircuitBreakerDetect.writes r = []
     ∧ LgCircuitBreakerDetect.alarm (LgCircuitBreakerDetect.state r)
       = LgCircuitBreakerDetect.alarm st).
Proof.
  cbv zeta. intros Hb Hv Hcur Hi Hset.
  match goal with
  | |- (?F ↔ ?R) ∧ (¬ ?F → ?Q) => cut ((F ↔ R) ∧ (F ∨ Q)); [tauto|]
  end.
  pose proof (run_invariant es _ (init_invariant d)) as Hinv.
  set (st := LgCircuitBreakerDetect.run es (LgCircuitBreakerDetect.init d)) in *.
  unfold LgCircuitBreakerDetect.invariant in Hinv. rewrite Hb in Hinv.
  destruct Hinv as [(buf & Hbuf & _) _].
  apply Qltb_ge in Hi.
  unfold LgCircuitBreakerDetect.update_values, LgCircuitBreakerDetect.alarm_fired.
  rewrite Hb, Hv, Hbuf, Hcur, Hi, Hset.
  destruct (Monitor.get_num _ (Some vebus_path) "/Dc/0/Voltage") as [v|] eqn:Ev.
  2: { split; [|by right].
       split; [by intros (_ & ? & _) | by intros (? & ? & ? & ? & ? & _ & ? & _)]. }
  destruct (window_spec buf v) as (Hw & Hev & _).
  rewrite <- last_n_at_least_20 in Hev.
  destruct (LgCircuitBreakerDetect.window buf v) as [buf1 evaluate].
  simpl in Hw, Hev. subst buf1.
  destruct evaluate; cbn [negb].
  2: { split; [|by right]. split; [by intros (_ & ? & _)|].
       intros (? & ? & ? & ? & ? & [= <-] & [= <-] & _ & Hlen & _).
       apply Hev in Hlen. discriminate. }
  destruct (Py.py_min _) as [mn|] eqn:Emn.
  2: { split; [|by right]. split; [by intros (_ & ? & _)|].
       intros (? & ? & ? & ? & ? & [= <-] & [= <-] & _ & _ & Hmn & _).
       congruence. }
  destruct (Py.py_max _) as [mx|] eqn:Emx.
  2: { split; [|by right]. split; [by intros (_ & ? & _)|].
       intros (? & ? & ? & ? & ? & [= <-] & [= <-] & _ & _ & _ & Hmx & _).
       congruence. }
  destruct (Monitor.get_num _ (Some battery) "/Dc/0/Voltage") as [bv|] eqn:Ebv.
  2: { split; [|by right]. split; [by intros (_ & ? & _)|].
       by intros (? & ? & ? & ? & ? & _ & _ & ? & _). }
  destruct (LgCircuitBreakerDetect.out_of_band mn mx bv) eqn:Eband.
  2: { split; [|by right]. split; [by intros (_ & ? & _)|].
       intros (? & ? & ? & ? & ? & [= <-] & [= <-] & [= <-] & _ & Hmn & Hmx & Hor & _).
       rewrite Emn in Hmn. rewrite Emx in Hmx.
       injection Hmn as <-. injection Hmx as <-.
       apply out_of_band_spec in Hor. congruence. }
  apply out_of_band_spec in Eband.
  case_bool_decide as Hitem.
  2: { split; [|by right]. split; [by intros (_ & ? & _)|].
       by intros (? & ? & ? & ? & ? & _ & _ & _ & _ & _ & _ & _ & ?). }
  simpl.
  assert (LgCircuitBreakerDetect.alarm
            (LgCircuitBreakerDetect.set_buffer []
               {| LgCircuitBreakerDetect.lg_battery := LgCircuitBreakerDetect.lg_battery st;
                  LgCircuitBreakerDetect.lg_voltage_buffer :=
                    Some (Py.last_n 40 (buf ++ [v]));
                  LgCircuitBreakerDetect.dbusservice :=
                    <[LgCircuitBreakerDetect.alarm_path := Py.PInt 2]>
                      (LgCircuitBreakerDetect.dbusservice st) |})
          = Some (Py.PInt 2)) as Halarm by apply alarm_insert.
  split; [|left; by split]. split.
  - intros _. exists buf, v, bv, mn, mx.
    repeat split; try done. by apply Hev.
  - intros _. by split.
Qed.

(** C1 as it is worded fails: the window reaches 20 samples with a sample
    of 60 V against a battery at 50 V, at rest, but the monitor has no
    /Mode item for the inverter; no alarm is published, nothing is written
    to the inverter and the window is kept. *)
Lemma no_alarm_without_mode_item :
  let st := Scenario.rested 19 in
  let b := Scenario.at_rest (60 # 1) false in
  let mon := LgCircuitBreakerDetect.monitor b in
  let samples := (replicate 19 (50 # 1) ++ [60 # 1])%Q in
  let r := LgCircuitBreakerDetect.update_values Scenario.with_inverter b st in
  (LgCircuitBreakerDetect.lg_battery st = Some Scenario.battery
   ∧ snapshot_vebus Scenario.with_inverter = Some Scenario.vebus
   ∧ Monitor.get_num mon (Some Scenario.battery) "/Dc/0/Current" = Some (0 # 1)%Q
   ∧ (Qabs (0 # 1) <= 1 # 100)%Q)
  ∧ (LgCircuitBreakerDetect.lg_voltage_buffer st = Some (replicate 19 (50 # 1)%Q)
     ∧ Monitor.get_num mon (Some Scenario.vebus) "/Dc/0/Voltage" = Some (60 # 1)%Q
     ∧ Monitor.get_num mon (Some Scenario.battery) "/Dc/0/Voltage" = Some (50 # 1)%Q
     ∧ (20 ≤ length samples)%nat
     ∧ Py.py_max samples = Some (60 # 1)%Q
     ∧ Float.lt (Float.mul (Float.of_Q (11 # 10)) (Float.of_Q (50 # 1)))
         (Float.of_Q (60 # 1)))
  ∧ (LgCircuitBreakerDetect.writes r = []
     ∧ LgCircuitBreakerDetect.ended r = Py.Returned
     ∧ LgCircuitBreakerDetect.alarm (LgCircuitBreakerDetect.state r)
       = Some (Py.PInt 0)
     ∧ LgCircuitBreakerDetect.lg_voltage_buffer (LgCircuitBreakerDetect.state r)
       = Some samples
     ∧ ¬ LgCircuitBreakerDetect.alarm_fired Scenario.vebus r).
Proof.
  cbv zeta. repeat split; try (by vm_compute).
  intros (_ & Hw & _). vm_compute in Hw. discriminate.
Qed.

(** The theorem at work: the same tick with a /Mode item fires the alarm. *)
Lemma alarm_fires_iff_out_of_band_and_mode_item_witness :
  LgCircuitBreakerDetect.lg_battery (Scenario.rested 19) = Some Scenario.battery
  ∧ snapshot_vebus Scenario.with_inverter = Some Scenario.vebus
  ∧ (Qabs (0 # 1) <= 1 # 100)%Q
  ∧ LgCircuitBreakerDetect.alarm_fired Scenario.vebus
      (LgCircuitBreakerDetect.update_values Scenario.with_inverter
         (Scenario.at_rest (60 # 1) true) (Scenario.rested 19)).
Proof.
  unfold Scenario.rested.
  assert (Qabs (0 # 1) <= 1 # 100)%Q as Hi by (by vm_compute).
  assert (LgCircuitBreakerDetect.lg_battery
            (LgCircuitBreakerDetect.run
               (LgCircuitBreakerDetect.DeviceAdded Scenario.battery Scenario.appeared
                :: replicate 19
                     (LgCircuitBreakerDetect.Tick Scenario.with_inverter
                        (Scenario.at_rest (50 # 1) true)))
               (LgCircuitBreakerDetect.init ∅))
          = Some Scenario.battery) as Hb by (vm_compute; reflexivity).
  assert (snapshot_vebus Scenario.with_inverter = Some Scenario.vebus) as Hv
    by (vm_compute; reflexivity).
  assert (Monitor.get_num
            (LgCircuitBreakerDetect.monitor (Scenario.at_rest (60 # 1) true))
            (Some Scenario.battery) "/Dc/0/Current" = Some (0 # 1)%Q) as Hc
    by (vm_compute; reflexivity).
  split; [exact Hb|]. split; [exact Hv|]. split; [exact Hi|].
  apply (alarm_fires_iff_out_of_band_and_mode_item ∅
           (LgCircuitBreakerDetect.DeviceAdded Scenario.battery Scenario.appeared
            :: replicate 19
                 (LgCircuitBreakerDetect.Tick Scenario.with_inverter
                    (Scenario.at_rest (50 # 1) true)))
           Scenario.with_inverter (Scenario.at_rest (60 # 1) true)
           Scenario.battery Scenario.vebus (0 # 1)%Q
           Hb Hv Hc Hi eq_refl).
  exists (replicate 19 (50 # 1)%Q), (60 # 1)%Q, (50 # 1)%Q, (50 # 1)%Q, (60 # 1)%Q.
  split; [vm_compute; reflexivity|].
  split; [vm_compute; reflexivity|]. split; [vm_compute; reflexivity|].
  split; [by vm_compute|].
  split; [vm_compute; reflexivity|]. split; [vm_compute; reflexivity|].
  split; [right; vm_compute; reflexivity|].
  apply (bool_decide_unpack _). by vm_compute.
Defined.

(** * Further properties of the delegates *)

(** ** HubTypeSelect: the classification does not depend on an old /Hub *)

Lemma snapshot_vebus_insert_hub (x : Py.pyval) (newvalues : gmap string Py.pyval) :
  snapshot_vebus (<["/Hub" := x]> newvalues) = snapshot_vebus newvalues.
Proof.
  unfold snapshot_vebus, Py.dict_get. by rewrite lookup_insert_ne.
Qed.

(** X1: the value that a tick stores under /Hub does not depend on what the
    snapshot held under /Hub before, so classifying a snapshot twice gives
    the same snapshot as classifying it once. *)
Theorem hub_classifier_ignores_old_hub
    (mon : Monitor.t) (newvalues : gmap string Py.pyval) (x : Py.pyval) :
  HubTypeSelect.update_values mon (<["/Hub" := x]> newvalues)
  = HubTypeSelect.update_values mon newvalues
  ∧ HubTypeSelect.update_values mon (HubTypeSelect.update_values mon newvalues)
    = HubTypeSelect.update_values mon newvalues.
Proof.
  assert (∀ y nv, HubTypeSelect.update_values mon (<["/Hub" := y]> nv)
                  = HubTypeSelect.update_values mon nv) as H.
  { intros y nv. unfold HubTypeSelect.update_values.
    rewrite snapshot_vebus_insert_hub. unfold Py.dict_get.
    rewrite !lookup_insert_ne by done. by rewrite insert_insert_eq. }
  split; [apply H|].
  unfold HubTypeSelect.update_values at 2. apply H.
Qed.

(** ** Service names with fewer than three components *)

Lemma split_dot_length (s : string) :
  length (Py.split_dot s) = S (More.count_dots s).
Proof.
  induction s as [|c s IH]; simpl; [done|].
  destruct (Ascii.eqb c "."); simpl; [by rewrite IH|].
  destruct (Py.split_dot s); simpl in *; [done | done].
Qed.

Lemma service_type_none (service : string) :
  Py.service_type service = None ↔ (More.count_dots service < 2)%nat.
Proof.
  unfold Py.service_type. rewrite lookup_ge_None, split_dot_length. lia.
Qed.

(** X2: [service.split('.')[2]] raises [IndexError] exactly for the service
    names with fewer than two dots; on such a name [device_added] of the
    supervisor, of the Hub-1 bridge and of the LG detector ends in that
    exception and leaves the delegate, the main loop and the bus as they
    were, and on every other name it returns. *)
Theorem device_added_index_error (service : string) :
  (Py.service_type service = None ↔ (More.count_dots service < 2)%nat)
  ∧ (∀ st,
       (snd (ServiceSupervisor.device_added service st) = Py.Raised Py.IndexError
        ↔ (More.count_dots service < 2)%nat)
       ∧ (snd (ServiceSupervisor.device_added service st) = Py.Raised Py.IndexError
          ∨ snd (ServiceSupervisor.device_added service st) = Py.Returned)
       ∧ ((More.count_dots service < 2)%nat →
          fst (ServiceSupervisor.device_added service st) = st))
  ∧ (∀ b st l,
       let r := Hub1Bridge.device_added service b st l in
       (Hub1Bridge.ended r = Py.Raised Py.IndexError
        ↔ (More.count_dots service < 2)%nat)
       ∧ (Hub1Bridge.ended r = Py.Raised Py.IndexError
          ∨ Hub1Bridge.ended r = Py.Returned)
       ∧ ((More.count_dots service < 2)%nat →
          Hub1Bridge.state r = st ∧ Hub1Bridge.loop r = l
          ∧ Hub1Bridge.writes r = []))
  ∧ (∀ mon st,
       (snd (LgCircuitBreakerDetect.device_added service mon st)
        = Py.Raised Py.IndexError ↔ (More.count_dots service < 2)%nat)
       ∧ (snd (LgCircuitBreakerDetect.device_added service mon st)
          = Py.Raised Py.IndexError
          ∨ snd (LgCircuitBreakerDetect.device_added service mon st) = Py.Returned)
       ∧ ((More.count_dots service < 2)%nat →
          fst (LgCircuitBreakerDetect.device_added service mon st) = st)).
Proof.
  pose proof (service_type_none service) as Hn.
  split; [done|]. split; [|split].
  - intros st. unfold ServiceSupervisor.device_added.
    destruct (Py.service_type service) as [ty|]; simpl.
    + assert (¬ (More.count_dots service < 2)%nat) as Hge
        by (intros H; by apply Hn in H).
      destruct (_ || _); simpl; (split; [split; [done | tauto]|]);
        (split; [by right | tauto]).
    + assert (More.count_dots service < 2)%nat by by apply Hn.
      split; [done|]. split; [by left | done].
  - intros b st l. cbv zeta. unfold Hub1Bridge.device_added.
    destruct (Py.service_type service) as [ty|]; simpl.
    + assert (¬ (More.count_dots service < 2)%nat) as Hge
        by (intros H; by apply Hn in H).
      destruct (negb _); simpl.
      * split; [split; [done | tauto]|]. split; [by right | tauto].
      * destruct (Hub1Bridge.timer st); simpl;
          (split; [split; [done | tauto]|]); (split; [by right | tauto]).
    + assert (More.count_dots service < 2)%nat by by apply Hn.
      split; [done|]. split; [by left | done].
  - intros mon st. unfold LgCircuitBreakerDetect.device_added.
    destruct (Py.service_type service) as [ty|]; simpl.
    + assert (¬ (More.count_dots service < 2)%nat) as Hge
        by (intros H; by apply Hn in H).
      destruct (_ && _); simpl; (split; [split; [done | tauto]|]);
        (split; [by right | tauto]).
    + assert (More.count_dots service < 2)%nat by by apply Hn.
      split; [done|]. split; [by left | done].
Qed.

(** ** Hub1Bridge: what is written to the chargers *)

Section hub1_writes.
Import Hub1Bridge.

Lemma perform_subset (raises : string → string → bool) (ws : list Bus.write)
    (w : Bus.write) :
  w ∈ Bus.perform raises ws → w ∈ ws.
Proof.
  induction ws as [|[service path v] ws IH]; simpl; [done|].
  destruct (raises service path); [by intros ?%elem_of_nil|].
  intros [->|Hin]%elem_of_cons; [by left | right; auto].
Qed.

Lemma perform_ext (r1 r2 : string → string → bool) (ws : list Bus.write) :
  (∀ w, w ∈ ws → ∀ path, r1 (More.target w) path = r2 (More.target w) path) →
  Bus.perform r1 ws = Bus.perform r2 ws.
Proof.
  induction ws as [|[service path v] ws IH]; simpl; intros H; [done|].
  pose proof (H (Bus.SetValue service path v) ltac:(by left) path) as E.
  simpl in E. rewrite <- E.
  destruct (r1 service path); [done|]. f_equal. apply IH.
  intros w Hw. apply H. by right.
Qed.

(** The writes that the [try] block of a charger sets out to make. *)
Lemma charger_writes_target (b : bus) (cv : Q) (state : option Z)
    (service : string) (w : Bus.write) :
  w ∈ charger_writes b cv state service → More.target w = service.
Proof.
  unfold charger_writes.
  destruct (Monitor.get_int _ _ "/Link/NetworkMode"); [|by intros ?%elem_of_nil].
  intros Hin%perform_subset.
  repeat (apply elem_of_cons in Hin as [->|Hin]; [done|]).
  destruct state; [|by apply elem_of_nil in Hin].
  destruct (Monitor.get_int _ _ "/FirmwareVersion"); [|by apply elem_of_nil in Hin].
  destruct (_ =? _); [|by apply elem_of_nil in Hin].
  apply elem_of_cons in Hin as [->|Hin]; [done | by apply elem_of_nil in Hin].
Qed.
End hub1_writes.

Lemma filter_none {A} (P : A → Prop) `{∀ x, Decision (P x)} (l : list A) :
  (∀ x, x ∈ l → ¬ P x) → filter P l = [].
Proof.
  induction l as [|x l IH]; intros Hl; [done|].
  rewrite filter_cons_False by (apply Hl; by left).
  apply IH. intros y Hy. apply Hl. by right.
Qed.

(** X3: a firing of [_update_solarchargers] writes only to known chargers
    that the supervisor does not hold busy and that have a
    /Link/NetworkMode value, and only when the system publishes an inverter
    service that has a Hub-1 charge voltage; what it writes is 5 to
    /Link/NetworkMode, the inverter's charge voltage to /Link/ChargeVoltage
    or the inverter's state to /State. *)
Theorem hub1_writes_only_to_idle_chargers (b : Hub1Bridge.bus) (st : Hub1Bridge.t) :
  Forall
    (fun w =>
       match w with
       | Bus.SetValue service path v =>
           service ∈ Hub1Bridge.solarchargers st
           ∧ ServiceSupervisor.is_busy (Hub1Bridge.supervisor b) service = false
           ∧ is_Some (Monitor.get_int (Hub1Bridge.monitor b) (Some service)
                        "/Link/NetworkMode")
           ∧ ∃ vebus cv,
               Bus.vebus_service (Hub1Bridge.dbusservice b) = Some vebus
               ∧ Monitor.get_num (Hub1Bridge.monitor b) (Some vebus)
                   "/Hub1/ChargeVoltage" = Some cv
               ∧ ((path = "/Link/NetworkMode" ∧ v = Py.PInt 5)
                  ∨ (path = "/Link/ChargeVoltage" ∧ v = Py.PFloat cv)
                  ∨ (path = "/State"
                     ∧ ∃ s, Monitor.get_int (Hub1Bridge.monitor b) (Some vebus)
                              "/State" = Some s ∧ v = Py.PInt s))
       end)
    (Hub1Bridge.update_solarchargers b st).
Proof.
  apply Forall_forall. intros [service path v] Hin.
  unfold Hub1Bridge.update_solarchargers in Hin.
  destruct (Bus.vebus_service (Hub1Bridge.dbusservice b)) as [vebus|] eqn:Ev;
    [|by apply elem_of_nil in Hin].
  destruct (Monitor.get_num _ (Some vebus) "/Hub1/ChargeVoltage") as [cv|] eqn:Ec;
    [|by apply elem_of_nil in Hin].
  apply list_elem_of_In, in_flat_map in Hin as (x & Hx%list_elem_of_In & Hin).
  apply list_elem_of_In in Hin.
  destruct (ServiceSupervisor.is_busy (Hub1Bridge.supervisor b) x) eqn:Eb;
    [by apply elem_of_nil in Hin|].
  pose proof (charger_writes_target _ _ _ _ _ Hin) as Ht. simpl in Ht. subst x.
  split; [done|]. split; [done|].
  unfold Hub1Bridge.charger_writes in Hin.
  destruct (Monitor.get_int _ (Some service) "/Link/NetworkMode") as [nm|] eqn:En;
    [|by apply elem_of_nil in Hin].
  split; [by eauto|]. exists vebus, cv. split; [done|]. split; [done|].
  apply perform_subset in Hin.
  apply elem_of_cons in Hin as [[= -> ->]|Hin]; [by left|].
  apply elem_of_cons in Hin as [[= -> ->]|Hin]; [right; by left|].
  destruct (Monitor.get_int _ (Some vebus) "/State") as [s|];
    [|by apply elem_of_nil in Hin].
  destruct (Monitor.get_int _ (Some service) "/FirmwareVersion");
    [|by apply elem_of_nil in Hin].
  destruct (_ =? _); [|by apply elem_of_nil in Hin].
  apply elem_of_cons in Hin as [[= -> ->]|Hin]; [|by apply elem_of_nil in Hin].
  right. right. eauto.
Qed.

(** X4: a write that fails on one charger changes nothing for the others:
    when two runs of [_update_solarchargers] differ only in which writes to
    the charger [s] raise [DBusException], they make the same writes, in
    the same order, to every other charger. *)
Theorem hub1_charger_failure_is_isolated
    (d : gmap string Py.pyval) (m : Monitor.t) (sv : ServiceSupervisor.t)
    (r1 r2 : string → string → bool) (st : Hub1Bridge.t) (s : string) :
  (∀ service path, service ≠ s → r1 service path = r2 service path) →
  filter (fun w => More.target w ≠ s)
    (Hub1Bridge.update_solarchargers
       {| Hub1Bridge.dbusservice := d; Hub1Bridge.monitor := m;
          Hub1Bridge.supervisor := sv; Hub1Bridge.set_value_raises := r1 |} st)
  = filter (fun w => More.target w ≠ s)
      (Hub1Bridge.update_solarchargers
         {| Hub1Bridge.dbusservice := d; Hub1Bridge.monitor := m;
            Hub1Bridge.supervisor := sv; Hub1Bridge.set_value_raises := r2 |} st).
Proof.
  intros Hr. unfold Hub1Bridge.update_solarchargers.
  cbn [Hub1Bridge.dbusservice Hub1Bridge.monitor Hub1Bridge.supervisor].
  destruct (Bus.vebus_service d) as [vebus|]; [|done].
  destruct (Monitor.get_num m (Some vebus) "/Hub1/ChargeVoltage") as [cv|]; [|done].
  induction (Hub1Bridge.solarchargers st) as [|x l IH]; [done|].
  cbn [flat_map]. rewrite !filter_app, IH. f_equal.
  destruct (ServiceSupervisor.is_busy sv x); [done|].
  destruct (decide (x = s)) as [->|Hne].
  - transitivity (@nil Bus.write); [|symmetry];
      (apply filter_none; intros w Hw%charger_writes_target Hn; by apply Hn).
  - f_equal. unfold Hub1Bridge.charger_writes.
    cbn [Hub1Bridge.monitor Hub1Bridge.set_value_raises].
    destruct (Monitor.get_int m (Some x) "/Link/NetworkMode"); [|done].
    apply perform_ext. intros w Hw path.
    assert (More.target w = x) as ->; [|by apply Hr].
    repeat (apply elem_of_cons in Hw as [->|Hw]; [done|]).
    destruct (Monitor.get_int m (Some vebus) "/State");
      [|by apply elem_of_nil in Hw].
    destruct (Monitor.get_int m (Some x) "/FirmwareVersion");
      [|by apply elem_of_nil in Hw].
    destruct (_ =? _); [|by apply elem_of_nil in Hw].
    apply elem_of_cons in Hw as [->|Hw]; [done | by apply elem_of_nil in Hw].
Qed.

(** The theorem at work: two chargers have appeared in a Hub-1 system, and
    every write to the first one fails.  The second charger gets its three
    writes all the same, and they are all that is written. *)
Lemma hub1_charger_failure_is_isolated_witness :
  let fails := fun service (_ : string) => bool_decide (service = Scenario.charger) in
  let to_second :=
    [Bus.SetValue Scenario.charger2 "/Link/NetworkMode" (Py.PInt 5);
     Bus.SetValue Scenario.charger2 "/Link/ChargeVoltage" (Py.PFloat (57 # 1));
     Bus.SetValue Scenario.charger2 "/State" (Py.PInt 3)] in
  Hub1Bridge.solarchargers Scenario.two_chargers_known
  = [Scenario.charger; Scenario.charger2]
  ∧ Hub1Bridge.update_solarchargers (Scenario.hub1_two_chargers fails)
      Scenario.two_chargers_known = to_second
  ∧ filter (fun w => More.target w ≠ Scenario.charger)
      (Hub1Bridge.update_solarchargers
         (Scenario.hub1_two_chargers (fun _ _ => false))
         Scenario.two_chargers_known)
    = to_second
  ∧ filter (fun w => More.target w ≠ Scenario.charger)
      (Hub1Bridge.update_solarchargers
         (Scenario.hub1_two_chargers (fun _ _ => false))
         Scenario.two_chargers_known)
    = filter (fun w => More.target w ≠ Scenario.charger)
        (Hub1Bridge.update_solarchargers (Scenario.hub1_two_chargers fails)
           Scenario.two_chargers_known).
Proof.
  cbv zeta.
  split; [vm_compute; reflexivity|]. split; [vm_compute; reflexivity|].
  split; [vm_compute; reflexivity|].
  apply (hub1_charger_failure_is_isolated Scenario.with_inverter
           (Hub1Bridge.monitor (Scenario.hub1_two_chargers (fun _ _ => false)))
           (ServiceSupervisor.sup ServiceSupervisor.start)
           (fun _ _ => false)
           (fun service _ => bool_decide (service = Scenario.charger))
           Scenario.two_chargers_known Scenario.charger).
  intros service path Hne. symmetry. by apply bool_decide_eq_false.
Defined.

Lemma land_0FFF (z : Z) : Z.land z 0x0FFF = z mod 4096.
Proof. change 0x0FFF with (Z.ones 12). by rewrite Z.land_ones. Qed.

(** X5: for a charger that is written to, the inverter's state is pushed to
    its /State exactly when the inverter has a state, the charger's
    firmware version is known and equals 0x117 in its low twelve bits
    (0x117 modulo 0x1000, whatever the higher bits are), and neither that
    write nor the two writes before it, to /Link/NetworkMode and to
    /Link/ChargeVoltage, raise. *)
Theorem hub1_state_pushed_iff
    (b : Hub1Bridge.bus) (cv : Q) (state : option Z) (service : string)
    (v : Py.pyval) :
  Bus.SetValue service "/State" v ∈ Hub1Bridge.charger_writes b cv state service
  ↔ is_Some (Monitor.get_int (Hub1Bridge.monitor b) (Some service)
               "/Link/NetworkMode")
    ∧ (∃ s fw, state = Some s ∧ v = Py.PInt s
               ∧ Monitor.get_int (Hub1Bridge.monitor b) (Some service)
                   "/FirmwareVersion" = Some fw
               ∧ fw mod 4096 = 279)
    ∧ Hub1Bridge.set_value_raises b service "/Link/NetworkMode" = false
    ∧ Hub1Bridge.set_value_raises b service "/Link/ChargeVoltage" = false
    ∧ Hub1Bridge.set_value_raises b service "/State" = false.
Proof.
  unfold Hub1Bridge.charger_writes.
  destruct (Monitor.get_int _ (Some service) "/Link/NetworkMode") as [nm|].
  2: { split; [by intros ?%elem_of_nil | by intros [[? ?] _]]. }
  cbn [Bus.perform].
  destruct (Hub1Bridge.set_value_raises b service "/Link/NetworkMode").
  { split; [by intros ?%elem_of_nil | by intros (_ & _ & ? & _)]. }
  destruct (Hub1Bridge.set_value_raises b service "/Link/ChargeVoltage").
  { split; [|by intros (_ & _ & _ & ? & _)].
    intros [[=]|?%elem_of_nil]%elem_of_cons; done. }
  destruct state as [s|].
  2: { split; [|by intros (_ & (? & ? & ? & _) & _)].
       intros [[=]|[[=]|?%elem_of_nil]%elem_of_cons]%elem_of_cons; done. }
  destruct (Monitor.get_int _ (Some service) "/FirmwareVersion") as [fw|].
  2: { split; [|by intros (_ & (? & ? & _ & _ & ? & _) & _)].
       intros [[=]|[[=]|?%elem_of_nil]%elem_of_cons]%elem_of_cons; done. }
  rewrite land_0FFF. destruct (Z.eqb_spec (fw mod 4096) 0x0117) as [Hfw|Hfw].
  - cbn [Bus.perform].
    destruct (Hub1Bridge.set_value_raises b service "/State").
    + split; [|by intros (_ & _ & _ & _ & ?)].
      intros [[=]|[[=]|?%elem_of_nil]%elem_of_cons]%elem_of_cons; done.
    + split.
      * intros [[=]|[[=]|[[= ->]|?%elem_of_nil]%elem_of_cons]%elem_of_cons]%elem_of_cons;
          [|done].
        split; [eauto|]. split; [|done]. by exists s, fw.
      * intros (_ & (s' & fw' & [= <-] & -> & _) & _). do 2 right. by left.
  - split.
    + intros [[=]|[[=]|?%elem_of_nil]%elem_of_cons]%elem_of_cons; done.
    + intros (_ & (s' & fw' & _ & _ & [= <-] & ?) & _). done.
Qed.

(** ** Hub1Bridge: the list of chargers counts appearances *)

Lemma occurrences_app (s : string) (l1 l2 : list string) :
  More.occurrences s (l1 ++ l2) = (More.occurrences s l1 + More.occurrences s l2)%nat.
Proof. unfold More.occurrences. by rewrite filter_app, length_app. Qed.

Lemma occurrences_remove (s x : string) (l : list string) :
  More.occurrences s (Py.list_remove x l)
  = (More.occurrences s l - (if decide (s = x) then 1 else 0))%nat.
Proof.
  unfold More.occurrences. induction l as [|y l IH]; simpl; [done|].
  case_bool_decide as Hy.
  - subst y. destruct (decide (s = x)) as [->|Hne].
    + rewrite filter_cons_True by done. simpl. lia.
    + rewrite filter_cons_False by congruence. lia.
  - destruct (decide (y = s)) as [->|Hys].
    + rewrite !filter_cons_True by done. simpl. rewrite IH.
      destruct (decide (s = x)); [congruence | lia].
    + rewrite !filter_cons_False by done. apply IH.
Qed.

Lemma occurrences_pos (s : string) (l : list string) :
  s ∈ l ↔ (0 < More.occurrences s l)%nat.
Proof.
  unfold More.occurrences. induction l as [|y l IH]; simpl.
  - split; [by intros ?%elem_of_nil | lia].
  - destruct (decide (y = s)) as [->|Hne].
    + rewrite filter_cons_True by done. simpl. split; [lia | by left].
    + rewrite filter_cons_False by done. rewrite <- IH.
      split; [intros [?|?]%elem_of_cons; [congruence | done] | by right].
Qed.

(** X6: the bridge keeps one entry per appearance of a charger:
    [device_added] of a solar charger adds one entry for it even when it is
    known already, [device_removed] takes one entry away when there is one,
    and neither touches the entries of another service; a charger is known
    while it has an entry, so one that was announced twice is still known,
    and still written to, after it has been removed once. *)
Theorem hub1_charger_list_counts_appearances
    (service s : string) (b : Hub1Bridge.bus) (st : Hub1Bridge.t) (l : MainLoop.t) :
  More.occurrences s
    (Hub1Bridge.solarchargers (Hub1Bridge.state (Hub1Bridge.device_added service b st l)))
  = (More.occurrences s (Hub1Bridge.solarchargers st)
     + (if decide (s = service ∧ Py.service_type service = Some "solarcharger")
        then 1 else 0))%nat
  ∧ More.occurrences s
      (Hub1Bridge.solarchargers (fst (Hub1Bridge.device_removed service st l)))
    = (More.occurrences s (Hub1Bridge.solarchargers st)
       - (if decide (s = service) then 1 else 0))%nat
  ∧ (s ∈ Hub1Bridge.solarchargers st
     ↔ (0 < More.occurrences s (Hub1Bridge.solarchargers st))%nat).
Proof.
  split; [|split; [|apply occurrences_pos]].
  - unfold Hub1Bridge.device_added.
    destruct (Py.service_type service) as [ty|] eqn:Ety; simpl.
    + case_bool_decide as Hty; simpl.
      * subst ty.
        assert (More.occurrences s (Hub1Bridge.solarchargers st ++ [service])
                = (More.occurrences s (Hub1Bridge.solarchargers st)
                   + (if decide (s = service ∧ Some "solarcharger" = Some "solarcharger")
                      then 1 else 0))%nat) as E.
        { rewrite occurrences_app. f_equal. unfold More.occurrences.
          destruct (decide (service = s)) as [->|Hne].
          - rewrite filter_cons_True by done. by rewrite decide_True.
          - rewrite filter_cons_False by done.
            rewrite decide_False; [done | intros [? _]; congruence]. }
        by destruct (Hub1Bridge.timer st).
      * rewrite decide_False; [lia | intros [_ [= ?]]; congruence].
    + rewrite decide_False; [lia | by intros [_ ?]].
  - unfold Hub1Bridge.device_removed. case_bool_decide as Hin.
    + pose proof (occurrences_remove s service (Hub1Bridge.solarchargers st)) as E.
      destruct (length _ =? 0)%nat; destruct (Hub1Bridge.timer st); done.
    + simpl. destruct (decide (s = service)) as [->|]; [|lia].
      assert (More.occurrences service (Hub1Bridge.solarchargers st) = 0%nat);
        [|lia].
      destruct (More.occurrences service (Hub1Bridge.solarchargers st)) eqn:E;
        [done|]. exfalso. apply Hin, occurrences_pos. lia.
Qed.

(** ** ServiceSupervisor: what a pass probes *)

(** X7: one pass of [_process_supervised] calls every supervised service
    exactly once and no other service, and leaves exactly the supervised
    services added to the busy set; a second pass right after it issues
    the same calls and changes neither set. *)
Theorem pass_probes_each_supervised_service_once (st : ServiceSupervisor.t) :
  let st1 := fst (ServiceSupervisor.process_supervised st) in
  let called := ServiceSupervisor.calls (snd (ServiceSupervisor.process_supervised st)) in
  NoDup called
  ∧ (∀ s, s ∈ called ↔ s ∈ ServiceSupervisor.supervised st)
  ∧ ServiceSupervisor.busy st1
    = ServiceSupervisor.supervised st ∪ ServiceSupervisor.busy st
  ∧ ServiceSupervisor.supervised st1 = ServiceSupervisor.supervised st
  ∧ ServiceSupervisor.process_supervised st1
    = (st1, snd (ServiceSupervisor.process_supervised st)).
Proof.
  cbv zeta.
  destruct (process_supervised_spec st) as (H1 & H2 & H3).
  rewrite H3, calls_probe_effects.
  split; [apply NoDup_elements|]. split; [intros s; apply elem_of_elements|].
  split; [done|]. split; [done|].
  destruct (process_supervised_spec (fst (ServiceSupervisor.process_supervised st)))
    as (H1' & H2' & H3').
  destruct (ServiceSupervisor.process_supervised st) as [st1 es1]. simpl in *.
  destruct (ServiceSupervisor.process_supervised st1) as [st2 es2]. simpl in *.
  subst es1 es2. rewrite H1. f_equal.
  destruct st1 as [sup1 busy1], st2 as [sup2 busy2]. simpl in *. subst.
  f_equal. set_solver.
Qed.

Section supervisor_types.
Import ServiceSupervisor.

Lemma device_added_watched (service : string) (st : t) (s : string) :
  s ∈ supervised (fst (device_added service st)) →
  s ∈ supervised st ∨ SupervisorMore.watched s.
Proof.
  unfold device_added, SupervisorMore.watched.
  destruct (Py.service_type service) as [ty|] eqn:Ety; simpl; [|by left].
  do 2 case_bool_decide; simpl; try (by left); subst;
    (intros [->%elem_of_singleton|?]%elem_of_union; [right | by left]); auto.
Qed.

Lemma list_remove_subset (x y : string) (l : list string) :
  y ∈ Py.list_remove x l → y ∈ l.
Proof.
  induction l as [|z l IH]; simpl; [done|].
  case_bool_decide; [by right|].
  intros [->|?]%elem_of_cons; [by left | right; auto].
Qed.

Lemma run_watched (es : list event) (w : sys) :
  (∀ s, s ∈ supervised (sup w) ∨ s ∈ pending w → SupervisorMore.watched s) →
  ∀ s, s ∈ supervised (sup (run es w)) ∨ s ∈ pending (run es w) →
       SupervisorMore.watched s.
Proof.
  revert w. induction es as [|e es IH]; intros w Hw; simpl; [done|].
  apply IH. clear IH. intros s.
  destruct e as [x|x| |x|x n lk kr]; simpl.
  - intros [Hs|Hs]; [|by auto].
    apply device_added_watched in Hs as [?|?]; auto.
  - intros [Hs|Hs]; [|by auto]. apply Hw. left. set_solver.
  - destruct (process_supervised_spec (sup w)) as (H1 & _ & H3).
    destruct (process_supervised (sup w)) as [st es']. simpl in *.
    rewrite H1, H3, calls_probe_effects.
    intros [Hs|[Hs|Hs%elem_of_elements]%elem_of_app]; auto.
  - intros [Hs|Hs%list_remove_subset]; auto.
  - rewrite supervise_failed_state. simpl.
    intros [Hs|Hs%list_remove_subset]; auto.
Qed.
End supervisor_types.

(** X8: whatever devices appear and disappear, only services whose type
    (the third component of the name) is battery or solarcharger are ever
    supervised, marked busy or probed; an inverter or any other service is
    never called by the supervisor. *)
Theorem supervisor_watches_only_batteries_and_chargers
    (es : list ServiceSupervisor.event) :
  let w := ServiceSupervisor.run es ServiceSupervisor.start in
  Forall SupervisorMore.watched
    (elements (ServiceSupervisor.supervised (ServiceSupervisor.sup w))
     ++ elements (ServiceSupervisor.busy (ServiceSupervisor.sup w))
     ++ ServiceSupervisor.pending w).
Proof.
  cbv zeta.
  pose proof (run_watched es ServiceSupervisor.start) as H.
  pose proof (run_busy_supervised es ServiceSupervisor.start) as Hb.
  unfold ServiceSupervisor.busy_supervised in Hb.
  apply Forall_forall. intros s Hs. apply H.
  - simpl. intros s' [?|?%elem_of_nil]; [set_solver | done].
  - apply elem_of_app in Hs as [Hs%elem_of_elements|Hs]; [by left|].
    apply elem_of_app in Hs as [Hs%elem_of_elements|Hs]; [|by right].
    left. apply Hb; [|done]. simpl. set_solver.
Qed.

(** ** BuzzerControl: what reaches the file *)

Section buzzer_tokens.
Import BuzzerControl BuzzerMore.

Lemma set_buzzer_tokens_ok (content : string) (on : bool) (o : io) (st : t) :
  tokens_ok content st → tokens_ok content (fst (set_buzzer on o st)).
Proof.
  intros [Hr Hf]. unfold tokens_ok.
  assert (token on = "0" ∨ token on = "1") as Ht by (destruct on; auto).
  destruct o; simpl; (split; [apply Forall_app; split; [done | by constructor]|]).
  - destruct on; simpl; set_solver.
  - done.
  - set_solver.
Qed.

Lemma step_tokens_ok (content : string) (w : t * MainLoop.t) (e : event) :
  tokens_ok content (fst w) → tokens_ok content (fst (step w e)).
Proof.
  destruct w as [st l]. simpl. intros Hst. destruct e as [value o|id o]; simpl.
  - unfold on_buzzer_state_changed.
    destruct (value =? 1); destruct (timer st); simpl; try done;
      by apply set_buzzer_tokens_ok.
  - destruct (MainLoop.sources l !! id) as [[i cb]|]; [|done].
    destruct cb; simpl; try done. by apply set_buzzer_tokens_ok.
Qed.

Lemma run_tokens_ok (content : string) (es : list event) (w : t * MainLoop.t) :
  tokens_ok content (fst w) → tokens_ok content (fst (run es w)).
Proof.
  revert w. induction es as [|e es IH]; intros w Hw; simpl; [done|].
  apply IH. by apply step_tokens_ok.
Qed.

Lemma step_silent_when_stopped (w : t * MainLoop.t) (e : event) :
  timer_invariant w → silent_when_stopped w → silent_when_stopped (step w e).
Proof.
  destruct w as [st l]. unfold timer_invariant, silent_when_stopped, MainLoop.owns.
  simpl. intros [Hwf Hown] Hs. destruct e as [value o|id o]; simpl.
  - unfold on_buzzer_state_changed.
    destruct (value =? 1); destruct (timer st) as [id|] eqn:Ht; cbn [fst snd].
    + intros H. congruence.
    + unfold MainLoop.timeout_add. cbn [fst]. by rewrite set_buzzer_timer.
    + intros _. right. rewrite set_buzzer_requested. apply last_snoc.
    + intros _. by apply Hs.
  - destruct (MainLoop.sources l !! id) as [[i cb]|] eqn:Es; [|done].
    destruct cb; simpl; try done.
    unfold on_timer. rewrite set_buzzer_timer. intros Ht.
    rewrite Ht in Hown.
    assert (id ∈ MainLoop.active MainLoop.BuzzerOnTimer l) as Hin
      by (apply active_lookup; eauto).
    rewrite Hown in Hin. set_solver.
Qed.

Lemma run_silent_when_stopped (es : list event) (w : t * MainLoop.t) :
  timer_invariant w → silent_when_stopped w → silent_when_stopped (run es w).
Proof.
  revert w. induction es as [|e es IH]; intros w Hi Hs; simpl; [done|].
  apply IH; [by apply buzzer_step_invariant | by apply step_silent_when_stopped].
Qed.
End buzzer_tokens.

(** X9: whatever is written to /Buzzer/State and whenever the timer fires,
    the only tokens that the buzzer sets out to write to its file are 0 and
    1, and the file holds what it held at the start, nothing (a write that
    failed after the file was opened), 0 or 1. *)
Theorem buzzer_writes_only_tokens
    (content : string) (l0 : MainLoop.t) (es : list BuzzerControl.event) :
  let st := fst (BuzzerControl.run es (BuzzerControl.init content, l0)) in
  Forall (fun tk => tk = "0" ∨ tk = "1") (BuzzerControl.requested st)
  ∧ BuzzerControl.file st ∈ [content; EmptyString; "0"; "1"].
Proof.
  cbv zeta. apply (run_tokens_ok content es (BuzzerControl.init content, l0)).
  split; [by constructor | simpl; set_solver].
Qed.

(** X10: the buzzer is never left sounding without its timer: in every
    state that it reaches from a main loop without buzzer sources, when
    [_timer] is [None] then either nothing was ever written to the file or
    the last token that the buzzer set out to write is 0. *)
Theorem buzzer_silent_when_stopped
    (content : string) (l0 : MainLoop.t) (es : list BuzzerControl.event) :
  MainLoop.wf l0 →
  MainLoop.active MainLoop.BuzzerOnTimer l0 = ∅ →
  let st := fst (BuzzerControl.run es (BuzzerControl.init content, l0)) in
  BuzzerControl.timer st = None →
  BuzzerControl.requested st = []
  ∨ last (BuzzerControl.requested st) = Some "0".
Proof.
  intros Hwf Hact. cbv zeta.
  apply (run_silent_when_stopped es (BuzzerControl.init content, l0)).
  - by split.
  - intros _. by left.
Qed.

(** The theorem at work: the buzzer is started, blinks once and is stopped. *)
Lemma buzzer_silent_when_stopped_witness :
  MainLoop.wf MainLoop.empty
  ∧ MainLoop.active MainLoop.BuzzerOnTimer MainLoop.empty = ∅
  ∧ BuzzerControl.timer
      (fst (BuzzerControl.run
              [BuzzerControl.StateWritten 1 BuzzerControl.IoOk;
               BuzzerControl.TimerFired 1 BuzzerControl.IoOk;
               BuzzerControl.StateWritten 0 BuzzerControl.IoOk]
              (BuzzerControl.init "1", MainLoop.empty))) = None
  ∧ (BuzzerControl.requested
       (fst (BuzzerControl.run
               [BuzzerControl.StateWritten 1 BuzzerControl.IoOk;
                BuzzerControl.TimerFired 1 BuzzerControl.IoOk;
                BuzzerControl.StateWritten 0 BuzzerControl.IoOk]
               (BuzzerControl.init "1", MainLoop.empty))) = []
     ∨ last (BuzzerControl.requested
               (fst (BuzzerControl.run
                       [BuzzerControl.StateWritten 1 BuzzerControl.IoOk;
                        BuzzerControl.TimerFired 1 BuzzerControl.IoOk;
                        BuzzerControl.StateWritten 0 BuzzerControl.IoOk]
                       (BuzzerControl.init "1", MainLoop.empty)))) = Some "0").
Proof.
  assert (BuzzerControl.timer
            (fst (BuzzerControl.run
                    [BuzzerControl.StateWritten 1 BuzzerControl.IoOk;
                     BuzzerControl.TimerFired 1 BuzzerControl.IoOk;
                     BuzzerControl.StateWritten 0 BuzzerControl.IoOk]
                    (BuzzerControl.init "1", MainLoop.empty))) = None) as Ht
    by (vm_compute; reflexivity).
  split; [apply wf_empty|]. split; [apply active_empty|]. split; [exact Ht|].
  exact (buzzer_silent_when_stopped "1" MainLoop.empty _ wf_empty
           (active_empty MainLoop.BuzzerOnTimer) Ht).
Defined.

(** X11: the blink: once a write of 1 has started a stopped buzzer and the
    file could be written, the file holds 1, and every firing of the timer
    whose write succeeds flips it, so after [n] firings it holds 1 when [n]
    is even and 0 when [n] is odd, and [_buzzer_on] agrees with it. *)
Theorem buzzer_blinks
    (st : BuzzerControl.t) (l : MainLoop.t) (n : nat) :
  BuzzerControl.timer st = None →
  let id := MainLoop.next_id l in
  let started :=
    BuzzerControl.step (st, l) (BuzzerControl.StateWritten 1 BuzzerControl.IoOk) in
  let w :=
    BuzzerControl.run
      (replicate n (BuzzerControl.TimerFired id BuzzerControl.IoOk)) started in
  BuzzerControl.timer (fst w) = Some id
  ∧ BuzzerControl.buzzer_on (fst w) = Nat.even n
  ∧ BuzzerControl.file (fst w) = BuzzerControl.token (Nat.even n).
Proof.
  intros Ht. cbv zeta. simpl.
  unfold BuzzerControl.on_buzzer_state_changed. simpl. rewrite Ht. simpl.
  set (l1 := {| MainLoop.next_id := S (MainLoop.next_id l);
                MainLoop.sources := _ |}).
  assert (MainLoop.sources l1 !! MainLoop.next_id l
          = Some (500, MainLoop.BuzzerOnTimer)) as Hsrc by apply lookup_insert_eq.
  clearbody l1.
  assert (∀ k st1,
            BuzzerControl.timer st1 = Some (MainLoop.next_id l) →
            let w := BuzzerControl.run
                       (replicate k (BuzzerControl.TimerFired (MainLoop.next_id l)
                                       BuzzerControl.IoOk)) (st1, l1) in
            BuzzerControl.timer (fst w) = Some (MainLoop.next_id l)
            ∧ BuzzerControl.buzzer_on (fst w)
              = (if Nat.even k then BuzzerControl.buzzer_on st1
                 else negb (BuzzerControl.buzzer_on st1))
            ∧ (BuzzerControl.file st1 = BuzzerControl.token (BuzzerControl.buzzer_on st1) →
               BuzzerControl.file (fst w)
               = BuzzerControl.token (BuzzerControl.buzzer_on (fst w)))) as Hk.
  { intros k. induction k as [|k IH]; intros st1 Ht1; cbv zeta.
    - simpl. done.
    - cbn [replicate].
      change (BuzzerControl.run (?e :: ?es) ?w)
        with (BuzzerControl.run es (BuzzerControl.step w e)).
      assert (BuzzerControl.step (st1, l1)
                (BuzzerControl.TimerFired (MainLoop.next_id l) BuzzerControl.IoOk)
              = (BuzzerControl.on_timer BuzzerControl.IoOk st1, l1)) as ->.
      { simpl. by rewrite Hsrc. }
      destruct (IH (BuzzerControl.on_timer BuzzerControl.IoOk st1) Ht1)
        as (H1 & H2 & H3).
      split; [exact H1|]. split.
      + rewrite H2. rewrite Nat.even_succ, <- Nat.negb_even. simpl.
        destruct (Nat.even k); simpl; by rewrite ?negb_involutive.
      + intros _. by apply H3. }
  destruct (Hk n (fst (BuzzerControl.set_buzzer true BuzzerControl.IoOk
                         (BuzzerControl.set_timer (Some (MainLoop.next_id l)) st)))
              eq_refl) as (H1 & H2 & H3).
  simpl in *. split; [exact H1|].
  assert (BuzzerControl.buzzer_on
            (fst (BuzzerControl.run
                    (replicate n (BuzzerControl.TimerFired (MainLoop.next_id l)
                                    BuzzerControl.IoOk))
                    ({| BuzzerControl.buzzer_on := true;
                        BuzzerControl.timer := Some (MainLoop.next_id l);
                        BuzzerControl.file := "1";
                        BuzzerControl.requested :=
                          BuzzerControl.requested st ++ ["1"] |}, l1)))
          = Nat.even n) as Hon.
  { rewrite H2. by destruct (Nat.even n). }
  split; [exact Hon|]. rewrite <- Hon. by apply H3.
Qed.

(** The theorem at work on a buzzer that has just been found. *)
Lemma buzzer_blinks_witness :
  BuzzerControl.timer (BuzzerControl.init "0") = None
  ∧ BuzzerControl.file
      (fst (BuzzerControl.run
              (replicate 3 (BuzzerControl.TimerFired 1 BuzzerControl.IoOk))
              (BuzzerControl.step (BuzzerControl.init "0", MainLoop.empty)
                 (BuzzerControl.StateWritten 1 BuzzerControl.IoOk)))) = "0".
Proof.
  split; [reflexivity|].
  apply (buzzer_blinks (BuzzerControl.init "0") MainLoop.empty 3 eq_refl).
Defined.

(** ** LgCircuitBreakerDetect: the window as a stream *)

Section lg_more.
Import LgCircuitBreakerDetect LgMore.

Lemma last_n_last_n_app {A} (n : nat) (l l' : list A) :
  Py.last_n n (Py.last_n n l ++ l') = Py.last_n n (l ++ l').
Proof.
  destruct (decide (length l ≤ n)%nat) as [Hle|Hgt].
  - by rewrite (last_n_all n l).
  - unfold Py.last_n at 1 3.
    rewrite !length_app, last_n_length.
    replace (Nat.min n (length l) + length l' - n)%nat with (length l') by lia.
    replace (length l + length l' - n)%nat
      with ((length l - n) + length l')%nat by lia.
    rewrite <- drop_drop. rewrite (drop_app_le l l' (length l - n)) by lia. done.
Qed.

(** What one tick does to the window and to the tracked battery, whatever
    the state. *)
Lemma tick_window (newvalues : gmap string Py.pyval) (b : bus) (st : t)
    (buf : list Q) :
  lg_voltage_buffer st = Some buf →
  let r := update_values newvalues b st in
  lg_battery (state r) = lg_battery st
  ∧ (lg_voltage_buffer (state r) = Some buf
     ∨ lg_voltage_buffer (state r) = Some []
     ∨ ∃ v, lg_voltage_buffer (state r) = Some (Py.last_n 40 (buf ++ [v]))).
Proof.
  intros Hbuf. cbv zeta. unfold update_values. rewrite Hbuf.
  destruct (lg_battery st) as [battery|] eqn:Hb; [|by auto].
  destruct (snapshot_vebus newvalues) as [vebus_path|]; [|by auto].
  destruct (Monitor.get_num _ (Some battery) "/Dc/0/Current") as [i|];
    [|by auto].
  destruct (Py.Qltb _ _); [by auto|].
  destruct (Monitor.get_num _ (Some vebus_path) "/Dc/0/Voltage") as [v|];
    [|by auto].
  destruct (window_spec buf v) as (Hw & _ & _).
  destruct (window buf v) as [buf1 evaluate]. simpl in Hw. subst buf1.
  assert (∀ r, lg_battery (state r) = Some battery →
               lg_voltage_buffer (state r) = Some (Py.last_n 40 (buf ++ [v])) →
               lg_battery (state r) = Some battery
               ∧ (lg_voltage_buffer (state r) = Some buf
                  ∨ lg_voltage_buffer (state r) = Some []
                  ∨ ∃ v0, lg_voltage_buffer (state r)
                          = Some (Py.last_n 40 (buf ++ [v0])))) as Hkeep.
  { intros r H1 H2. split; [done|]. right. right. by exists v. }
  destruct evaluate; cbn [negb]; [|by apply Hkeep].
  destruct (Py.py_min _); [|by apply Hkeep].
  destruct (Py.py_max _); [|by apply Hkeep].
  destruct (Monitor.get_num _ (Some battery) "/Dc/0/Voltage"); [|by apply Hkeep].
  destruct (out_of_band _ _ _); [|by apply Hkeep].
  case_bool_decide; [|by apply Hkeep].
  destruct (set_value_raises b); [by apply Hkeep | by auto].
Qed.

Lemma tick_window_length (newvalues : gmap string Py.pyval) (b : bus) (st : t)
    (buf : list Q) :
  lg_voltage_buffer st = Some buf →
  ∃ buf', lg_voltage_buffer (state (update_values newvalues b st)) = Some buf'
          ∧ (length buf' ≤ S (length buf))%nat.
Proof.
  intros Hbuf.
  destruct (tick_window newvalues b st buf Hbuf) as (_ & [H|[H|[v H]]]);
    rewrite H; eexists; (split; [done|]); try (simpl; lia).
  rewrite last_n_length, length_app. cbn [length]. lia.
Qed.

(** A tick writes to the bus only from a window of 19 samples or more, and
    then leaves the window empty. *)
Lemma tick_fires_late (newvalues : gmap string Py.pyval) (b : bus) (st : t) :
  let r := update_values newvalues b st in
  writes r = []
  ∨ ∃ buf, lg_voltage_buffer st = Some buf ∧ (19 ≤ length buf)%nat
           ∧ lg_voltage_buffer (state r) = Some [].
Proof.
  cbv zeta. unfold update_values.
  destruct (lg_battery st) as [battery|]; [|by left].
  destruct (snapshot_vebus newvalues) as [vebus_path|]; [|by left].
  destruct (lg_voltage_buffer st) as [buf|]; [|by left].
  destruct (Monitor.get_num _ (Some battery) "/Dc/0/Current") as [i|];
    [|by left].
  destruct (Py.Qltb _ _); [by left|].
  destruct (Monitor.get_num _ (Some vebus_path) "/Dc/0/Voltage") as [v|];
    [|by left].
  destruct (window_spec buf v) as (_ & Hev & _).
  destruct (window buf v) as [buf1 evaluate]. simpl in Hev.
  destruct evaluate; cbn [negb]; [|by left].
  destruct (Py.py_min _); [|by left].
  destruct (Py.py_max _); [|by left].
  destruct (Monitor.get_num _ (Some battery) "/Dc/0/Voltage"); [|by left].
  destruct (out_of_band _ _ _); [|by left].
  case_bool_decide; [|by left].
  destruct (set_value_raises b); [by left|].
  right. exists buf. split; [done|]. split; [|done].
  assert (20 ≤ length (buf ++ [v]))%nat as Hlen by by apply Hev.
  rewrite length_app in Hlen. simpl in Hlen. lia.
Qed.
End lg_more.

(** X12: a tick fires the alarm only from a window that held at least 19
    samples before the tick, and leaves the window empty when it does; so
    when the window holds [k] samples, no run of fewer than [20 - k] ticks
    writes anything to the bus: after an alarm, and after every reset of
    the window, at least 20 ticks pass before the inverter can be switched
    off. *)
Theorem alarm_needs_twenty_samples :
  (∀ newvalues b st,
     let r := LgCircuitBreakerDetect.update_values newvalues b st in
     LgCircuitBreakerDetect.writes r = []
     ∨ ∃ buf, LgCircuitBreakerDetect.lg_voltage_buffer st = Some buf
              ∧ (19 ≤ length buf)%nat
              ∧ LgCircuitBreakerDetect.lg_voltage_buffer
                  (LgCircuitBreakerDetect.state r) = Some [])
  ∧ (∀ ticks st buf,
       LgCircuitBreakerDetect.lg_voltage_buffer st = Some buf →
       (length buf + length ticks < 20)%nat →
       LgMore.all_writes ticks st = []).
Proof.
  split; [apply tick_fires_late|].
  intros ticks. induction ticks as [|[nv b] ticks IH]; intros st buf Hbuf Hlen;
    simpl; [done|].
  destruct (tick_fires_late nv b st) as [Hw|(buf' & Hbuf' & Hge & _)].
  - rewrite Hw. simpl.
    destruct (tick_window_length nv b st buf Hbuf) as (buf1 & Hbuf1 & Hlen1).
    apply (IH _ buf1 Hbuf1). simpl in Hlen. lia.
  - rewrite Hbuf in Hbuf'. injection Hbuf' as <-. simpl in Hlen. lia.
Qed.

(** X13: a tick either leaves the published alarm value as it is or sets
    it to 2; so an alarm that has been raised stays at 2 through every run
    of ticks, and is only taken back when an LG battery appears or the
    tracked one goes away. *)
Theorem alarm_is_latched :
  (∀ newvalues b st,
     let r := LgCircuitBreakerDetect.update_values newvalues b st in
     LgCircuitBreakerDetect.alarm (LgCircuitBreakerDetect.state r)
     = LgCircuitBreakerDetect.alarm st
     ∨ LgCircuitBreakerDetect.alarm (LgCircuitBreakerDetect.state r)
       = Some (Py.PInt 2))
  ∧ (∀ ticks st,
       LgCircuitBreakerDetect.alarm st = Some (Py.PInt 2) →
       LgCircuitBreakerDetect.alarm
         (LgCircuitBreakerDetect.run (LgMore.as_events ticks) st)
       = Some (Py.PInt 2)).
Proof.
  assert (∀ newvalues b st,
            LgCircuitBreakerDetect.alarm
              (LgCircuitBreakerDetect.state
                 (LgCircuitBreakerDetect.update_values newvalues b st))
            = LgCircuitBreakerDetect.alarm st
            ∨ LgCircuitBreakerDetect.alarm
                (LgCircuitBreakerDetect.state
                   (LgCircuitBreakerDetect.update_values newvalues b st))
              = Some (Py.PInt 2)) as Htick.
  { intros newvalues b st. unfold LgCircuitBreakerDetect.update_values.
    destruct (LgCircuitBreakerDetect.lg_battery st) as [battery|]; [|by left].
    destruct (snapshot_vebus newvalues) as [vebus_path|]; [|by left].
    destruct (LgCircuitBreakerDetect.lg_voltage_buffer st) as [buf|]; [|by left].
    destruct (Monitor.get_num _ (Some battery) "/Dc/0/Current") as [i|];
      [|by left].
    destruct (Py.Qltb _ _); [by left|].
    destruct (Monitor.get_num _ (Some vebus_path) "/Dc/0/Voltage") as [v|];
      [|by left].
    destruct (LgCircuitBreakerDetect.window buf v) as [buf1 evaluate].
    destruct evaluate; cbn [negb]; [|by left].
    destruct (Py.py_min _); [|by left].
    destruct (Py.py_max _); [|by left].
    destruct (Monitor.get_num _ (Some battery) "/Dc/0/Voltage"); [|by left].
    destruct (LgCircuitBreakerDetect.out_of_band _ _ _); [|by left].
    case_bool_decide; [|by left].
    destruct (LgCircuitBreakerDetect.set_value_raises b); right;
      apply alarm_insert. }
  split; [exact Htick|].
  intros ticks. induction ticks as [|[nv b] ticks IH]; intros st Hst; [done|].
  simpl. apply IH. destruct (Htick nv b st) as [H|H]; congruence.
Qed.

Section lg_stream.
Import LgCircuitBreakerDetect LgMore.

(** A tick at rest that writes nothing appends its sample to the window. *)
Lemma rest_tick_window (battery : string) (newvalues : gmap string Py.pyval)
    (b : bus) (v : Q) (st : t) (buf : list Q) :
  lg_battery st = Some battery →
  lg_voltage_buffer st = Some buf →
  rest_sample battery (newvalues, b) v →
  writes (update_values newvalues b st) = [] →
  lg_battery (state (update_values newvalues b st)) = Some battery
  ∧ lg_voltage_buffer (state (update_values newvalues b st))
    = Some (Py.last_n 40 (buf ++ [v])).
Proof.
  intros Hb Hbuf (vebus_path & i & Hv & Hi & Hrest & Hs). cbn [fst snd] in *.
  apply Qltb_ge in Hrest.
  unfold update_values. rewrite Hb, Hv, Hbuf, Hi, Hrest, Hs.
  destruct (window_spec buf v) as (Hw & _ & _).
  destruct (window buf v) as [buf1 evaluate]. simpl in Hw. subst buf1.
  destruct evaluate; cbn [negb]; [|by rewrite <- Hb].
  destruct (Py.py_min _); [|by rewrite <- Hb].
  destruct (Py.py_max _); [|by rewrite <- Hb].
  destruct (Monitor.get_num _ (Some battery) "/Dc/0/Voltage"); [|by rewrite <- Hb].
  destruct (out_of_band _ _ _); [|by rewrite <- Hb].
  case_bool_decide; [|by rewrite <- Hb].
  destruct (set_value_raises b); [by rewrite <- Hb | done].
Qed.
End lg_stream.

(** X14: the window is the tail of the stream of samples: over a run of
    ticks at rest that write nothing to the bus, each with an inverter
    voltage, a window of at most 40 samples ends as the last 40 of the
    samples it held followed by the voltages read, oldest first. *)
Theorem window_is_last_40_of_stream
    (battery : string)
    (ticks : list (gmap string Py.pyval * LgCircuitBreakerDetect.bus))
    (vs : list Q) (st : LgCircuitBreakerDetect.t) (buf : list Q) :
  LgCircuitBreakerDetect.lg_battery st = Some battery →
  LgCircuitBreakerDetect.lg_voltage_buffer st = Some buf →
  (length buf ≤ 40)%nat →
  Forall2 (LgMore.rest_sample battery) ticks vs →
  LgMore.all_writes ticks st = [] →
  LgCircuitBreakerDetect.lg_voltage_buffer
    (LgCircuitBreakerDetect.run (LgMore.as_events ticks) st)
  = Some (Py.last_n 40 (buf ++ vs)).
Proof.
  intros Hb Hbuf Hlen Hticks. revert st buf Hb Hbuf Hlen.
  induction Hticks as [|[nv b] v ticks vs Hv Hticks IH];
    intros st buf Hb Hbuf Hlen Hw.
  - simpl. rewrite app_nil_r, last_n_all by done. done.
  - simpl in Hw. apply app_eq_nil in Hw as [Hw1 Hw2].
    destruct (rest_tick_window battery nv b v st buf Hb Hbuf Hv Hw1) as [Hb1 Hbuf1].
    simpl.
    rewrite (IH _ _ Hb1 Hbuf1); [|rewrite last_n_length; lia | done].
    rewrite last_n_last_n_app, <- app_assoc. done.
Qed.

(** The theorem at work: three ticks at rest at 50 V, then one at 52 V. *)
Lemma window_is_last_40_of_stream_witness :
  LgCircuitBreakerDetect.lg_voltage_buffer
    (LgCircuitBreakerDetect.run
       (LgMore.as_events
          [(Scenario.with_inverter, Scenario.at_rest (52 # 1) false)])
       (Scenario.rested 3))
  = Some (Py.last_n 40 ([50 # 1; 50 # 1; 50 # 1] ++ [52 # 1]))%Q.
Proof.
  apply (window_is_last_40_of_stream Scenario.battery
           [(Scenario.with_inverter, Scenario.at_rest (52 # 1) false)]
           [52 # 1]%Q (Scenario.rested 3) [50 # 1; 50 # 1; 50 # 1]%Q).
  - vm_compute; reflexivity.
  - vm_compute; reflexivity.
  - simpl; lia.
  - constructor; [|constructor].
    exists Scenario.vebus, (0 # 1)%Q.
    split; [vm_compute; reflexivity|]. split; [vm_compute; reflexivity|].
    split; [by vm_compute | vm_compute; reflexivity].
  - vm_compute; reflexivity.
Defined.

(** X15: missing readings at rest.  Without an inverter voltage the tick
    changes nothing.  With one, the sample is appended; while the window
    holds fewer than 20 samples the tick returns whether or not the battery
    reports a voltage, but from 20 samples on a battery without voltage
    makes the tick end in [TypeError], after the sample has been appended
    and without touching the alarm or the inverter. *)
Theorem tick_with_missing_voltage
    (newvalues : gmap string Py.pyval) (b : LgCircuitBreakerDetect.bus)
    (st : LgCircuitBreakerDetect.t) (battery vebus_path : string)
    (buf : list Q) (i : Q) :
  let mon := LgCircuitBreakerDetect.monitor b in
  LgCircuitBreakerDetect.lg_battery st = Some battery →
  LgCircuitBreakerDetect.lg_voltage_buffer st = Some buf →
  snapshot_vebus newvalues = Some vebus_path →
  Monitor.get_num mon (Some battery) "/Dc/0/Current" = Some i →
  (Qabs i <= 1 # 100)%Q →
  let r := LgCircuitBreakerDetect.update_values newvalues b st in
  (Monitor.get_num mon (Some vebus_path) "/Dc/0/Voltage" = None →
   r = LgCircuitBreakerDetect.returns st)
  ∧ (∀ v, Monitor.get_num mon (Some vebus_path) "/Dc/0/Voltage" = Some v →
          (length (buf ++ [v]) < 20)%nat →
          r = LgCircuitBreakerDetect.returns
                (LgCircuitBreakerDetect.set_buffer (buf ++ [v]) st))
  ∧ (∀ v, Monitor.get_num mon (Some vebus_path) "/Dc/0/Voltage" = Some v →
          (20 ≤ length (buf ++ [v]))%nat →
          Monitor.get_num mon (Some battery) "/Dc/0/Voltage" = None →
          r = LgCircuitBreakerDetect.raises Py.TypeError
                (LgCircuitBreakerDetect.set_buffer (Py.last_n 40 (buf ++ [v])) st)).
Proof.
  cbv zeta. intros Hb Hbuf Hv Hi Hrest. apply Qltb_ge in Hrest.
  unfold LgCircuitBreakerDetect.update_values. rewrite Hb, Hv, Hbuf, Hi, Hrest.
  split; [by intros ->|]. split.
  - intros v -> Hlen.
    destruct (window_spec buf v) as (Hw & Hev & _).
    destruct (LgCircuitBreakerDetect.window buf v) as [buf1 evaluate].
    simpl in Hw, Hev. subst buf1. rewrite last_n_all by lia.
    destruct evaluate; [|done]. destruct Hev as [Hev _].
    specialize (Hev eq_refl). lia.
  - intros v -> Hlen ->.
    destruct (window_spec buf v) as (Hw & Hev & _).
    destruct (LgCircuitBreakerDetect.window buf v) as [buf1 evaluate].
    simpl in Hw, Hev. subst buf1.
    destruct evaluate; [|destruct Hev as [_ Hev]; by specialize (Hev Hlen)].
    cbn [negb].
    assert (is_Some (Py.py_min (Py.last_n 40 (buf ++ [v])))) as [mn ->].
    { destruct (Py.last_n 40 (buf ++ [v])) eqn:E; [|by eexists].
      apply (f_equal length) in E. rewrite last_n_length in E.
      cbn [length] in E. lia. }
    assert (is_Some (Py.py_max (Py.last_n 40 (buf ++ [v])))) as [mx ->].
    { destruct (Py.last_n 40 (buf ++ [v])) eqn:E; [|by eexists].
      apply (f_equal length) in E. rewrite last_n_length in E.
      cbn [length] in E. lia. }
    done.
Qed.

(** The theorem at work: 19 samples at rest, the inverter at 50 V, and a
    battery that reports a current but no voltage. *)
Lemma tick_with_missing_voltage_witness :
  LgCircuitBreakerDetect.ended
    (LgCircuitBreakerDetect.update_values Scenario.with_inverter
       {| LgCircuitBreakerDetect.monitor :=
            {| Monitor.ints := ∅;
               Monitor.nums :=
                 {[ (Scenario.battery, "/Dc/0/Current") := 0 # 1;
                    (Scenario.vebus, "/Dc/0/Voltage") := 50 # 1 ]} |};
          LgCircuitBreakerDetect.items := ∅;
          LgCircuitBreakerDetect.set_value_raises := false |}
       {| LgCircuitBreakerDetect.lg_battery := Some Scenario.battery;
          LgCircuitBreakerDetect.lg_voltage_buffer := Some (replicate 19 (50 # 1)%Q);
          LgCircuitBreakerDetect.dbusservice := ∅ |})
  = Py.Raised Py.TypeError.
Proof.
  assert (Qabs (0 # 1) <= 1 # 100)%Q as Hi by (by vm_compute).
  pose proof
    (tick_with_missing_voltage Scenario.with_inverter
       {| LgCircuitBreakerDetect.monitor :=
            {| Monitor.ints := ∅;
               Monitor.nums :=
                 {[ (Scenario.battery, "/Dc/0/Current") := 0 # 1;
                    (Scenario.vebus, "/Dc/0/Voltage") := 50 # 1 ]} |};
          LgCircuitBreakerDetect.items := ∅;
          LgCircuitBreakerDetect.set_value_raises := false |}
       {| LgCircuitBreakerDetect.lg_battery := Some Scenario.battery;
          LgCircuitBreakerDetect.lg_voltage_buffer := Some (replicate 19 (50 # 1)%Q);
          LgCircuitBreakerDetect.dbusservice := ∅ |}
       Scenario.battery Scenario.vebus (replicate 19 (50 # 1)%Q) (0 # 1)%Q
       eq_refl eq_refl) as H.
  cbv zeta in H.
  assert (snapshot_vebus Scenario.with_inverter = Some Scenario.vebus) as Hv
    by (vm_compute; reflexivity).
  specialize (H Hv).
  destruct H as (_ & _ & H); [vm_compute; reflexivity | exact Hi |].
  rewrite (H (50 # 1)%Q); [done | vm_compute; reflexivity | simpl; lia
                          | vm_compute; reflexivity].
Defined.

(** X16: the band test is the one that binary64 arithmetic gives.  When it
    fires, some sample of the window is itself below the float product
    [0.9 * battery_voltage] or above the float product
    [1.1 * battery_voltage].  At the border the rounding of the product
    decides.  Against a battery at 50.0 V a maximum of 55.00000000000001 V
    does not trip the test although it is above 110 % of 50 V, because
    [1.1 * 50.0] is that very float; a minimum of 45.0 V does not trip it
    either.  Against a battery at 52.0 V a minimum of 46.8 V trips the test
    although 46.8 is 90 % of 52, and so does a minimum of 46.08 V against a
    battery at 51.2 V. *)
Theorem band_test_is_binary64 (w : list Q) (mn mx bv : Q) :
  Py.py_min w = Some mn →
  Py.py_max w = Some mx →
  (LgCircuitBreakerDetect.out_of_band mn mx bv = true →
   ∃ x, x ∈ w
        ∧ (Float.lt (Float.of_Q x) (Float.mul (Float.of_Q (9 # 10)) (Float.of_Q bv))
           ∨ Float.lt (Float.mul (Float.of_Q (11 # 10)) (Float.of_Q bv))
               (Float.of_Q x)))
  ∧ (LgCircuitBreakerDetect.out_of_band
       (50 # 1) (5500000000000001 # 100000000000000) (50 # 1) = false
     ∧ ((11 # 10) * (50 # 1) < 5500000000000001 # 100000000000000)%Q)
  ∧ LgCircuitBreakerDetect.out_of_band (45 # 1) (50 # 1) (50 # 1) = false
  ∧ (LgCircuitBreakerDetect.out_of_band (468 # 10) (52 # 1) (52 # 1) = true
     ∧ (468 # 10 == (9 # 10) * (52 # 1))%Q)
  ∧ (LgCircuitBreakerDetect.out_of_band (4608 # 100) (512 # 10) (512 # 10) = true
     ∧ (4608 # 100 == (9 # 10) * (512 # 10))%Q).
Proof.
  intros Hmn Hmx.
  destruct (py_min_least w mn Hmn) as [Hin_mn _].
  destruct (py_max_greatest w mx Hmx) as [Hin_mx _].
  split; [|repeat split; by vm_compute].
  intros [H|H]%out_of_band_spec; [exists mn | exists mx]; auto.
Qed.

(** The theorem at work: 60 V among samples of 50 V, the battery at 50 V. *)
Lemma band_test_is_binary64_witness :
  Py.py_min [50 # 1; 60 # 1; 50 # 1]%Q = Some (50 # 1)%Q
  ∧ Py.py_max [50 # 1; 60 # 1; 50 # 1]%Q = Some (60 # 1)%Q
  ∧ LgCircuitBreakerDetect.out_of_band (50 # 1) (60 # 1) (50 # 1) = true
  ∧ ∃ x, x ∈ [50 # 1; 60 # 1; 50 # 1]%Q
         ∧ (Float.lt (Float.of_Q x)
              (Float.mul (Float.of_Q (9 # 10)) (Float.of_Q (50 # 1)))
            ∨ Float.lt (Float.mul (Float.of_Q (11 # 10)) (Float.of_Q (50 # 1)))
                (Float.of_Q x)).
Proof.
  assert (LgCircuitBreakerDetect.out_of_band (50 # 1) (60 # 1) (50 # 1) = true)
    as Hband by (vm_compute; reflexivity).
  split; [reflexivity|]. split; [reflexivity|]. split; [exact Hband|].
  apply (band_test_is_binary64 [50 # 1; 60 # 1; 50 # 1]%Q
           (50 # 1) (60 # 1) (50 # 1) eq_refl eq_refl).
  exact Hband.
Defined.

(** X17: the detector follows the LG battery that appeared last.  When a
    second LG battery appears, it replaces the first: the window starts
    empty and the alarm is set to 0; that the first battery goes away then
    changes nothing, and when the second goes away no battery is tracked
    and the alarm is [None], although the first is still on the bus. *)
Theorem detector_follows_newest_battery
    (st : LgCircuitBreakerDetect.t) (mon1 mon2 : Monitor.t) (b1 b2 : string) :
  b1 ≠ b2 →
  LgMore.is_lg mon1 b1 →
  LgMore.is_lg mon2 b2 →
  let st1 := fst (LgCircuitBreakerDetect.device_added b1 mon1 st) in
  let st2 := fst (LgCircuitBreakerDetect.device_added b2 mon2 st1) in
  LgCircuitBreakerDetect.lg_battery st1 = Some b1
  ∧ LgCircuitBreakerDetect.lg_battery st2 = Some b2
  ∧ LgCircuitBreakerDetect.lg_voltage_buffer st2 = Some []
  ∧ LgCircuitBreakerDetect.alarm st2 = Some (Py.PInt 0)
  ∧ LgCircuitBreakerDetect.device_removed b1 st2 = st2
  ∧ LgCircuitBreakerDetect.lg_battery
      (LgCircuitBreakerDetect.device_removed b2 st2) = None
  ∧ LgCircuitBreakerDetect.alarm
      (LgCircuitBreakerDetect.device_removed b2 st2) = Some Py.PNone.
Proof.
  intros Hne [Hty1 Hid1] [Hty2 Hid2]. cbv zeta.
  unfold LgCircuitBreakerDetect.device_added.
  rewrite Hty1, Hid1, Hty2, Hid2. simpl.
  unfold LgCircuitBreakerDetect.device_removed. simpl.
  rewrite bool_decide_eq_false_2 by congruence.
  rewrite bool_decide_eq_true_2 by done. simpl.
  repeat split; try done; apply alarm_insert.
Qed.

(** The theorem at work on two batteries of the same make. *)
Lemma detector_follows_newest_battery_witness :
  LgCircuitBreakerDetect.lg_battery
    (LgCircuitBreakerDetect.device_removed "com.victronenergy.battery.ttyO5"
       (fst (LgCircuitBreakerDetect.device_added "com.victronenergy.battery.ttyO5"
               {| Monitor.ints :=
                    {[ ("com.victronenergy.battery.ttyO5", "/ProductId") := 0xB004 ]};
                  Monitor.nums := ∅ |}
               (fst (LgCircuitBreakerDetect.device_added Scenario.battery
                       Scenario.appeared (LgCircuitBreakerDetect.init ∅))))))
  = None.
Proof.
  apply (detector_follows_newest_battery (LgCircuitBreakerDetect.init ∅)
           Scenario.appeared
           {| Monitor.ints :=
                {[ ("com.victronenergy.battery.ttyO5", "/ProductId") := 0xB004 ]};
              Monitor.nums := ∅ |}
           Scenario.battery "com.victronenergy.battery.ttyO5").
  - discriminate.
  - split; vm_compute; reflexivity.
  - split; vm_compute; reflexivity.
Defined.

(** ** RelayState *)

Example relay_path_12 : RelayState.relay_path 12 = "/Relay/12/State".
Proof. by vm_compute. Qed.

Example join_value_dir :
  RelayState.join_value "/dev/gpio/relay_1" = "/dev/gpio/relay_1/value"
  ∧ RelayState.join_value "/dev/gpio/relay_1/" = "/dev/gpio/relay_1/value"
  ∧ RelayState.join_value EmptyString = "value".
Proof. repeat split; by vm_compute. Qed.

Lemma string_app_length (a b : string) :
  String.length (a +:+ b) = (String.length a + String.length b)%nat.
Proof. induction a as [|c a IH]; simpl; [done | by rewrite IH]. Qed.

Lemma string_app_inj_r (a b c : string) : a +:+ c = b +:+ c → a = b.
Proof.
  revert b. induction a as [|x a IH]; intros [|y b] H.
  - done.
  - apply (f_equal String.length) in H.
    rewrite (string_app_length EmptyString c),
      (string_app_length (String y b) c) in H.
    cbn [String.length] in H. lia.
  - apply (f_equal String.length) in H.
    rewrite (string_app_length EmptyString c),
      (string_app_length (String x a) c) in H.
    cbn [String.length] in H. lia.
  - injection H as -> H. f_equal. by apply IH.
Qed.

Lemma relay_path_inj (i j : nat) :
  RelayState.relay_path i = RelayState.relay_path j → i = j.
Proof.
  unfold RelayState.relay_path. intros H.
  apply (inj (String.app "/Relay/")) in H.
  apply string_app_inj_r in H. by apply (inj pretty) in H.
Qed.

Section relay.
Import RelayState.

Lemma add_relays_spec (dirs : list string) (i : nat) (st : t)
    (ds : gmap string Py.pyval) :
  (∀ k r, dirs !! k = Some r →
          relays (fst (add_relays dirs i st ds)) !! relay_path (i + k)
          = Some (join_value r)
          ∧ snd (add_relays dirs i st ds) !! relay_path (i + k) = Some Py.PNone)
  ∧ (∀ p, (∀ k, (k < length dirs)%nat → p ≠ relay_path (i + k)) →
          relays (fst (add_relays dirs i st ds)) !! p = relays st !! p
          ∧ snd (add_relays dirs i st ds) !! p = ds !! p).
Proof.
  revert i st ds. induction dirs as [|r rest IH]; intros i st ds; simpl.
  - split; [by intros k r | done].
  - destruct (IH (S i) {| relays := <[relay_path i := join_value r]> (relays st) |}
                (<[relay_path i := Py.PNone]> ds)) as [IH1 IH2].
    split.
    + intros [|k] r' Hk; simpl in Hk.
      * injection Hk as <-. rewrite Nat.add_0_r.
        destruct (IH2 (relay_path i)) as [-> ->].
        { intros k _ E. apply relay_path_inj in E. lia. }
        simpl. by rewrite !lookup_insert_eq.
      * replace (i + S k)%nat with (S i + k)%nat by lia. by apply IH1.
    + intros p Hp. destruct (IH2 p) as [-> ->].
      { intros k Hk. replace (S i + k)%nat with (i + S k)%nat by lia.
        apply Hp. lia. }
      simpl. specialize (Hp 0%nat ltac:(lia)). rewrite Nat.add_0_r in Hp.
      by rewrite !lookup_insert_ne.
Qed.

Lemma add_relays_size (dirs : list string) (i : nat) (st : t)
    (ds : gmap string Py.pyval) :
  (∀ k, relays st !! relay_path (i + k) = None) →
  size (relays (fst (add_relays dirs i st ds)))
  = (size (relays st) + length dirs)%nat.
Proof.
  revert i st ds. induction dirs as [|r rest IH]; intros i st ds Hfresh;
    cbn [add_relays length].
  - cbn [fst]. lia.
  - rewrite IH.
    + cbn [relays]. rewrite map_size_insert_None; [lia|].
      specialize (Hfresh 0%nat). by rewrite Nat.add_0_r in Hfresh.
    + intros k. cbn [relays]. rewrite lookup_insert_ne.
      * replace (S i + k)%nat with (i + S k)%nat by lia. apply Hfresh.
      * intros E. apply relay_path_inj in E. lia.
Qed.
End relay.

(** X18: [set_sources] gives the relays found the paths /Relay/0/State,
    /Relay/1/State, ... in the order found: the path with number [k] is
    published with the value [None] and stands for the file [value] in the
    [k]-th directory; the numbered paths are all different, so there are as
    many relays as directories, and no other path is created or changed. *)
Theorem relays_are_numbered_in_order
    (dirs : list string) (dbusservice : gmap string Py.pyval) :
  let st := fst (RelayState.set_sources dirs dbusservice) in
  let published := snd (RelayState.set_sources dirs dbusservice) in
  (∀ k, RelayState.relays st !! RelayState.relay_path k
        = RelayState.join_value <$> dirs !! k)
  ∧ (∀ k, (k < length dirs)%nat →
          published !! RelayState.relay_path k = Some Py.PNone)
  ∧ (∀ p, (∀ k, (k < length dirs)%nat → p ≠ RelayState.relay_path k) →
          RelayState.relays st !! p = None ∧ published !! p = dbusservice !! p)
  ∧ size (RelayState.relays st) = length dirs
  ∧ (∀ i j, RelayState.relay_path i = RelayState.relay_path j → i = j).
Proof.
  cbv zeta. unfold RelayState.set_sources.
  destruct (add_relays_spec dirs 0 {| RelayState.relays := ∅ |} dbusservice)
    as [H1 H2].
  split; [|split; [|split; [|split]]].
  - intros k. destruct (dirs !! k) as [r|] eqn:Ek; cbn [fmap option_fmap option_map].
    + apply (proj1 (H1 k r Ek)).
    + destruct (H2 (RelayState.relay_path k)) as [-> _]; [|done].
      intros k' Hk' E. apply relay_path_inj in E.
      apply lookup_ge_None in Ek. lia.
  - intros k Hk. destruct (lookup_lt_is_Some_2 dirs k Hk) as [r Hr].
    apply (proj2 (H1 k r Hr)).
  - intros p Hp. destruct (H2 p) as [-> ->]; done.
  - rewrite add_relays_size; [|done]. cbn [RelayState.relays].
    rewrite map_size_empty. lia.
  - apply relay_path_inj.
Qed.

(** X19: a refresh publishes, for every relay whose file can be read and
    holds a number, that number under the relay's path; a relay whose file
    is missing or holds no number keeps the value it had, and so does every
    path that is not a relay, whatever the other files hold. *)
Theorem relay_refresh_reads_each_file
    (py_int : string → option Z) (files : gmap string string) (st : RelayState.t)
    (ds : gmap string Py.pyval) (p : string) :
  RelayState.update_relay_state py_int files st ds !! p
  = match RelayState.relays st !! p with
    | Some file_path =>
        match files !! file_path ≫= py_int with
        | Some state => Some (Py.PInt state)
        | None => ds !! p
        end
    | None => ds !! p
    end.
Proof.
  unfold RelayState.update_relay_state.
  apply (map_fold_weak_ind
           (fun (r : gmap string Py.pyval) (m : gmap string string) =>
              r !! p = match m !! p with
                       | Some file_path =>
                           match files !! file_path ≫= py_int with
                           | Some state => Some (Py.PInt state)
                           | None => ds !! p
                           end
                       | None => ds !! p
                       end)).
  - by rewrite lookup_empty.
  - intros i x m r Hi IH. unfold RelayState.refresh.
    destruct (decide (i = p)) as [->|Hne].
    + rewrite lookup_insert_eq. rewrite Hi in IH.
      destruct (files !! x) as [content|]; simpl; [|done].
      destruct (py_int content); [by rewrite lookup_insert_eq | done].
    + rewrite (lookup_insert_ne m) by done. rewrite <- IH.
      destruct (files !! x) as [content|]; simpl; [|done].
      destruct (py_int content); [by rewrite lookup_insert_ne | done].
Qed.

(** X20: a write to a relay path that succeeds puts the token 1 into the
    relay's file when the value is 1 and the token 0 for every other value,
    touches no other file and returns [True]; the next refresh then
    publishes 1 or 0 under that path.  A write that fails returns [False],
    and a path that is not a relay ends in [KeyError] with every file as it
    was. *)
Theorem relay_write_then_refresh
    (py_int : string → option Z) (st : RelayState.t)
    (files : gmap string string) (ds : gmap string Py.pyval)
    (p file_path : string) (value : Z) :
  py_int "0" = Some 0 →
  py_int "1" = Some 1 →
  RelayState.relays st !! p = Some file_path →
  let written :=
    RelayState.on_relay_state_changed p value BuzzerControl.IoOk st files in
  snd written = RelayState.ReturnedTrue
  ∧ fst written !! file_path = Some (if value =? 1 then "1" else "0")
  ∧ (∀ f, f ≠ file_path → fst written !! f = files !! f)
  ∧ RelayState.update_relay_state py_int (fst written) st ds !! p
    = Some (Py.PInt (if value =? 1 then 1 else 0))
  ∧ (∀ o, o ≠ BuzzerControl.IoOk →
          snd (RelayState.on_relay_state_changed p value o st files)
          = RelayState.ReturnedFalse)
  ∧ (∀ q, RelayState.relays st !! q = None →
          RelayState.on_relay_state_changed q value BuzzerControl.IoOk st files
          = (files, RelayState.RaisedKeyError)).
Proof.
  intros H0 H1 Hp. cbv zeta. unfold RelayState.on_relay_state_changed.
  rewrite Hp. cbn [fst snd].
  split; [done|]. split; [apply lookup_insert_eq|].
  split; [intros f Hf; by apply lookup_insert_ne|]. split; [|split].
  - rewrite relay_refresh_reads_each_file, Hp, lookup_insert_eq. simpl.
    destruct (value =? 1); [by rewrite H1 | by rewrite H0].
  - intros o Ho. by destruct o.
  - intros q Hq. by rewrite Hq.
Qed.

(** The theorem at work: relay 0 is switched on. *)
Lemma relay_write_then_refresh_witness :
  RelayState.update_relay_state
    (fun s => if bool_decide (s = "1") then Some 1
              else if bool_decide (s = "0") then Some 0 else None)
    (fst (RelayState.on_relay_state_changed (RelayState.relay_path 0) 1
            BuzzerControl.IoOk
            (fst (RelayState.set_sources ["/dev/gpio/relay_1"] ∅)) ∅))
    (fst (RelayState.set_sources ["/dev/gpio/relay_1"] ∅)) ∅
  !! RelayState.relay_path 0
  = Some (Py.PInt 1).
Proof.
  apply (relay_write_then_refresh
           (fun s => if bool_decide (s = "1") then Some 1
                     else if bool_decide (s = "0") then Some 0 else None)
           (fst (RelayState.set_sources ["/dev/gpio/relay_1"] ∅)) ∅ ∅
           (RelayState.relay_path 0) "/dev/gpio/relay_1/value" 1).
  - reflexivity.
  - reflexivity.
  - vm_compute; reflexivity.
Defined.

(** ** ServiceMapper *)

Section service_mapper.
Import ServiceMapper.

Lemma replace_char_occurs (old new : ascii) (s : string) :
  old ≠ new → occurs old (replace_char old new s) = false.
Proof.
  intros Hne. induction s as [|c s IH]; simpl; [done|]. rewrite IH.
  destruct (Ascii.eqb_spec c old) as [->|Hc].
  - destruct (Ascii.eqb_spec new old); [congruence | done].
  - destruct (Ascii.eqb_spec c old); [congruence | done].
Qed.

Lemma replace_char_keeps_absent (old new c : ascii) (s : string) :
  c ≠ new → occurs c s = false → occurs c (replace_char old new s) = false.
Proof.
  intros Hne. induction s as [|x s IH]; simpl; [done|].
  intros [Hx Hs]%orb_false_iff. rewrite IH by done.
  destruct (Ascii.eqb x old); [|by rewrite Hx].
  destruct (Ascii.eqb_spec new c); [congruence | done].
Qed.

Lemma replace_char_length (old new : ascii) (s : string) :
  String.length (replace_char old new s) = String.length s.
Proof. induction s as [|c s IH]; simpl; [done | by rewrite IH]. Qed.

(** [replace] works character by character: position [k] of the result is
    position [k] of [s], turned into [new] when it is [old]. *)
Lemma replace_char_get (old new : ascii) (s : string) (k : nat) :
  String.get k (replace_char old new s)
  = option_map (fun c => if Ascii.eqb c old then new else c) (String.get k s).
Proof.
  revert k. induction s as [|c s IH]; intros k; simpl; [done|].
  destruct k as [|k]; [done | apply IH].
Qed.
End service_mapper.

(** X21: the path under which a device is listed is /ServiceMapping/
    followed by the name of the service and its instance with every dot and
    every slash turned into an underscore and every other character kept:
    that part has the length of the name, at each position it holds an
    underscore where the name holds a dot or a slash and the character of
    the name otherwise, and so it holds neither a dot nor a slash; every
    device is listed directly under /ServiceMapping. *)
Theorem service_mapping_path_is_flat
    (service_instance_name : string → Z → string) (service : string) (instance : Z) :
  let name := service_instance_name service instance in
  ∃ sn,
    ServiceMapper.get_service_mapping_path service_instance_name service instance
    = "/ServiceMapping/" +:+ sn
    ∧ String.length sn = String.length name
    ∧ (∀ k,
         String.get k sn
         = match String.get k name with
           | Some c =>
               Some (if bool_decide (c = "."%char ∨ c = "/"%char) then "_"%char else c)
           | None => None
           end)
    ∧ ServiceMapper.occurs "." sn = false
    ∧ ServiceMapper.occurs "/" sn = false.
Proof.
  cbv zeta. eexists. split; [reflexivity|]. split; [|split; [|split]].
  - by rewrite !replace_char_length.
  - intros k. rewrite !replace_char_get.
    destruct (String.get k (service_instance_name service instance)) as [c|];
      [|done].
    simpl. f_equal.
    destruct (Ascii.eqb_spec c ".") as [->|Hdot].
    + by rewrite bool_decide_eq_true_2 by (by left).
    + destruct (Ascii.eqb_spec c "/") as [->|Hslash].
      * by rewrite bool_decide_eq_true_2 by (by right).
      * rewrite bool_decide_eq_false_2; [done|]. by intros [?|?].
  - apply replace_char_keeps_absent; [done|]. by apply replace_char_occurs.
  - by apply replace_char_occurs.
Qed.

(** X22: [device_added] lists the service under its path, whether or not
    the path existed, and changes no other path; [device_removed] takes the
    path away and changes no other path.  Two devices whose names give the
    same path share one entry: the one added last is listed, and removing
    either of them removes the entry of both. *)
Theorem service_mapping_add_remove
    (service_instance_name : string → Z → string)
    (ds : gmap string Py.pyval) (s1 s2 : string) (i1 i2 : Z) :
  let path := ServiceMapper.get_service_mapping_path service_instance_name in
  let added := ServiceMapper.device_added service_instance_name in
  let removed := ServiceMapper.device_removed service_instance_name in
  added s1 i1 ds !! path s1 i1 = Some (Py.PStr s1)
  ∧ (∀ q, q ≠ path s1 i1 → added s1 i1 ds !! q = ds !! q)
  ∧ removed s1 i1 ds !! path s1 i1 = None
  ∧ (∀ q, q ≠ path s1 i1 → removed s1 i1 ds !! q = ds !! q)
  ∧ removed s1 i1 (added s1 i1 ds) = delete (path s1 i1) ds
  ∧ (path s2 i2 = path s1 i1 →
     added s2 i2 (added s1 i1 ds) !! path s1 i1 = Some (Py.PStr s2)
     ∧ removed s1 i1 (added s2 i2 (added s1 i1 ds)) !! path s2 i2 = None).
Proof.
  cbv zeta.
  assert (∀ s i d,
            ServiceMapper.device_added service_instance_name s i d
            = <[ServiceMapper.get_service_mapping_path service_instance_name s i
                := Py.PStr s]> d) as Hadd.
  { intros s i d. unfold ServiceMapper.device_added. by case_bool_decide. }
  assert (∀ s i d,
            ServiceMapper.device_removed service_instance_name s i d
            = delete (ServiceMapper.get_service_mapping_path service_instance_name s i) d)
    as Hrem.
  { intros s i d. unfold ServiceMapper.device_removed. case_bool_decide as H; [done|].
    symmetry. apply delete_id.
    destruct (d !! _) eqn:E; [|done]. exfalso. apply H. eauto. }
  rewrite !Hadd, !Hrem.
  split; [apply lookup_insert_eq|].
  split; [intros q Hq; by apply lookup_insert_ne|].
  split; [apply lookup_delete_eq|].
  split; [intros q Hq; by apply lookup_delete_ne|].
  split; [by rewrite delete_insert_eq|].
  intros E. rewrite E.
  split; [apply lookup_insert_eq | apply lookup_delete_eq].
Qed.

(** ** VebusSocWriter *)

(** X23: [_write_vebus_soc] always returns [True], so its timer stays, also
    when the write fails.  It writes at most once, the published state of
    charge to /Soc of the published inverter service, and it does so
    exactly when the setting is not 0, an inverter service and a state of
    charge are published, the active battery service is published and its
    name does not start with com.victronenergy.vebus, and the write does
    not raise: the state of charge that comes from an inverter is never
    written back to an inverter. *)
Theorem vebus_soc_written_iff
    (writevebussoc : Z) (p : VebusSocWriter.published) (set_value_raises : bool) :
  let r := VebusSocWriter.write_vebus_soc writevebussoc p set_value_raises in
  fst r = true
  ∧ (snd r = []
     ∨ ∃ vebus soc,
         VebusSocWriter.vebus_service p = Some vebus
         ∧ VebusSocWriter.battery_soc p = Some soc
         ∧ snd r = [Bus.SetValue vebus "/Soc" (Py.PFloat soc)])
  ∧ (snd r ≠ []
     ↔ writevebussoc ≠ 0
       ∧ is_Some (VebusSocWriter.vebus_service p)
       ∧ is_Some (VebusSocWriter.battery_soc p)
       ∧ (∃ active, VebusSocWriter.active_battery_service p = Some active
                    ∧ String.prefix "com.victronenergy.vebus" active = false)
       ∧ set_value_raises = false).
Proof.
  cbv zeta. unfold VebusSocWriter.write_vebus_soc.
  destruct (Z.eqb_spec writevebussoc 0) as [Hz|Hz]; simpl.
  { split; [done|]. split; [by left|]. split; [done | by intros [? _]]. }
  destruct (VebusSocWriter.vebus_service p) as [vebus|]; simpl.
  2: { split; [done|]. split; [by left|].
       split; [done | by intros (_ & [? ?] & _)]. }
  destruct (VebusSocWriter.battery_soc p) as [soc|]; simpl.
  2: { split; [done|]. split; [by left|].
       split; [done | by intros (_ & _ & [? ?] & _)]. }
  destruct (VebusSocWriter.active_battery_service p) as [active|]; simpl.
  2: { split; [done|]. split; [by left|].
       split; [done | by intros (_ & _ & _ & (? & ? & _) & _)]. }
  destruct (String.prefix "com.victronenergy.vebus" active) eqn:Ep; simpl.
  { split; [done|]. split; [by left|]. split; [done|].
    intros (_ & _ & _ & (a & [= <-] & Ha) & _). congruence. }
  destruct set_value_raises; simpl.
  { split; [done|]. split; [by left|].
    split; [done | by intros (_ & _ & _ & _ & ?)]. }
  split; [done|]. split; [right; by exists vebus, soc|].
  split; [|done]. intros _. repeat split; eauto.
Qed.
